(** * scripts/unsupervised.py: a shallow embedding of the clustering pipeline

    The script reads one or more spots x genes count tables, tags every spot
    with the index of its dataset, filters, normalizes, reduces the
    dimensionality, clusters, and writes per-dataset outputs.  This file
    embeds [linear_conv] and [main] stage by stage and states the properties
    of the pipeline as theorems about the embedded stages.

    Conventions of the embedding:
    - Python [str] values are [string]; [a in b] on strings is [py_in a b],
      [s.startswith p] is [String.prefix p s], [s.split(c)] is [split c s].
    - float64 values are [fval]: exact rationals extended with the IEEE
      special values +inf, -inf and NaN.  Rounding error and signed zeros
      are not represented; the propagation of NaN and of the infinities is.
    - [sys.exit], uncaught exceptions and normal completion are the three
      constructors of [outcome]; the files written, the plots requested,
      the messages on stderr and the calls into scikit-learn are recorded,
      in order, as a list of [event]s.  The progress messages printed on
      stdout are not recorded.
    - the operating system, pandas' reader, the scikit-learn estimators and
      the functions of [stanalysis.normalization] are fields of [World]. *)

From Stdlib Require Import List ZArith QArith Qround Lia Bool Arith.
From Stdlib Require Import Ascii String DecimalString DecimalNat.
Import ListNotations.

Close Scope Q_scope.
Close Scope Z_scope.
Open Scope string_scope.
Open Scope list_scope.

(* ================================================================== *)
(** ** Python strings *)

Module PyStr.

(** [needle in hay] for two Python strings: [needle] occurs as a contiguous
    substring of [hay]. *)
Fixpoint py_in (needle hay : string) : bool :=
  String.prefix needle hay
  || match hay with
     | EmptyString => false
     | String _ rest => py_in needle rest
     end.

(** [s.split(sep)] for a one-character separator. *)
Fixpoint split (sep : ascii) (s : string) : list string :=
  match s with
  | EmptyString => [EmptyString]
  | String c rest =>
      if Ascii.eqb c sep then EmptyString :: split sep rest
      else match split sep rest with
           | h :: t => String c h :: t
           | [] => [String c EmptyString]
           end
  end.

(** [c in s] for a character. *)
Fixpoint mem (c : ascii) (s : string) : bool :=
  match s with
  | EmptyString => false
  | String d rest => Ascii.eqb d c || mem c rest
  end.

(** ["{}".format(n)] for a non-negative [int]. *)
Definition str_of_nat (n : nat) : string :=
  NilEmpty.string_of_uint (Nat.to_uint n).

(** [int(s)] on a string of decimal digits; any other string is a
    [ValueError] ([None]).  The pipeline only applies [int] to the dataset
    tag it wrote itself. *)
Definition int_of_str (s : string) : option nat :=
  match s with
  | EmptyString => None
  | _ => option_map Nat.of_uint (NilEmpty.uint_of_string s)
  end.

(** [os.path.join(a, b)] for two components (posixpath). *)
Definition path_join (a b : string) : string :=
  match b with
  | String "/"%char _ => b
  | _ =>
      match a with
      | EmptyString => b
      | _ => if String.prefix "/" (String.substring (String.length a - 1) 1 a)
             then a ++ b else a ++ "/" ++ b
      end
  end.

(** Every character of [s] passes [p]. *)
Fixpoint all_chars (p : ascii -> bool) (s : string) : bool :=
  match s with
  | EmptyString => true
  | String c rest => p c && all_chars p rest
  end.

Definition is_digit (c : ascii) : bool :=
  match c with
  | "0" | "1" | "2" | "3" | "4" | "5" | "6" | "7" | "8" | "9" => true
  | _ => false
  end%char.

(** The characters of a decimal or scientific numeral. *)
Definition is_numeric_char (c : ascii) : bool :=
  is_digit c
  || match c with
     | "." | "-" | "+" | "e" | "E" => true
     | _ => false
     end%char.

Definition is_numeric (s : string) : bool :=
  negb (String.eqb s EmptyString) && all_chars is_numeric_char s.

Definition underscore : ascii := "_"%char.
Definition letter_x : ascii := "x"%char.

(** A spot key as the input tables have it: two numerals joined by [x]. *)
Definition coordinate_key (k : string) : bool :=
  match split letter_x k with
  | [X; Y] => is_numeric X && is_numeric Y
  | _ => false
  end.

End PyStr.
Import PyStr.

(* ================================================================== *)
(** ** float64 values *)

Module Float.

(** A float64 is a finite value (kept as an exact rational), one of the two
    infinities, or NaN. *)
Inductive fval : Type :=
  | Fin (q : Q)
  | PInf
  | NInf
  | NaN.

Definition fzero : fval := Fin 0%Q.
Definition fone : fval := Fin 1%Q.
Definition of_Z (z : Z) : fval := Fin (inject_Z z).
Definition of_nat (n : nat) : fval := of_Z (Z.of_nat n).

Definition is_nan (v : fval) : bool :=
  match v with NaN => true | _ => false end.

Definition is_inf (v : fval) : bool :=
  match v with PInf | NInf => true | _ => false end.

Definition is_finite (v : fval) : bool :=
  match v with Fin _ => true | _ => false end.

(** Sign of a rational: -1, 0 or 1. *)
Definition Qsign (q : Q) : Z := Z.sgn (Qnum q).

Definition inf_of_sign (s : Z) : fval :=
  match s with
  | Zpos _ => PInf
  | Zneg _ => NInf
  | Z0 => NaN
  end.

Definition sign (v : fval) : Z :=
  match v with
  | Fin q => Qsign q
  | PInf => 1%Z
  | NInf => (-1)%Z
  | NaN => 0%Z
  end.

Definition fneg (v : fval) : fval :=
  match v with
  | Fin q => Fin (Qred (- q))
  | PInf => NInf
  | NInf => PInf
  | NaN => NaN
  end.

Definition fadd (a b : fval) : fval :=
  match a, b with
  | NaN, _ | _, NaN => NaN
  | Fin x, Fin y => Fin (Qred (x + y))
  | PInf, NInf | NInf, PInf => NaN
  | PInf, _ | _, PInf => PInf
  | NInf, _ | _, NInf => NInf
  end.

Definition fsub (a b : fval) : fval := fadd a (fneg b).

Definition fmul (a b : fval) : fval :=
  match a, b with
  | NaN, _ | _, NaN => NaN
  | Fin x, Fin y => Fin (Qred (x * y))
  | _, _ => inf_of_sign (sign a * sign b)
  end.

(** IEEE division: a finite non-zero value over zero is an infinity, zero
    over zero and infinity over infinity are NaN. *)
Definition fdiv (a b : fval) : fval :=
  match a, b with
  | NaN, _ | _, NaN => NaN
  | Fin x, Fin y =>
      if Qeq_bool y 0 then inf_of_sign (Qsign x) else Fin (Qred (x / y))
  | Fin _, _ => fzero
  | _, Fin y => inf_of_sign (sign a * (if Qeq_bool y 0 then 1 else Qsign y))
  | _, _ => NaN
  end.

(** Comparisons; every ordered comparison with NaN is false, [!=] is true. *)
Definition flt (a b : fval) : bool :=
  match a, b with
  | NaN, _ | _, NaN => false
  | Fin x, Fin y => negb (Qle_bool y x)
  | NInf, NInf | PInf, _ | _, NInf => false
  | _, _ => true
  end.

Definition feq (a b : fval) : bool :=
  match a, b with
  | Fin x, Fin y => Qeq_bool x y
  | PInf, PInf | NInf, NInf => true
  | _, _ => false
  end.

Definition fle (a b : fval) : bool := flt a b || feq a b.
Definition fgt (a b : fval) : bool := flt b a.
Definition fge (a b : fval) : bool := fle b a.
Definition fne (a b : fval) : bool := negb (feq a b).

(** Python 2 [round(x)]: to the nearest integer, halves away from zero. *)
Definition Qround_half_away (q : Q) : Z :=
  if Qle_bool 0 q then Qfloor (q + (1 # 2)) else Qceiling (q - (1 # 2)).

Definition fround (v : fval) : fval :=
  match v with
  | Fin q => of_Z (Qround_half_away q)
  | _ => v
  end.

(** Builtin [max] and [min] over a non-empty sequence; [None] is the
    [ValueError] raised on an empty one. *)
Definition py_max (l : list fval) : option fval :=
  match l with
  | [] => None
  | x :: rest => Some (fold_left (fun m y => if fgt y m then y else m) rest x)
  end.

Definition py_min (l : list fval) : option fval :=
  match l with
  | [] => None
  | x :: rest => Some (fold_left (fun m y => if flt y m then y else m) rest x)
  end.

(** Sum of a pandas row or column: NaN entries are skipped. *)
Definition nansum (l : list fval) : fval :=
  fold_left fadd (filter (fun v => negb (is_nan v)) l) fzero.

(** [np.mean]. *)
Definition mean (l : list fval) : fval :=
  fdiv (fold_left fadd l fzero) (of_nat (List.length l)).

(** [Series.var()]: sample variance (ddof = 1) of the non-NaN entries; NaN
    when fewer than two remain. *)
Definition nanvar (l : list fval) : fval :=
  let xs := filter (fun v => negb (is_nan v)) l in
  let n := List.length xs in
  if Nat.leb n 1 then NaN
  else
    let m := fdiv (fold_left fadd xs fzero) (of_nat n) in
    let sq := map (fun x => let d := fsub x m in fmul d d) xs in
    fdiv (fold_left fadd sq fzero) (of_nat (n - 1)).

(** Insertion into an ascending list, for the order statistics below. *)
Fixpoint insert_sorted (x : fval) (l : list fval) : list fval :=
  match l with
  | [] => [x]
  | y :: rest => if fle x y then x :: l else y :: insert_sorted x rest
  end.

Definition sort (l : list fval) : list fval :=
  fold_right insert_sorted [] l.

(** [Series.quantile(q)] with linear interpolation, for [0 <= q <= 1]:
    NaN entries are dropped, an empty series gives NaN, and the value at
    position [q * (n - 1)] of the sorted entries is interpolated between its
    two neighbours (taken as it is when the position is whole). *)
Definition quantile (l : list fval) (q : Q) : fval :=
  let xs := sort (filter (fun v => negb (is_nan v)) l) in
  match xs with
  | [] => NaN
  | _ =>
      let pos := (q * inject_Z (Z.of_nat (List.length xs - 1)))%Q in
      let i := Z.to_nat (Qfloor pos) in
      let frac := Qred (pos - inject_Z (Qfloor pos)) in
      let lo := nth i xs NaN in
      if Qeq_bool frac 0 then lo
      else
        let hi := nth (S i) xs NaN in
        fadd lo (fmul (fsub hi lo) (Fin frac))
  end.

End Float.
Import Float.

(* ================================================================== *)
(** ** pandas data frames and numpy arrays *)

Module Frame.

(** A data frame: row labels, column labels, and the values row by row. *)
Record DataFrame : Type := mkDF {
  df_index : list string;
  df_columns : list string;
  df_values : list (list fval)
}.

(** [pd.DataFrame()] *)
Definition empty_frame : DataFrame := mkDF [] [] [].

Definition well_formed (d : DataFrame) : Prop :=
  List.length (df_values d) = List.length (df_index d) /\
  Forall (fun row => List.length row = List.length (df_columns d)) (df_values d).

Fixpoint position (c : string) (l : list string) : option nat :=
  match l with
  | [] => None
  | d :: rest => if String.eqb d c then Some 0 else option_map S (position c rest)
  end.

Definition mem_str (c : string) (l : list string) : bool :=
  existsb (String.eqb c) l.

(** The entries of [row] (laid out along [from]) re-laid along [to]; a
    label that [from] lacks gets NaN. *)
Definition reindex (from to : list string) (row : list fval) : list fval :=
  map (fun c => match position c from with
                | Some j => nth j row NaN
                | None => NaN
                end) to.

(** [a.append(b)]: rows of [a] then rows of [b], over the union of the
    columns (first occurrence order), NaN where a frame lacks a column. *)
Definition append (a b : DataFrame) : DataFrame :=
  let cols := df_columns a
              ++ filter (fun c => negb (mem_str c (df_columns a))) (df_columns b) in
  mkDF (df_index a ++ df_index b) cols
       (map (reindex (df_columns a) cols) (df_values a)
        ++ map (reindex (df_columns b) cols) (df_values b)).

(** Column [j] of the values. *)
Definition column (j : nat) (rows : list (list fval)) : list fval :=
  map (fun row => nth j row NaN) rows.

Definition columns_of (d : DataFrame) : list (list fval) :=
  map (fun j => column j (df_values d)) (seq 0 (List.length (df_columns d))).

(** [d.transpose()] *)
Definition transpose (d : DataFrame) : DataFrame :=
  mkDF (df_columns d) (df_index d) (columns_of d).

(** Element-wise map, e.g. [d + 1] or [np.log2(d)]. *)
Definition map_values (f : fval -> fval) (d : DataFrame) : DataFrame :=
  mkDF (df_index d) (df_columns d) (map (map f) (df_values d)).

(** [d.fillna(0.0, inplace=True)] *)
Definition fillna_zero (d : DataFrame) : DataFrame :=
  map_values (fun v => if is_nan v then fzero else v) d.

(** [d.sum(axis=1)] and [d.sum(axis=0)] *)
Definition sum_axis1 (d : DataFrame) : list fval := map nansum (df_values d).
Definition sum_axis0 (d : DataFrame) : list fval := map nansum (columns_of d).

(** [d.var(axis=1)] *)
Definition var_axis1 (d : DataFrame) : list fval := map nanvar (df_values d).

(** [(d != 0).sum(axis=1)] and [(d >= m).sum(axis=1)] *)
Definition count_if (p : fval -> bool) (row : list fval) : nat :=
  List.length (filter p row).

Definition count_nonzero_axis1 (d : DataFrame) : list nat :=
  map (count_if (fun v => fne v fzero)) (df_values d).

Definition count_ge_axis1 (m : fval) (d : DataFrame) : list nat :=
  map (count_if (fun v => fge v m)) (df_values d).

(** Keep the entries of [l] whose mask bit is set. *)
Fixpoint select {A : Type} (mask : list bool) (l : list A) : list A :=
  match mask, l with
  | b :: mask', x :: l' => if b then x :: select mask' l' else select mask' l'
  | _, _ => []
  end.

(** [d[mask]] for a boolean series over the rows. *)
Definition filter_rows (mask : list bool) (d : DataFrame) : DataFrame :=
  mkDF (select mask (df_index d)) (df_columns d) (select mask (df_values d)).

(** [d / factors] and [d / series]: column [j] is divided by entry [j]. *)
Definition div_columns (d : DataFrame) (factors : list fval) : DataFrame :=
  mkDF (df_index d) (df_columns d)
       (map (fun row => map (fun vf => fdiv (fst vf) (snd vf)) (combine row factors))
            (df_values d)).

(** [d.loc[spot] = d.loc[spot] / factor]: every row labelled [spot]. *)
Definition div_row (spot : string) (factor : fval) (d : DataFrame) : DataFrame :=
  mkDF (df_index d) (df_columns d)
       (map (fun lr => if String.eqb (fst lr) spot
                       then map (fun v => fdiv v factor) (snd lr)
                       else snd lr)
            (combine (df_index d) (df_values d))).

(** [d.loc[labels]]: for each requested label, the rows that carry it. *)
Definition loc_rows (labels : list string) (d : DataFrame) : DataFrame :=
  let picked :=
    flat_map (fun l => filter (fun lr => String.eqb (fst lr) l)
                              (combine (df_index d) (df_values d))) labels in
  mkDF (map fst picked) (df_columns d) (map snd picked).

(** A two-dimensional numpy array with its number of columns. *)
Record ndarray : Type := mkArray {
  nd_ncols : nat;
  nd_rows : list (list fval)
}.

End Frame.
Import Frame.

(* ================================================================== *)
(** ** Effects: exit, exceptions and the trace of outside actions *)

Module Effects.

Inductive exn : Type :=
  | TypeError | ValueError | IndexError | KeyError | AssertionError | IOError.

Inductive outcome (A : Type) : Type :=
  | Ret (a : A)
  | Exit (code : Z)
  | Raise (e : exn).
Arguments Ret {A} a.
Arguments Exit {A} code.
Arguments Raise {A} e.

(** The estimators the script constructs, with the arguments it passes
    (the ones it passes as [None] or as [verbose=0] are left out). *)
Inductive decomp_model : Type :=
  | TSNE (n_components : Z) (perplexity early_exaggeration learning_rate : Q)
         (n_iter n_iter_without_progress : Z) (metric init method : string) (angle : Q)
  | PCA (n_components : Z) (whiten copy : bool)
  | FastICA (n_components : Z) (algorithm : string) (whiten : bool) (fun_ : string)
  | SparsePCA (n_components : Z) (alpha : Q).

Inductive clustering_model : Type :=
  | KMeans (init : string) (n_clusters n_init : Z)
  | AgglomerativeClustering (n_clusters : Z) (affinity linkage : string).

Definition rgb : Type := (fval * fval * fval)%type.

Inductive plot_colors : Type :=
  | ByLabel (labels : list Z)
  | ByColor (colors : list rgb).

Inductive event : Type :=
  | Stderr (msg : string)
  | Histogram (x_points : list fval) (output : string)
  | ToCsv (d : DataFrame) (path : string)
  | FitTransform (model : decomp_model) (X : DataFrame)
  | FitPredict (model : clustering_model) (X : ndarray)
  | ScatterPlot3d (x_points y_points z_points : list fval) (colors : list Z)
                  (output : string)
  | ScatterPlot (x_points y_points : list fval) (colors : plot_colors)
                (output : string) (alignment image : option string)
  | FileOpen (path : string)
  | FileWrite (path : string) (label : Z) (x y : fval)
  | FileClose (path : string).

(** A computation: its outcome and the events it caused, oldest first. *)
Definition M (A : Type) : Type := (outcome A * list event)%type.

Definition ret {A : Type} (a : A) : M A := (Ret a, []).
Definition exit {A : Type} (code : Z) : M A := (Exit code, []).
Definition raise {A : Type} (e : exn) : M A := (Raise e, []).
Definition emit (e : event) : M unit := (Ret tt, [e]).
Definition lift {A : Type} (o : outcome A) : M A := (o, []).

Definition bind {A B : Type} (m : M A) (k : A -> M B) : M B :=
  match m with
  | (Ret a, tr) => let (o, tr') := k a in (o, tr ++ tr')
  | (Exit c, tr) => (Exit c, tr)
  | (Raise e, tr) => (Raise e, tr)
  end.

(** [for x in l: st = body(st, x)] *)
Fixpoint for_each {A S : Type} (l : list A) (body : S -> A -> M S) (st : S) : M S :=
  match l with
  | [] => ret st
  | x :: rest => bind (body st x) (for_each rest body)
  end.

(** [l[i]], an [IndexError] when out of range. *)
Definition item {A : Type} (l : list A) (i : nat) : M A :=
  match nth_error l i with
  | Some a => ret a
  | None => raise IndexError
  end.

(** [assert c] *)
Definition py_assert (c : bool) : M unit :=
  if c then ret tt else raise AssertionError.

(** [enumerate(l)] *)
Definition enumerate {A : Type} (l : list A) : list (nat * A) :=
  combine (seq 0 (List.length l)) l.

End Effects.
Import Effects.

Notation "x <- m ;; k" := (bind m (fun x => k))
  (at level 61, m at next level, right associativity).
Notation "m ;;; k" := (bind m (fun _ => k))
  (at level 61, right associativity).

(* ================================================================== *)
(** ** The outside world *)

(** Everything [main] calls that lives outside the script: the operating
    system, pandas' reader, the float parser, numpy's logarithm, the
    scikit-learn estimators and the four functions the script imports from
    [stanalysis.normalization].  A call that can fail returns an
    [outcome]. *)
Record World : Type := {
  isfile : string -> bool;
  isdir : string -> bool;
  getcwd : string;
  abspath : string -> string;
  read_table : string -> outcome DataFrame;
  py_float : string -> outcome fval;
  log2 : fval -> fval;
  computeSizeFactors : DataFrame -> outcome (list fval);
  computeSizeFactorsLinear : DataFrame -> outcome (list fval);
  computeDESeq2LogTransform : DataFrame -> outcome DataFrame;
  computeEdgeRNormalization : DataFrame -> outcome (list fval);
  fit_transform : decomp_model -> DataFrame -> outcome ndarray;
  fit_predict : clustering_model -> ndarray -> outcome (list Z)
}.

(** The arguments of [main]. *)
Record Args : Type := {
  counts_table_files : list string;
  normalization : string;
  num_clusters : Z;
  clustering_algorithm : string;
  dimensionality_algorithm : string;
  use_log_scale : bool;
  apply_sample_normalization : bool;
  num_exp_genes : Z;
  num_genes_keep : Z;
  outdir : option string;
  alignment_files : option (list string);
  image_files : option (list string);
  num_dimensions : Z
}.

(** The same arguments with another [outdir]. *)
Definition with_outdir (o : option string) (a : Args) : Args := {|
  counts_table_files := counts_table_files a;
  normalization := normalization a;
  num_clusters := num_clusters a;
  clustering_algorithm := clustering_algorithm a;
  dimensionality_algorithm := dimensionality_algorithm a;
  use_log_scale := use_log_scale a;
  apply_sample_normalization := apply_sample_normalization a;
  num_exp_genes := num_exp_genes a;
  num_genes_keep := num_genes_keep a;
  outdir := o;
  alignment_files := alignment_files a;
  image_files := image_files a;
  num_dimensions := num_dimensions a
|}.

(** The same arguments with another value of [--normalize-samples]. *)
Definition with_sample_normalization (b : bool) (a : Args) : Args := {|
  counts_table_files := counts_table_files a;
  normalization := normalization a;
  num_clusters := num_clusters a;
  clustering_algorithm := clustering_algorithm a;
  dimensionality_algorithm := dimensionality_algorithm a;
  use_log_scale := use_log_scale a;
  apply_sample_normalization := b;
  num_exp_genes := num_exp_genes a;
  num_genes_keep := num_genes_keep a;
  outdir := outdir a;
  alignment_files := alignment_files a;
  image_files := image_files a;
  num_dimensions := num_dimensions a
|}.

Definition nl : string := String (ascii_of_nat 10) EmptyString.

Definition MIN_EXPRESION : fval := Fin 2.

(** [linear_conv(old, min, max, new_min, new_max)] *)
Definition linear_conv (old min max new_min new_max : fval) : fval :=
  fmul (fdiv (fsub old min) (fsub max min)) (fadd (fsub new_max new_min) new_min).

(** ["{0}_{1}".format(i, spot)] *)
Definition tag_spot (i : nat) (spot : string) : string :=
  str_of_nat i ++ "_" ++ spot.

(** The message of line 184. *)
Definition normalization_error : string :=
  "Error, incorrect normalization method" ++ nl.

(** [sys.stderr.write(msg); sys.exit(1)] *)
Definition fail {A : Type} (msg : string) : M A :=
  emit (Stderr msg) ;;; exit 1%Z.

(** [d.replace([np.inf, -np.inf], np.nan)]: a new frame, the receiver is
    left as it is. *)
Definition replace_inf_nan (d : DataFrame) : DataFrame :=
  map_values (fun v => if is_inf v then NaN else v) d.

(** [labels + 1 if 0 in labels else labels] *)
Definition shift_labels (labels : list Z) : list Z :=
  if existsb (Z.eqb 0) labels then map (fun l => (l + 1)%Z) labels else labels.

(** [x / 100.0] *)
Definition percent (x : Z) : Q := Qred (inject_Z x / 100).

(** [Series.quantile(q)]; a [q] outside [0, 1] is a [ValueError]. *)
Definition series_quantile (l : list fval) (q : Q) : M fval :=
  if Qle_bool 0 q && Qle_bool q 1 then ret (quantile l q) else raise ValueError.

(** A list comprehension whose element expression can raise. *)
Definition comprehension {A B : Type} (f : A -> M B) (l : list A) : M (list B) :=
  for_each l (fun acc x => y <- f x ;; ret (acc ++ [y])) [].

(** [int(s)] *)
Definition py_int (s : string) : M nat :=
  match int_of_str s with
  | Some n => ret n
  | None => raise ValueError
  end.

(** [a[:, j]] *)
Definition array_column (a : ndarray) (j : nat) : M (list fval) :=
  if Nat.ltb j (nd_ncols a) then ret (column j (nd_rows a)) else raise IndexError.

Definition max_of (l : list fval) : M fval :=
  match py_max l with Some v => ret v | None => raise ValueError end.

Definition min_of (l : list fval) : M fval :=
  match py_min l with Some v => ret v | None => raise ValueError end.

(** [zip(a, b, c)] *)
Fixpoint zip3 {A B C : Type} (a : list A) (b : list B) (c : list C)
  : list (A * B * C) :=
  match a, b, c with
  | x :: a', y :: b', z :: c' => (x, y, z) :: zip3 a' b' c'
  | _, _, _ => []
  end.

(** [l[index].append(x)] on a list of lists. *)
Definition append_at {A : Type} (l : list (list A)) (index : nat) (x : A)
  : M (list (list A)) :=
  match nth_error l index with
  | Some cell => ret (firstn index l ++ [cell ++ [x]] ++ skipn (S index) l)
  | None => raise IndexError
  end.

(** A series indexed by gene: [frame.sum(axis=0)]. *)
Definition Series : Type := list (string * fval).

Fixpoint series_get (s : Series) (c : string) : fval :=
  match s with
  | [] => NaN
  | (k, v) :: rest => if String.eqb k c then v else series_get rest c
  end.

(** The per-dataset lists the output loop fills. *)
Record Groups : Type := mkGroups {
  x_points_index : list (list fval);
  y_points_index : list (list fval);
  labels_index : list (list Z);
  labels_color_index : list (list rgb)
}.

(* ================================================================== *)
(** ** [main], stage by stage *)

Section Pipeline.

Variable W : World.

(** Lines 64-74: the three checks on the argument lists. *)
Definition check_inputs (a : Args) : M unit :=
  let files := counts_table_files a in
  (if Nat.eqb (List.length files) 0 || existsb (fun f => negb (isfile W f)) files
   then fail ("Error, input file/s not present or invalid format" ++ nl)
   else ret tt) ;;;
  (match image_files a with
   | Some images =>
       if Nat.ltb 0 (List.length images)
          && negb (Nat.eqb (List.length images) (List.length files))
       then fail ("Error, the number of images given as input is not the same as the number of datasets" ++ nl)
       else ret tt
   | None => ret tt
   end) ;;;
  match alignment_files a with
  | Some alignments =>
      if Nat.ltb 0 (List.length alignments) then
        match image_files a with
        | Some images =>
            if negb (Nat.eqb (List.length alignments) (List.length images))
            then fail ("Error, the number of alignments given as input is not the same as the number of images" ++ nl)
            else ret tt
        | None => raise TypeError
        end
      else ret tt
  | None => ret tt
  end.

(** Lines 76-78. *)
Definition resolve_outdir (o : option string) : string :=
  abspath W (match o with
             | None => getcwd W
             | Some d => if isdir W d then d else getcwd W
             end).

(** Lines 86-104: one turn of the ingestion loop. *)
Definition ingest_one (out : string) (sample_norm : bool)
    (st : DataFrame * list (nat * Series)) (ic : nat * string)
  : M (DataFrame * list (nat * Series)) :=
  let (counts, sample_counts) := st in
  let (i, counts_file) := ic in
  new_counts <- lift (read_table W counts_file) ;;
  emit (Histogram (sum_axis1 new_counts)
          (path_join out ("hist_reads_" ++ str_of_nat i ++ ".png"))) ;;;
  emit (Histogram (map of_nat (count_nonzero_axis1 new_counts))
          (path_join out ("hist_genes_" ++ str_of_nat i ++ ".png"))) ;;;
  let new_spots := map (tag_spot i) (df_index new_counts) in
  let new_counts := mkDF new_spots (df_columns new_counts) (df_values new_counts) in
  let counts := append counts new_counts in
  ret (counts,
       if sample_norm
       then sample_counts ++ [(i, combine (df_columns new_counts) (sum_axis0 new_counts))]
       else sample_counts).

(** Lines 84-111: ingestion, clean-up and the aggregated matrix. *)
Definition ingest (out : string) (a : Args) : M (DataFrame * list (nat * Series)) :=
  st <- for_each (enumerate (counts_table_files a))
          (ingest_one out (apply_sample_normalization a)) (empty_frame, []) ;;
  let (counts, sample_counts) := st in
  let _ := replace_inf_nan counts in
  let counts := fillna_zero counts in
  (if Nat.ltb 1 (List.length (counts_table_files a))
   then emit (ToCsv counts (path_join out "aggregated_counts.tsv"))
   else ret tt) ;;;
  ret (counts, sample_counts).

(** Lines 133-139: one turn of the loop over the spots. *)
Definition normalize_spot (per_sample_size_factors : list fval)
    (counts : DataFrame) (spot : string) : M DataFrame :=
  let tokens := split letter_x spot in
  py_assert (Nat.eqb (List.length tokens) 2) ;;;
  t0 <- item tokens 0 ;;
  tag <- item (split underscore t0) 0 ;;
  index <- py_int tag ;;
  factor <- item per_sample_size_factors index ;;
  ret (div_row spot factor counts).

(** Lines 114-143: normalization across the datasets. *)
Definition sample_normalization (a : Args) (counts : DataFrame)
    (sample_counts : list (nat * Series)) : M DataFrame :=
  if apply_sample_normalization a && Nat.ltb 1 (List.length (counts_table_files a))
  then
    let per_sample_factors :=
      mkDF (map (fun kv => str_of_nat (fst kv)) sample_counts) (df_columns counts)
           (map (fun kv => map (series_get (snd kv)) (df_columns counts)) sample_counts) in
    let _ := replace_inf_nan per_sample_factors in
    let per_sample_factors := fillna_zero per_sample_factors in
    let per_sample_factors := transpose per_sample_factors in
    per_sample_size_factors <- lift (computeSizeFactors W per_sample_factors) ;;
    counts <- for_each (df_index counts) (normalize_spot per_sample_size_factors) counts ;;
    let _ := replace_inf_nan counts in
    ret (fillna_zero counts)
  else ret counts.

(** Lines 146-152: the spots with too few expressed genes are dropped. *)
Definition spot_filter (q : Q) (counts : DataFrame) : M DataFrame :=
  let expressed := count_nonzero_axis1 counts in
  level <- series_quantile (map of_nat expressed) q ;;
  let min_genes_spot_exp := fround level in
  ret (filter_rows (map (fun n => fge (of_nat n) min_genes_spot_exp) expressed) counts).

(** Lines 158-162, on the genes x spots frame. *)
Definition gene_filter (counts : DataFrame) : DataFrame :=
  let min_features_gene :=
    fround (fmul (of_nat (List.length (df_columns counts))) (Fin (1 # 100))) in
  filter_rows (map (fun n => fge (of_nat n) min_features_gene)
                   (count_ge_axis1 MIN_EXPRESION counts)) counts.

(** [counts / size_factors] *)
Definition divide (counts : DataFrame) (size_factors : list fval) : M DataFrame :=
  if Nat.eqb (List.length size_factors) (List.length (df_columns counts))
  then ret (div_columns counts size_factors)
  else raise ValueError.

(** Lines 166-185: the per-spot normalization chosen by name. *)
Definition per_spot_normalization (name : string) (counts : DataFrame) : M DataFrame :=
  if py_in name "DESeq" then
    size_factors <- lift (computeSizeFactors W counts) ;;
    divide counts size_factors
  else if py_in name "DESeq2" then
    size_factors <- lift (computeSizeFactorsLinear W counts) ;;
    divide counts size_factors
  else if py_in name "DESeq2Log" then
    lift (computeDESeq2LogTransform W counts)
  else if py_in name "EdgeR" then
    size_factors <- lift (computeEdgeRNormalization W counts) ;;
    scaled <- divide counts size_factors ;;
    ret (map_values (fun v => fmul v (mean size_factors)) scaled)
  else if py_in name "REL" then
    let spots_sum := sum_axis0 counts in
    ret (div_columns counts spots_sum)
  else if py_in name "RAW" then
    ret counts
  else fail normalization_error.

(** Lines 189-194: the genes of low variance are dropped. *)
Definition variance_filter (q : Q) (norm_counts : DataFrame) : M DataFrame :=
  let variances := var_axis1 norm_counts in
  min_genes_spot_var <- series_quantile variances q ;;
  ret (filter_rows (map (fun v => fge v min_genes_spot_var) variances) norm_counts).

(** Lines 202-205: the slice of dataset [i], with its original keys. *)
Definition write_slice (out : string) (norm_counts : DataFrame) (_ : unit) (i : nat)
  : M unit :=
  let tot_spots := df_index norm_counts in
  let spots_to_keep := filter (String.prefix (str_of_nat i ++ "_")) tot_spots in
  let slice_counts := loc_rows spots_to_keep norm_counts in
  keys <- comprehension (fun spot => item (split underscore spot) 1) spots_to_keep ;;
  (if Nat.eqb (List.length keys) (List.length (df_index slice_counts))
   then ret tt else raise ValueError) ;;;
  emit (ToCsv (mkDF keys (df_columns slice_counts) (df_values slice_counts))
          (path_join out ("normalized_counts_" ++ str_of_nat i ++ ".tsv"))).

Definition write_normalized (out : string) (a : Args) (norm_counts : DataFrame) : M unit :=
  for_each (seq 0 (List.length (counts_table_files a))) (write_slice out norm_counts) tt.

(** Lines 207-228: the estimator chosen by name. *)
Definition select_decomp_model (name : string) (n : Z) : M decomp_model :=
  if py_in "tSNE" name then
    ret (TSNE n 5 4 1000 1000 30 "euclidean" "pca" "exact" (1 # 2))
  else if py_in "PCA" name then
    ret (PCA n true true)
  else if py_in "ICA" name then
    ret (FastICA n "parallel" true "logcosh")
  else if py_in "SPCA" name then
    ret (SparsePCA n 1)
  else fail ("Error, incorrect dimensionality reduction method" ++ nl).

(** Lines 230-236. *)
Definition reduce (a : Args) (decomp : decomp_model) (norm_counts : DataFrame)
  : M (DataFrame * ndarray) :=
  let norm_counts :=
    if use_log_scale a
    then map_values (fun v => log2 W (fadd v fone)) norm_counts
    else norm_counts in
  emit (FitTransform decomp norm_counts) ;;;
  reduced_data <- lift (fit_transform W decomp norm_counts) ;;
  ret (norm_counts, reduced_data).

(** Lines 239-247. *)
Definition select_clustering (name : string) (k : Z) : M clustering_model :=
  if py_in "KMeans" name then
    ret (KMeans "k-means++" k 10)
  else if py_in "Hierarchical" name then
    ret (AgglomerativeClustering k "euclidean" "ward")
  else fail ("Error, incorrect clustering method" ++ nl).

(** Lines 251-252. *)
Definition cluster (clustering : clustering_model) (reduced_data : ndarray) : M (list Z) :=
  emit (FitPredict clustering reduced_data) ;;;
  labels <- lift (fit_predict W clustering reduced_data) ;;
  ret (shift_labels labels).

(** Lines 255-271: one colour per spot from its reduced coordinates.  The
    names [z_max] and [z_min] are bound only when three dimensions are
    asked for; they are read only then. *)
Definition labels_colors (dims : Z) (reduced_data : ndarray) : M (list rgb) :=
  c <- array_column reduced_data 0 ;; x_max <- max_of c ;;
  c <- array_column reduced_data 0 ;; x_min <- min_of c ;;
  c <- array_column reduced_data 1 ;; y_max <- max_of c ;;
  c <- array_column reduced_data 1 ;; y_min <- min_of c ;;
  x_p <- array_column reduced_data 0 ;;
  y_p <- array_column reduced_data 1 ;;
  let z_p := y_p in
  z <- (if Z.eqb dims 3 then
          z_p <- array_column reduced_data 3 ;;
          c <- array_column reduced_data 2 ;; z_max <- max_of c ;;
          c <- array_column reduced_data 2 ;; z_min <- min_of c ;;
          ret (z_p, z_max, z_min)
        else ret (z_p, NaN, NaN)) ;;
  let '(z_p, z_max, z_min) := z in
  ret (map (fun xyz : fval * fval * fval =>
              let '(x, y, z) := xyz in
              let r := linear_conv x x_min x_max fzero fone in
              let g := linear_conv y y_min y_max fzero fone in
              let b := if Z.eqb dims 3
                       then linear_conv z z_min z_max fzero fone else fone in
              (r, g, b))
           (zip3 x_p y_p z_p)).

(** Lines 276-292. *)
Definition plot_classes (out : string) (dims : Z) (reduced_data : ndarray)
    (labels : list Z) : M unit :=
  if Z.eqb dims 3 then
    x <- array_column reduced_data 0 ;;
    y <- array_column reduced_data 1 ;;
    z <- array_column reduced_data 2 ;;
    emit (ScatterPlot3d x y z labels (path_join out "computed_classes.png"))
  else
    x <- array_column reduced_data 0 ;;
    y <- array_column reduced_data 1 ;;
    emit (ScatterPlot x y (ByLabel labels) (path_join out "computed_classes.png")
            None None).

Definition classes_file (out : string) (i : nat) : string :=
  path_join out ("computed_classes_" ++ str_of_nat i ++ ".txt").

(** Lines 303-314: one turn of the loop over the spots. *)
Definition write_class (file_writers : list string) (labels : list Z)
    (colors : list rgb) (g : Groups) (ibc : nat * string) : M Groups :=
  let (i, bc) := ibc in
  let tokens := split letter_x bc in
  py_assert (Nat.eqb (List.length tokens) 2) ;;;
  t1 <- item tokens 1 ;;
  y <- lift (py_float W t1) ;;
  t0 <- item tokens 0 ;;
  xs <- item (split underscore t0) 1 ;;
  x <- lift (py_float W xs) ;;
  t0 <- item tokens 0 ;;
  tag <- item (split underscore t0) 0 ;;
  index <- py_int tag ;;
  xi <- append_at (x_points_index g) index x ;;
  yi <- append_at (y_points_index g) index y ;;
  label <- item labels i ;;
  li <- append_at (labels_index g) index label ;;
  color <- item colors i ;;
  ci <- append_at (labels_color_index g) index color ;;
  writer <- item file_writers index ;;
  label <- item labels i ;;
  emit (FileWrite writer label x y) ;;;
  ret (mkGroups xi yi li ci).

(** Lines 295-318. *)
Definition write_classes (out : string) (a : Args) (norm_counts : DataFrame)
    (labels : list Z) (colors : list rgb) : M Groups :=
  py_assert (Nat.eqb (List.length labels) (List.length (df_index norm_counts))) ;;;
  let n := List.length (counts_table_files a) in
  let empty {A : Type} : list (list A) := map (fun _ => []) (seq 0 n) in
  let file_writers := map (classes_file out) (seq 0 n) in
  for_each file_writers (fun _ path => emit (FileOpen path)) tt ;;;
  g <- for_each (enumerate (df_index norm_counts))
         (write_class file_writers labels colors)
         (mkGroups empty empty empty empty) ;;
  for_each file_writers (fun _ path => emit (FileClose path)) tt ;;;
  ret g.

(** Lines 321-350: the two overlays of one image.  The alignment file is
    handed to the plot as it is; its parsing is the plotting library's. *)
Definition plot_image (out : string) (a : Args) (g : Groups) (_ : unit)
    (ii : nat * string) : M unit :=
  let (i, image) := ii in
  if isfile W image then
    alignment_file <-
      match alignment_files a with
      | Some alignments =>
          if Nat.leb i (List.length alignments)
          then f <- item alignments i ;; ret (Some f)
          else ret None
      | None => ret None
      end ;;
    x <- item (x_points_index g) i ;;
    y <- item (y_points_index g) i ;;
    l <- item (labels_index g) i ;;
    emit (ScatterPlot x y (ByLabel l)
            (path_join out ("computed_classes_tissue_" ++ str_of_nat i ++ ".png"))
            alignment_file (Some image)) ;;;
    x <- item (x_points_index g) i ;;
    y <- item (y_points_index g) i ;;
    c <- item (labels_color_index g) i ;;
    emit (ScatterPlot x y (ByColor c)
            (path_join out ("dimensionality_color_tissue_" ++ str_of_nat i ++ ".png"))
            alignment_file (Some image))
  else ret tt.

Definition plot_images (out : string) (a : Args) (g : Groups) : M unit :=
  for_each (match image_files a with
            | Some images => enumerate images
            | None => []
            end) (plot_image out a g) tt.

(** Lines 84-143: the merged, cleaned spots x genes frame. *)
Definition merge_datasets (out : string) (a : Args) : M DataFrame :=
  st <- ingest out a ;;
  let (counts, sample_counts) := st in
  sample_normalization a counts sample_counts.

(** Lines 145-162: the filtered genes x spots frame. *)
Definition quality_filter (a : Args) (counts : DataFrame) : M DataFrame :=
  counts <- spot_filter (percent (num_exp_genes a)) counts ;;
  let counts := transpose counts in
  ret (gene_filter counts).

(** Lines 164-197: the normalized spots x genes frame. *)
Definition normalize (a : Args) (counts : DataFrame) : M DataFrame :=
  norm_counts <- per_spot_normalization (normalization a) counts ;;
  norm_counts <- variance_filter (percent (num_genes_keep a)) norm_counts ;;
  ret (transpose norm_counts).

(** Lines 199-350. *)
Definition analyse (out : string) (a : Args) (norm_counts : DataFrame) : M unit :=
  write_normalized out a norm_counts ;;;
  decomp_model <- select_decomp_model (dimensionality_algorithm a) (num_dimensions a) ;;
  nr <- reduce a decomp_model norm_counts ;;
  let (norm_counts, reduced_data) := nr in
  clustering <- select_clustering (clustering_algorithm a) (num_clusters a) ;;
  labels <- cluster clustering reduced_data ;;
  colors <- labels_colors (num_dimensions a) reduced_data ;;
  plot_classes out (num_dimensions a) reduced_data labels ;;;
  g <- write_classes out a norm_counts labels colors ;;
  plot_images out a g.

(** Lines 64-162: everything before the per-spot normalization. *)
Definition prepare (a : Args) : M DataFrame :=
  check_inputs a ;;;
  let out := resolve_outdir (outdir a) in
  counts <- merge_datasets out a ;;
  quality_filter a counts.

Definition main (a : Args) : M unit :=
  counts <- prepare a ;;
  norm_counts <- normalize a counts ;;
  analyse (resolve_outdir (outdir a)) a norm_counts.

End Pipeline.

(* ================================================================== *)
(** ** A concrete world for the examples *)

Module Sample.

(** Dataset [a.tsv]: three spots, two genes; spot [1x2] has no counts. *)
Definition table_a : DataFrame :=
  mkDF ["1x1"; "1x2"; "2x1"] ["g1"; "g2"]
       [[Fin 2; Fin 3]; [Fin 0; Fin 0]; [Fin 4; Fin 1]].

(** Dataset [b.tsv]: two spots, the same two genes. *)
Definition table_b : DataFrame :=
  mkDF ["1x1"; "3x4"] ["g1"; "g2"]
       [[Fin 5; Fin 2]; [Fin 2; Fin 6]].

(** Dataset [c.tsv]: two spots, two genes, one count written [inf]. *)
Definition table_c : DataFrame :=
  mkDF ["1x1"; "1x2"] ["g1"; "g2"] [[PInf; Fin 1]; [Fin 2; Fin 3]].

Definition all_finite (d : DataFrame) : bool :=
  forallb (forallb is_finite) (df_values d).

(** A stand-in for an estimator: the first [n] columns of the input, after
    scikit-learn's input check (no NaN, no infinity). *)
Definition first_columns (n : nat) (d : DataFrame) : outcome ndarray :=
  if all_finite d
  then Ret (mkArray n (map (fun row => map (fun j => nth j row fzero) (seq 0 n))
                           (df_values d)))
  else Raise ValueError.

Definition n_components_of (m : decomp_model) : Z :=
  match m with
  | TSNE n _ _ _ _ _ _ _ _ _ | PCA n _ _ | FastICA n _ _ _ | SparsePCA n _ => n
  end.

Definition n_clusters_of (c : clustering_model) : Z :=
  match c with
  | KMeans _ k _ | AgglomerativeClustering k _ _ => k
  end.

(** A stand-in for a clusterer: spot [i] goes to cluster [i mod k]. *)
Definition round_robin (k : Z) (a : ndarray) : outcome (list Z) :=
  Ret (map (fun i => (Z.of_nat i mod k)%Z) (seq 0 (List.length (nd_rows a)))).

Definition ones (d : DataFrame) : outcome (list fval) :=
  Ret (map (fun _ => fone) (df_columns d)).

Definition world : World := {|
  isfile := fun f => String.eqb f "a.tsv" || String.eqb f "b.tsv"
                     || String.eqb f "c.tsv";
  isdir := fun d => String.eqb d "/data/out";
  getcwd := "/home/user";
  abspath := fun p => if String.prefix "/" p then p else path_join "/home/user" p;
  read_table := fun f =>
    if String.eqb f "a.tsv" then Ret table_a
    else if String.eqb f "b.tsv" then Ret table_b
    else if String.eqb f "c.tsv" then Ret table_c
    else Raise IOError;
  py_float := fun s =>
    match int_of_str s with
    | Some n => Ret (of_nat n)
    | None => Raise ValueError
    end;
  log2 := fun v => v;
  computeSizeFactors := ones;
  computeSizeFactorsLinear := ones;
  computeDESeq2LogTransform := fun d => Ret d;
  computeEdgeRNormalization := ones;
  fit_transform := fun m d => first_columns (Z.to_nat (n_components_of m)) d;
  fit_predict := fun c a => round_robin (n_clusters_of c) a
|}.

(** The same world with a clusterer that always numbers from 0, also for
    a cluster count that is not positive. *)
Definition world_from_zero : World := {|
  isfile := isfile world;
  isdir := isdir world;
  getcwd := getcwd world;
  abspath := abspath world;
  read_table := read_table world;
  py_float := py_float world;
  log2 := log2 world;
  computeSizeFactors := computeSizeFactors world;
  computeSizeFactorsLinear := computeSizeFactorsLinear world;
  computeDESeq2LogTransform := computeDESeq2LogTransform world;
  computeEdgeRNormalization := computeEdgeRNormalization world;
  fit_transform := fit_transform world;
  fit_predict := fun c a => round_robin (Z.max 1 (n_clusters_of c)) a
|}.

(** The same world with the image [a.png] on disk. *)
Definition world_with_image : World := {|
  isfile := fun f => isfile world f || String.eqb f "a.png";
  isdir := isdir world;
  getcwd := getcwd world;
  abspath := abspath world;
  read_table := read_table world;
  py_float := py_float world;
  log2 := log2 world;
  computeSizeFactors := computeSizeFactors world;
  computeSizeFactorsLinear := computeSizeFactorsLinear world;
  computeDESeq2LogTransform := computeDESeq2LogTransform world;
  computeEdgeRNormalization := computeEdgeRNormalization world;
  fit_transform := fit_transform world;
  fit_predict := fit_predict world
|}.

(** Arguments for the sample runs: the options not listed keep the values
    [--num-clusters 2 --clustering KMeans --num-exp-genes 0
    --num-genes-keep 0], no log scale, no sample normalization. *)
Definition make (files : list string) (norm reducer : string) (dims : Z)
    (out : option string) (alignments images : option (list string)) : Args := {|
  counts_table_files := files;
  normalization := norm;
  num_clusters := 2;
  clustering_algorithm := "KMeans";
  dimensionality_algorithm := reducer;
  use_log_scale := false;
  apply_sample_normalization := false;
  num_exp_genes := 0;
  num_genes_keep := 0;
  outdir := out;
  alignment_files := alignments;
  image_files := images;
  num_dimensions := dims
|}.

Definition args_raw : Args := make ["a.tsv"] "RAW" "PCA" 2 None None None.
Definition args_rel : Args := make ["a.tsv"] "REL" "PCA" 2 None None None.
Definition args_unknown : Args := make ["a.tsv"] "XYZ" "PCA" 2 None None None.
Definition args_two : Args := make ["a.tsv"; "b.tsv"] "RAW" "PCA" 2 None None None.
Definition args_inf : Args := make ["c.tsv"] "RAW" "PCA" 2 None None None.
Definition args_3d : Args := make ["a.tsv"] "RAW" "PCA" 3 None None None.
Definition args_spca : Args := make ["a.tsv"] "RAW" "SPCA" 2 None None None.
Definition args_missing_outdir : Args :=
  make ["a.tsv"] "RAW" "PCA" 2 (Some "/no/such/dir") None None.
Definition args_aligned : Args :=
  make ["a.tsv"] "RAW" "PCA" 2 None (Some ["a.txt"]) (Some ["a.png"]).
Definition args_empty_alignments : Args :=
  make ["a.tsv"] "RAW" "PCA" 2 None (Some []) (Some ["a.png"]).
Definition groups_one : Groups :=
  mkGroups [[Fin 1; Fin 2]] [[Fin 1; Fin 1]] [[1%Z; 2%Z]]
           [[(Fin 0, Fin 0, Fin 1); (Fin 1, Fin 1, Fin 1)]].
Definition args_no_reducer : Args := make ["a.tsv"] "RAW" "UMAP" 2 None None None.
Definition args_one_flagged : Args :=
  with_sample_normalization true (make ["a.tsv"] "RAW" "PCA" 2 None None None).
Definition args_one_image : Args :=
  make ["a.tsv"; "b.tsv"] "RAW" "PCA" 2 None None (Some ["a.png"]).
Definition args_existing_outdir : Args :=
  make ["a.tsv"; "b.tsv"] "RAW" "PCA" 2 (Some "/data/out") None None.
Definition args_alignments_only : Args :=
  make ["a.tsv"] "RAW" "PCA" 2 None (Some ["align.txt"]) None.

End Sample.

(* ================================================================== *)
(** ** What a run leaves behind *)

(** The six names the command line accepts for [--normalization]. *)
Definition recognized_normalizations : list string :=
  ["RAW"; "DESeq"; "DESeq2"; "DESeq2Log"; "EdgeR"; "REL"].

(** The file an event touches. *)
Definition event_path (e : event) : option string :=
  match e with
  | Histogram _ p | ToCsv _ p | ScatterPlot3d _ _ _ _ p
  | ScatterPlot _ _ _ p _ _ | FileOpen p | FileWrite p _ _ _ | FileClose p => Some p
  | Stderr _ | FitTransform _ _ | FitPredict _ _ => None
  end.

(** Modelled from the spec: [histogram], [scatter_plot] and
    [scatter_plot3d] of [stanalysis.visualization] write the file named by
    their [output] argument (the files of section 6).  The files a run
    creates, in order. *)
Definition output_files (tr : list event) : list string :=
  flat_map (fun e => match e with
                     | Histogram _ p | ToCsv _ p | ScatterPlot3d _ _ _ _ p
                     | ScatterPlot _ _ _ p _ _ | FileOpen p => [p]
                     | _ => []
                     end) tr.

(** A spot as the pair of its dataset index and its key in that dataset;
    the spots of the tables read, in the order of ingestion. *)
Definition combined_ids (tables : list DataFrame) : list (nat * string) :=
  flat_map (fun it => map (pair (fst it)) (df_index (snd it))) (enumerate tables).

(** The combined identifier ["{i}_{k}"] of a spot. *)
Definition spot_id (p : nat * string) : string :=
  str_of_nat (fst p) ++ "_" ++ snd p.

(** The matrices handed to the dimensionality reducer, in order. *)
Definition reducer_inputs (tr : list event) : list DataFrame :=
  flat_map (fun e => match e with FitTransform _ X => [X] | _ => [] end) tr.

Definition no_nan (d : DataFrame) : Prop :=
  Forall (Forall (fun v => is_nan v = false)) (df_values d).

(** A frame of the right shape without NaN. *)
Definition clean (d : DataFrame) : Prop := well_formed d /\ no_nan d.

(** pandas only ever hands out frames of the right shape. *)
Definition reads_well_formed (W : World) : Prop :=
  forall f t, read_table W f = Ret t -> well_formed t.

(** A call of the reducer passes a matrix without NaN. *)
Definition reducer_gets_no_nan (e : event) : Prop :=
  match e with FitTransform _ X => no_nan X | _ => True end.

Definition no_inf (d : DataFrame) : Prop :=
  Forall (Forall (fun v => is_inf v = false)) (df_values d).

Definition has_nan (d : DataFrame) : bool :=
  existsb (existsb is_nan) (df_values d).

Definition has_nan_or_inf (d : DataFrame) : bool :=
  existsb (existsb (fun v => negb (is_finite v))) (df_values d).



(** [p] is a file directly inside the directory [out]: [out] joined with
    a name that holds no slash. *)
Definition inside (out p : string) : Prop :=
  exists name, mem "/"%char name = false /\ p = path_join out name.

(** Lines 356-394: the values the command line lets through, by the
    [choices] of each option and [nargs='+'] of the three lists.  On any
    other value [parse_args] exits with status 2 and [main] is not called. *)
Definition cli_accepts (a : Args) : bool :=
  negb (Nat.eqb (List.length (counts_table_files a)) 0)
  && mem_str (normalization a) ["RAW"; "DESeq"; "DESeq2"; "DESeq2Log"; "EdgeR"; "REL"]
  && (Z.leb 2 (num_clusters a) && Z.ltb (num_clusters a) 10)
  && (Z.leb 0 (num_exp_genes a) && Z.ltb (num_exp_genes a) 100)
  && (Z.leb 0 (num_genes_keep a) && Z.ltb (num_genes_keep a) 100)
  && mem_str (clustering_algorithm a) ["Hierarchical"; "KMeans"]
  && mem_str (dimensionality_algorithm a) ["tSNE"; "PCA"; "ICA"; "SPCA"]
  && match alignment_files a with
     | Some l => negb (Nat.eqb (List.length l) 0)
     | None => true
     end
  && match image_files a with
     | Some l => negb (Nat.eqb (List.length l) 0)
     | None => true
     end
  && (Z.eqb (num_dimensions a) 2 || Z.eqb (num_dimensions a) 3).

(** The two plots drawn over image [i] when its file exists: the spots of
    dataset [i] by class, then by colour. *)
Definition overlays (W : World) (out : string) (alignments : option (list string))
    (g : Groups) (ii : nat * string) : list event :=
  let (i, image) := ii in
  let alignment_file :=
    match alignments with Some al => nth_error al i | None => None end in
  if isfile W image then
    [ScatterPlot (nth i (x_points_index g) []) (nth i (y_points_index g) [])
       (ByLabel (nth i (labels_index g) []))
       (path_join out ("computed_classes_tissue_" ++ str_of_nat i ++ ".png"))
       alignment_file (Some image);
     ScatterPlot (nth i (x_points_index g) []) (nth i (y_points_index g) [])
       (ByColor (nth i (labels_color_index g) []))
       (path_join out ("dimensionality_color_tissue_" ++ str_of_nat i ++ ".png"))
       alignment_file (Some image)]
  else [].

(** The labels [l] are some of the labels [ids], in the order of [ids]. *)
Definition selection_of (ids l : list string) : Prop :=
  exists mask : list bool, l = select mask ids.

(** The log-stabilizing transform returns a frame over the same spots. *)
Definition transform_keeps_spots (W : World) : Prop :=
  forall d d', computeDESeq2LogTransform W d = Ret d' -> df_columns d' = df_columns d.

(** A call of the reducer passes a matrix whose rows are spots of [ids]. *)
Definition reducer_gets_spots (ids : list string) (e : event) : Prop :=
  match e with FitTransform _ X => selection_of ids (df_index X) | _ => True end.

(** An event of the steps before the estimators: a message, a histogram or
    a table. *)
Definition before_estimators (e : event) : Prop :=
  match e with
  | Stderr _ | Histogram _ _ | ToCsv _ _ => True
  | _ => False
  end.



(** A spot at the end of the pipeline: the index of its dataset, the two
    numerals of its key, its label and its colour. *)
Record Spot : Type := mkSpot {
  spot_dataset : nat;
  spot_x : string;
  spot_y : string;
  spot_label : Z;
  spot_color : rgb
}.

(** Its name in the merged frame: ["{i}_{X}x{Y}"]. *)
Definition spot_name (s : Spot) : string :=
  spot_id (spot_dataset s, (spot_x s ++ "x" ++ spot_y s)%string).

(** [float(s)] where it is a number. *)
Definition coordinate (W : World) (s : string) : fval :=
  match py_float W s with Ret v => v | _ => NaN end.

(** A spot the output loop can place: its dataset is one of the [n] given,
    and both numerals of its key are read by [float]. *)
Definition placeable (W : World) (n : nat) (s : Spot) : Prop :=
  spot_dataset s < n
  /\ is_numeric (spot_x s) = true /\ is_numeric (spot_y s) = true
  /\ (exists v, py_float W (spot_x s) = Ret v)
  /\ (exists v, py_float W (spot_y s) = Ret v).

(** One list per dataset: the values [val] of the spots of that dataset,
    in their order. *)
Definition grouped {A : Type} (n : nat) (val : Spot -> A) (spots : list Spot)
  : list (list A) :=
  map (fun i => map val (filter (fun s => Nat.eqb (spot_dataset s) i) spots))
      (seq 0 n).

Definition groups_of (W : World) (n : nat) (spots : list Spot) : Groups :=
  mkGroups (grouped n (fun s => coordinate W (spot_x s)) spots)
           (grouped n (fun s => coordinate W (spot_y s)) spots)
           (grouped n spot_label spots)
           (grouped n spot_color spots).

(** The line written for a spot. *)
Definition class_line (W : World) (out : string) (s : Spot) : event :=
  FileWrite (classes_file out (spot_dataset s)) (spot_label s)
            (coordinate W (spot_x s)) (coordinate W (spot_y s)).

(** What scikit-learn promises of a clusterer: cluster numbers from 0. *)
Definition clusterer_contract (W : World) : Prop :=
  forall c rd raw, fit_predict W c rd = Ret raw -> Forall (fun l => (0 <= l)%Z) raw.

(** Every label an event shows (in a classes file, in a plot coloured by
    class) is at least 1. *)
Definition labels_from_one (e : event) : Prop :=
  match e with
  | FileWrite _ l _ _ => (1 <= l)%Z
  | ScatterPlot _ _ (ByLabel ls) _ _ _ => Forall (fun l => (1 <= l)%Z) ls
  | ScatterPlot3d _ _ _ ls _ => Forall (fun l => (1 <= l)%Z) ls
  | _ => True
  end.

(** Two computations end the same way: same exit, same exception, or both
    normally. *)
Definition same_ending {A B : Type} (o : outcome A) (o' : outcome B) : Prop :=
  match o, o' with
  | Ret _, Ret _ => True
  | Exit c, Exit c' => c = c'
  | Raise e, Raise e' => e = e'
  | _, _ => False
  end.

(** The three messages of lines 65, 69 and 73. *)
Definition input_error : string :=
  "Error, input file/s not present or invalid format" ++ nl.
Definition images_error : string :=
  "Error, the number of images given as input is not the same as the number of datasets" ++ nl.
Definition alignments_error : string :=
  "Error, the number of alignments given as input is not the same as the number of images" ++ nl.


(** An event of the ingestion: a message, a histogram in [out], or the
    aggregated matrix in [out]. *)
Definition ingest_event (out : string) (e : event) : Prop :=
  match e with
  | Stderr _ => True
  | Histogram _ p => inside out p
  | ToCsv _ p => p = path_join out "aggregated_counts.tsv"
  | _ => False
  end.

(** An event that touches no file outside [out]. *)
Definition located (out : string) (e : event) : Prop :=
  match event_path e with
  | Some p => inside out p
  | None => True
  end.

(** An event of the analysis: it touches no file outside [out], and a
    call of the reducer passes the matrix [X]. *)
Definition analyse_event (out : string) (X : DataFrame) (e : event) : Prop :=
  located out e
  /\ match e with FitTransform _ X' => X' = X | _ => True end.

(** An event that touches no file at all and calls no estimator. *)
Definition silent (e : event) : Prop :=
  match e with Stderr _ => True | _ => False end.

(* ================================================================== *)
(** ** Reasoning about computations *)

(** [m] causes only events in [P], and a normal result of [m] is in [Q]. *)
Definition satisfies {A : Type} (P : event -> Prop) (Q : A -> Prop) (m : M A) : Prop :=
  Forall P (snd m) /\ forall a, fst m = Ret a -> Q a.

(** [m] causes only events in [P]. *)
Definition emits {A : Type} (P : event -> Prop) (m : M A) : Prop :=
  Forall P (snd m).
(* ================================================================== *)
(** ** The primitives on small inputs *)

Example py_in_ex1 : py_in "PCA" "SPCA" = true. Proof. reflexivity. Qed.
Example py_in_ex2 : py_in "DESeq2" "DESeq" = false. Proof. reflexivity. Qed.
Example split_ex1 : split letter_x "0_12x7" = ["0_12"; "7"]. Proof. reflexivity. Qed.
Example split_ex2 : split underscore EmptyString = [EmptyString].
Proof. reflexivity. Qed.
Example str_of_nat_ex : str_of_nat 10 = "10". Proof. reflexivity. Qed.
Example int_of_str_ex : int_of_str "12" = Some 12. Proof. reflexivity. Qed.
Example path_join_ex : path_join "/tmp/out" "a.png" = "/tmp/out/a.png". Proof. reflexivity. Qed.
Example fdiv_zero_zero : fdiv fzero fzero = NaN. Proof. reflexivity. Qed.
Example fdiv_pos_zero : fdiv (Fin 3) fzero = PInf. Proof. reflexivity. Qed.
Example fdiv_ex : fdiv (Fin 3) (Fin 4) = Fin (3 # 4). Proof. reflexivity. Qed.
Example fround_half : fround (Fin (1 # 2)) = Fin 1. Proof. reflexivity. Qed.
Example fround_neg_half : fround (Fin (- (3 # 2))) = Fin (-2). Proof. reflexivity. Qed.
Example fround_small : fround (Fin (3 # 100)) = Fin 0. Proof. reflexivity. Qed.
Example quantile_ex : quantile [Fin 3; Fin 1; Fin 2; Fin 4] (1 # 2) = Fin (5 # 2).
Proof. reflexivity. Qed.
Example quantile_min : quantile [Fin 3; Fin 1; Fin 2] 0 = Fin 1. Proof. reflexivity. Qed.
Example nanvar_ex : nanvar [Fin 1; NaN; Fin 3] = Fin 2. Proof. reflexivity. Qed.

(* ================================================================== *)
(** ** Rules for [satisfies] *)

Lemma satisfies_ret {A : Type} (P : event -> Prop) (Q : A -> Prop) (a : A) :
  Q a -> satisfies P Q (ret a).
Proof.
  intros Ha. split; [constructor|].
  simpl. intros b Hb. injection Hb as <-. exact Ha.
Qed.

Lemma satisfies_exit {A : Type} (P : event -> Prop) (Q : A -> Prop) (c : Z) :
  satisfies P Q (exit c).
Proof. split; [constructor|]. simpl. discriminate. Qed.

Lemma satisfies_raise {A : Type} (P : event -> Prop) (Q : A -> Prop) (e : exn) :
  satisfies P Q (raise e).
Proof. split; [constructor|]. simpl. discriminate. Qed.

Lemma satisfies_emit (P : event -> Prop) (Q : unit -> Prop) (e : event) :
  P e -> Q tt -> satisfies P Q (emit e).
Proof.
  intros He Hq. split; [repeat constructor; exact He|].
  intros []. intros _. exact Hq.
Qed.

Lemma satisfies_lift {A : Type} (P : event -> Prop) (Q : A -> Prop) (o : outcome A) :
  (forall a, o = Ret a -> Q a) -> satisfies P Q (lift o).
Proof. intros H. split; [constructor|]. exact H. Qed.

Lemma satisfies_bind {A B : Type} (P : event -> Prop) (Q : A -> Prop)
    (R : B -> Prop) (m : M A) (k : A -> M B) :
  satisfies P Q m -> (forall a, Q a -> satisfies P R (k a)) ->
  satisfies P R (bind m k).
Proof.
  intros [Hm Hq] Hk. destruct m as [[a | c | e] tr]; simpl in *.
  - destruct (Hk a (Hq a eq_refl)) as [Hk1 Hk2].
    destruct (k a) as [o tr'] eqn:Eka. simpl in *. split.
    + apply Forall_app. split; assumption.
    + exact Hk2.
  - split; [exact Hm | discriminate].
  - split; [exact Hm | discriminate].
Qed.

Lemma satisfies_fail {A : Type} (P : event -> Prop) (Q : A -> Prop) (msg : string) :
  P (Stderr msg) -> satisfies P Q (fail msg).
Proof.
  intros H. unfold fail.
  apply satisfies_bind with (Q := fun _ => True).
  - apply satisfies_emit; [exact H | exact I].
  - intros _ _. apply satisfies_exit.
Qed.

Lemma satisfies_weaken {A : Type} (P : event -> Prop) (Q Q' : A -> Prop) (m : M A) :
  satisfies P Q m -> (forall a, Q a -> Q' a) -> satisfies P Q' m.
Proof. intros [H1 H2] H. split; [exact H1|]. intros a Ha. apply H, H2, Ha. Qed.

Lemma satisfies_for_each {A S : Type} (P : event -> Prop) (I : S -> Prop)
    (body : S -> A -> M S) (l : list A) :
  (forall st x, I st -> In x l -> satisfies P I (body st x)) ->
  forall st, I st -> satisfies P I (for_each l body st).
Proof.
  induction l as [| x rest IH]; intros Hbody st Hst; simpl.
  - apply satisfies_ret. exact Hst.
  - apply satisfies_bind with (Q := I).
    + apply Hbody; [exact Hst | left; reflexivity].
    + intros st' Hst'. apply IH; [| exact Hst'].
      intros st'' y Hi Hy. apply Hbody; [exact Hi | right; exact Hy].
Qed.

Lemma satisfies_item {A : Type} (P : event -> Prop) (l : list A) (i : nat) :
  satisfies P (fun a => nth_error l i = Some a) (item l i).
Proof.
  unfold item. destruct (nth_error l i) as [a |].
  - apply satisfies_ret. reflexivity.
  - apply satisfies_raise.
Qed.

Lemma satisfies_assert (P : event -> Prop) (c : bool) :
  satisfies P (fun _ => c = true) (py_assert c).
Proof.
  unfold py_assert. destruct c.
  - apply satisfies_ret. reflexivity.
  - apply satisfies_raise.
Qed.

(** A computation that fails, fails whatever follows it. *)
Lemma bind_not_ret {A B : Type} (m : M A) (k : A -> M B) :
  (forall a, fst m <> Ret a) -> bind m k = (match fst m with
                                            | Ret _ => Raise TypeError
                                            | Exit c => Exit c
                                            | Raise e => Raise e
                                            end, snd m).
Proof.
  intros H. destruct m as [[a | c | e] tr]; simpl; try reflexivity.
  exfalso. apply (H a). reflexivity.
Qed.

Lemma satisfies_emits {A : Type} (P : event -> Prop) (Q : A -> Prop) (m : M A) :
  satisfies P Q m -> emits P m.
Proof. intros [H _]. exact H. Qed.

Lemma emits_satisfies {A : Type} (P : event -> Prop) (m : M A) :
  emits P m -> satisfies P (fun _ => True) m.
Proof. intros H. split; [exact H | trivial]. Qed.

Lemma emits_impl {A : Type} (P P' : event -> Prop) (m : M A) :
  (forall e, P e -> P' e) -> emits P m -> emits P' m.
Proof. intros H Hm. eapply Forall_impl; [exact H | exact Hm]. Qed.

Lemma satisfies_impl {A : Type} (P P' : event -> Prop) (Q : A -> Prop) (m : M A) :
  (forall e, P e -> P' e) -> satisfies P Q m -> satisfies P' Q m.
Proof.
  intros H [Hm Hq]. split; [| exact Hq].
  eapply Forall_impl; [exact H | exact Hm].
Qed.

Lemma emits_ret {A : Type} (P : event -> Prop) (a : A) : emits P (ret a).
Proof. constructor. Qed.

Lemma emits_exit {A : Type} (P : event -> Prop) (c : Z) : emits P (@exit A c).
Proof. constructor. Qed.

Lemma emits_raise {A : Type} (P : event -> Prop) (e : exn) : emits P (@raise A e).
Proof. constructor. Qed.

Lemma emits_lift {A : Type} (P : event -> Prop) (o : outcome A) : emits P (lift o).
Proof. constructor. Qed.

Lemma emits_emit (P : event -> Prop) (e : event) : P e -> emits P (emit e).
Proof. intros H. repeat constructor. exact H. Qed.

Lemma emits_bind {A B : Type} (P : event -> Prop) (m : M A) (k : A -> M B) :
  emits P m -> (forall a, emits P (k a)) -> emits P (bind m k).
Proof.
  intros Hm Hk. apply (satisfies_emits P (fun _ => True)).
  apply satisfies_bind with (Q := fun _ => True).
  - apply emits_satisfies, Hm.
  - intros a _. apply emits_satisfies, Hk.
Qed.

Lemma emits_fail {A : Type} (P : event -> Prop) (msg : string) :
  P (Stderr msg) -> emits P (@fail A msg).
Proof.
  intros H. apply (satisfies_emits P (fun _ => True)), satisfies_fail, H.
Qed.

Lemma emits_for_each {A S : Type} (P : event -> Prop) (body : S -> A -> M S)
    (l : list A) (st : S) :
  (forall st x, emits P (body st x)) -> emits P (for_each l body st).
Proof.
  intros H. apply (satisfies_emits P (fun _ => True)).
  apply satisfies_for_each; [| exact I].
  intros st' x _ _. apply emits_satisfies, H.
Qed.

Lemma emits_item {A : Type} (P : event -> Prop) (l : list A) (i : nat) :
  emits P (item l i).
Proof. unfold item. destruct (nth_error l i); constructor. Qed.

Lemma emits_assert (P : event -> Prop) (c : bool) : emits P (py_assert c).
Proof. destruct c; constructor. Qed.

Lemma emits_py_int (P : event -> Prop) (s : string) : emits P (py_int s).
Proof. unfold py_int. destruct (int_of_str s); constructor. Qed.

Lemma emits_append_at {A : Type} (P : event -> Prop) (l : list (list A))
    (i : nat) (x : A) : emits P (append_at l i x).
Proof. unfold append_at. destruct (nth_error l i); constructor. Qed.

Lemma emits_series_quantile (P : event -> Prop) (l : list fval) (q : Q) :
  emits P (series_quantile l q).
Proof.
  unfold series_quantile.
  destruct (Qle_bool 0 q && Qle_bool q 1); constructor.
Qed.

Lemma emits_bind_item {A B : Type} (P : event -> Prop) (l : list A) (i : nat)
    (k : A -> M B) :
  (forall a, nth_error l i = Some a -> emits P (k a)) ->
  emits P (bind (item l i) k).
Proof.
  intros H. apply (satisfies_emits P (fun _ => True)).
  apply satisfies_bind with (Q := fun a => nth_error l i = Some a).
  - apply satisfies_item.
  - intros a Ha. apply emits_satisfies, H, Ha.
Qed.

Lemma emits_for_each_in {A S : Type} (P : event -> Prop) (body : S -> A -> M S)
    (l : list A) (st : S) :
  (forall st x, In x l -> emits P (body st x)) -> emits P (for_each l body st).
Proof.
  intros H. apply (satisfies_emits P (fun _ => True)).
  apply satisfies_for_each; [| exact I].
  intros st' x _ Hx. apply emits_satisfies, H, Hx.
Qed.

Lemma emits_comprehension {A B : Type} (P : event -> Prop) (f : A -> M B)
    (l : list A) :
  (forall x, emits P (f x)) -> emits P (comprehension f l).
Proof.
  intros H. unfold comprehension. apply emits_for_each. intros acc x.
  apply emits_bind; [apply H | intros y; apply emits_ret].
Qed.

Lemma emits_array_column (P : event -> Prop) (a : ndarray) (j : nat) :
  emits P (array_column a j).
Proof. unfold array_column. destruct (Nat.ltb j (nd_ncols a)); constructor. Qed.

Lemma emits_max_of (P : event -> Prop) (l : list fval) : emits P (max_of l).
Proof. unfold max_of. destruct (py_max l); constructor. Qed.

Lemma emits_min_of (P : event -> Prop) (l : list fval) : emits P (min_of l).
Proof. unfold min_of. destruct (py_min l); constructor. Qed.

Lemma mem_append (c : ascii) (a b : string) :
  mem c (a ++ b)%string = mem c a || mem c b.
Proof.
  induction a as [| d a IH]; [reflexivity|].
  simpl. rewrite IH. apply orb_assoc.
Qed.

Lemma digits_no_slash (d : Decimal.uint) :
  mem "/"%char (NilEmpty.string_of_uint d) = false.
Proof. induction d; simpl; assumption || reflexivity. Qed.

(** A fixed name with the number of a dataset in it holds no slash. *)
Lemma numbered_name_plain (pre suf : string) (i : nat) :
  mem "/"%char pre = false -> mem "/"%char suf = false ->
  mem "/"%char (pre ++ str_of_nat i ++ suf)%string = false.
Proof.
  intros Hp Hs. rewrite !mem_append, Hp, Hs. unfold str_of_nat.
  rewrite digits_no_slash. reflexivity.
Qed.

(** Close a goal [inside out (path_join out name)]. *)
Ltac inside_solve :=
  unfold inside; eexists; (split; [| reflexivity]);
  first [reflexivity | apply numbered_name_plain; reflexivity].

(** One step of a proof that a computation causes only events in [P]:
    follow the shape of the program. *)
Ltac emits_step :=
  match goal with
  | |- emits _ (bind (item _ _) _) => apply emits_bind_item; intros
  | |- emits _ (array_column _ _) => apply emits_array_column
  | |- emits _ (max_of _) => apply emits_max_of
  | |- emits _ (min_of _) => apply emits_min_of
  | |- emits _ (comprehension _ _) => apply emits_comprehension; intros
  | |- emits _ (bind _ _) => apply emits_bind; [| intros]
  | |- emits _ (ret _) => apply emits_ret
  | |- emits _ (raise _) => apply emits_raise
  | |- emits _ (exit _) => apply emits_exit
  | |- emits _ (lift _) => apply emits_lift
  | |- emits _ (item _ _) => apply emits_item
  | |- emits _ (py_assert _) => apply emits_assert
  | |- emits _ (py_int _) => apply emits_py_int
  | |- emits _ (append_at _ _ _) => apply emits_append_at
  | |- emits _ (series_quantile _ _) => apply emits_series_quantile
  | |- emits _ (fail _) => apply emits_fail
  | |- emits _ (emit _) => apply emits_emit
  | |- emits _ (for_each _ _ _) => apply emits_for_each; intros
  | |- emits _ (if ?c then _ else _) => destruct c
  | |- emits _ (match ?x with _ => _ end) => destruct x
  end.

Ltac emits_auto := repeat emits_step.

(* ================================================================== *)
(** ** Choice of the estimator (lines 207-228) *)

Lemma prefix_py_in (p s : string) : String.prefix p s = true -> py_in p s = true.
Proof. intros H. destruct s; simpl in *; rewrite H; reflexivity. Qed.

Lemma py_in_tail (p : string) (c : ascii) (s : string) :
  py_in p s = true -> py_in p (String c s) = true.
Proof.
  intros H. change (py_in p (String c s))
    with (String.prefix p (String c s) || py_in p s).
  rewrite H. apply orb_true_r.
Qed.

Lemma prefix_cons (a c : ascii) (p s : string) :
  String.prefix (String a p) (String c s) = true ->
  a = c /\ String.prefix p s = true.
Proof.
  cbn [String.prefix]. destruct (ascii_dec a c) as [-> | _].
  - intros H. split; [reflexivity | exact H].
  - discriminate.
Qed.

(** Wherever [SPCA] occurs, [PCA] occurs one character later. *)
Lemma py_in_SPCA_PCA (s : string) : py_in "SPCA" s = true -> py_in "PCA" s = true.
Proof.
  induction s as [| c s IH]; [discriminate|].
  change (py_in "SPCA" (String c s))
    with (String.prefix "SPCA" (String c s) || py_in "SPCA" s).
  intros H. apply orb_true_iff in H. destruct H as [H | H].
  - apply py_in_tail, prefix_py_in.
    apply prefix_cons in H. exact (proj2 H).
  - apply py_in_tail, IH, H.
Qed.

(** C2: with the variant name SPCA the branch taken is the PCA one; the
    estimator built is whitened PCA, not sparse PCA with alpha = 1. *)
Theorem select_decomp_model_SPCA_gives_PCA :
  forall n : Z, select_decomp_model "SPCA" n = ret (PCA n true true).
Proof. intros n. reflexivity. Qed.

(** No name reaches the sparse PCA branch. *)
Lemma select_decomp_model_never_sparse (name : string) (n : Z) (m : decomp_model) :
  fst (select_decomp_model name n) = Ret m ->
  forall k alpha, m <> SparsePCA k alpha.
Proof.
  unfold select_decomp_model. intros H k alpha ->.
  destruct (py_in "tSNE" name); [discriminate|].
  destruct (py_in "PCA" name) eqn:Hp; [discriminate|].
  destruct (py_in "ICA" name); [discriminate|].
  destruct (py_in "SPCA" name) eqn:Hs; [| discriminate].
  apply py_in_SPCA_PCA in Hs. congruence.
Qed.

(* ================================================================== *)
(** ** RAW normalization (lines 181-182) *)

(** C8: with the strategy RAW the per-spot normalization returns the frame
    it was given, and causes no event. *)
Theorem per_spot_normalization_RAW_identity :
  forall (W : World) (counts : DataFrame),
    per_spot_normalization W "RAW" counts = ret counts.
Proof. intros W counts. reflexivity. Qed.

(* ================================================================== *)
(** ** Validation of the argument lists (lines 64-74) *)

Lemma files_present_check (W : World) (files : list string) :
  files <> [] -> forallb (isfile W) files = true ->
  Nat.eqb (List.length files) 0 || existsb (fun f => negb (isfile W f)) files = false.
Proof.
  intros Hne Hall. apply orb_false_iff. split.
  - destruct files; [contradiction | reflexivity].
  - apply not_true_is_false. intros H. apply existsb_exists in H.
    destruct H as [f [Hin Hf]].
    rewrite forallb_forall in Hall. rewrite (Hall f Hin) in Hf. discriminate.
Qed.

(** C9: the checks raise an exception exactly when a non-empty list of
    alignment files comes without a list of image files: the length of the
    missing list is taken, a [TypeError], and nothing is reported on
    stderr.  With image files supplied the checks end normally or with the
    reported exit. *)
Theorem check_inputs_raises_iff_alignments_without_images :
  forall (W : World) (a : Args),
    counts_table_files a <> [] ->
    forallb (isfile W) (counts_table_files a) = true ->
    ((exists e, fst (check_inputs W a) = Raise e) <->
     (image_files a = None /\
      exists alignments, alignment_files a = Some alignments /\ alignments <> []))
    /\ (image_files a = None ->
        (exists alignments, alignment_files a = Some alignments /\ alignments <> []) ->
        check_inputs W a = (Raise TypeError, [])).
Proof.
  intros W a Hne Hall. unfold check_inputs.
  rewrite (files_present_check W _ Hne Hall).
  destruct (image_files a) as [images |] eqn:Hi;
    destruct (alignment_files a) as [alignments |] eqn:Ha.
  - split; [| discriminate]. split.
    + intros [e He]. exfalso.
      destruct (Nat.ltb 0 (List.length images)
                && negb (Nat.eqb (List.length images)
                                 (List.length (counts_table_files a))));
        [discriminate|].
      destruct (Nat.ltb 0 (List.length alignments)); [| discriminate].
      destruct (negb (Nat.eqb (List.length alignments) (List.length images)));
        discriminate.
    + intros [H _]. discriminate.
  - split; [| discriminate]. split.
    + intros [e He]. exfalso.
      destruct (Nat.ltb 0 (List.length images)
                && negb (Nat.eqb (List.length images)
                                 (List.length (counts_table_files a))));
        discriminate.
    + intros [H _]. discriminate.
  - destruct alignments as [| f rest]; simpl.
    + split.
      * split; [intros [e He]; discriminate |].
        intros [_ [al [Hal Hnil]]]. injection Hal as <-. contradiction.
      * intros _ [al [Hal Hnil]]. injection Hal as <-. contradiction.
    + split.
      * split; [| intros _; exists TypeError; reflexivity].
        intros _. split; [reflexivity|]. exists (f :: rest).
        split; [reflexivity | discriminate].
      * intros _ _. reflexivity.
  - split.
    + split; [intros [e He]; discriminate |].
      intros [_ [al [Hal _]]]. discriminate.
    + intros _ [al [Hal _]]. discriminate.
Qed.

Lemma check_inputs_raises_iff_alignments_without_images_witness :
  check_inputs Sample.world Sample.args_alignments_only = (Raise TypeError, []).
Proof.
  refine (proj2 (check_inputs_raises_iff_alignments_without_images
                   Sample.world Sample.args_alignments_only _ _) _ _).
  - discriminate.
  - reflexivity.
  - reflexivity.
  - exists ["align.txt"]. split; [reflexivity | discriminate].
Defined.

(* ================================================================== *)
(** ** Cluster labels (lines 249-252) *)

Lemma existsb_zero_In (labels : list Z) :
  existsb (Z.eqb 0) labels = true <-> In 0%Z labels.
Proof.
  rewrite existsb_exists. split.
  - intros [l [Hin Hl]]. apply Z.eqb_eq in Hl. subst l. exact Hin.
  - intros Hin. exists 0%Z. split; [exact Hin | reflexivity].
Qed.

Lemma shift_labels_cases (labels : list Z) :
  (In 0%Z labels /\ shift_labels labels = map (fun l => (l + 1)%Z) labels)
  \/ (~ In 0%Z labels /\ shift_labels labels = labels).
Proof.
  unfold shift_labels. destruct (existsb (Z.eqb 0) labels) eqn:H.
  - left. split; [apply existsb_zero_In, H | reflexivity].
  - right. split; [| reflexivity].
    intros Hin. apply existsb_zero_In in Hin. congruence.
Qed.

Lemma shift_labels_positive (labels : list Z) :
  Forall (fun l => (0 <= l)%Z) labels ->
  Forall (fun l => (1 <= l)%Z) (shift_labels labels).
Proof.
  intros Hnn. destruct (shift_labels_cases labels) as [[_ ->] | [Hno ->]].
  - apply Forall_map. eapply Forall_impl; [| exact Hnn]. simpl. intros; lia.
  - rewrite Forall_forall in *. intros l Hl.
    assert (l <> 0%Z) by (intros ->; contradiction).
    specialize (Hnn l Hl). simpl in Hnn. lia.
Qed.

Lemma shift_labels_grouping (labels : list Z) (i j : nat) (a b a' b' : Z) :
  nth_error labels i = Some a -> nth_error labels j = Some b ->
  nth_error (shift_labels labels) i = Some a' ->
  nth_error (shift_labels labels) j = Some b' ->
  (a' = b' <-> a = b).
Proof.
  intros Ha Hb. destruct (shift_labels_cases labels) as [[_ ->] | [_ ->]].
  - rewrite !nth_error_map, Ha, Hb. simpl.
    intros Ha' Hb'. injection Ha' as <-. injection Hb' as <-. lia.
  - rewrite Ha, Hb. intros Ha' Hb'. injection Ha' as <-. injection Hb' as <-.
    reflexivity.
Qed.

(** C6: when the clusterer answers with labels that are all non-negative
    (scikit-learn numbers its clusters from 0), the labels the pipeline goes
    on with are all at least 1: they are the raw labels plus one when 0
    occurs among them, and the raw labels otherwise; two spots have the same
    label afterwards exactly when they had the same raw label. *)
Theorem cluster_labels_one_based :
  forall (W : World) (clustering : clustering_model) (reduced_data : ndarray)
         (raw : list Z),
    fit_predict W clustering reduced_data = Ret raw ->
    Forall (fun l => (0 <= l)%Z) raw ->
    exists labels,
      cluster W clustering reduced_data
        = (Ret labels, [FitPredict clustering reduced_data])
      /\ Forall (fun l => (1 <= l)%Z) labels
      /\ (In 0%Z raw -> labels = map (fun l => (l + 1)%Z) raw)
      /\ (~ In 0%Z raw -> labels = raw)
      /\ (forall i j a b a' b',
            nth_error raw i = Some a -> nth_error raw j = Some b ->
            nth_error labels i = Some a' -> nth_error labels j = Some b' ->
            (a' = b' <-> a = b)).
Proof.
  intros W clustering reduced_data raw Hraw Hnn.
  exists (shift_labels raw). split; [| split; [| split; [| split]]].
  - unfold cluster. rewrite Hraw. reflexivity.
  - apply shift_labels_positive, Hnn.
  - intros Hin. destruct (shift_labels_cases raw) as [[_ H] | [Hno _]];
      [exact H | contradiction].
  - intros Hno. destruct (shift_labels_cases raw) as [[Hin _] | [_ H]];
      [contradiction | exact H].
  - intros i j a b a' b'. apply shift_labels_grouping.
Qed.

Lemma cluster_labels_one_based_witness :
  exists labels,
    cluster Sample.world (KMeans "k-means++" 2 10)
            (mkArray 2 [[Fin 2; Fin 3]; [Fin 0; Fin 0]; [Fin 4; Fin 1]])
      = (Ret labels,
         [FitPredict (KMeans "k-means++" 2 10)
            (mkArray 2 [[Fin 2; Fin 3]; [Fin 0; Fin 0]; [Fin 4; Fin 1]])])
    /\ Forall (fun l => (1 <= l)%Z) labels.
Proof.
  destruct (cluster_labels_one_based Sample.world (KMeans "k-means++" 2 10)
              (mkArray 2 [[Fin 2; Fin 3]; [Fin 0; Fin 0]; [Fin 4; Fin 1]])
              [0; 1; 0]%Z eq_refl) as [labels [H1 [H2 _]]].
  - repeat constructor; lia.
  - exists labels. split; assumption.
Defined.

(* ================================================================== *)
(** ** Colours from the reduced coordinates (lines 254-271) *)

(** C3: asked for three dimensions, the colour step reads column 3 of the
    reduced coordinates; on an array of three columns (indices 0, 1, 2) with
    at least one spot that is an [IndexError], and no colour is produced. *)
Theorem labels_colors_3d_index_error :
  forall (row : list fval) (rows : list (list fval)),
    labels_colors 3 (mkArray 3 (row :: rows)) = (Raise IndexError, []).
Proof. intros row rows. reflexivity. Qed.

(** With another number of dimensions the blue channel is the constant 1. *)
Lemma labels_colors_2d_blue (dims : Z) (reduced_data : ndarray) (colors : list rgb) :
  dims <> 3%Z ->
  fst (labels_colors dims reduced_data) = Ret colors ->
  Forall (fun c : rgb => snd c = fone) colors.
Proof.
  intros Hd. unfold labels_colors.
  apply Z.eqb_neq in Hd. rewrite Hd.
  destruct (array_column reduced_data 0) as [[c0 | |] t0] eqn:E0; try discriminate.
  unfold array_column in E0.
  destruct (Nat.ltb 0 (nd_ncols reduced_data)); [| discriminate].
  injection E0 as <- <-.
  unfold array_column.
  destruct (Nat.ltb 1 (nd_ncols reduced_data)).
  2:{ simpl. destruct (max_of _) as [[? | |] ?]; simpl; try discriminate.
      destruct (min_of _) as [[? | |] ?]; simpl; discriminate. }
  simpl.
  destruct (max_of (column 0 _)) as [[x_max | |] ?]; simpl; try discriminate.
  destruct (min_of (column 0 _)) as [[x_min | |] ?]; simpl; try discriminate.
  destruct (max_of (column 1 _)) as [[y_max | |] ?]; simpl; try discriminate.
  destruct (min_of (column 1 _)) as [[y_min | |] ?]; simpl; try discriminate.
  intros H. injection H as <-.
  apply Forall_map.
  apply Forall_forall. intros [[x y] z] _. reflexivity.
Qed.

(** A constant axis gives NaN, not a value in 0..1: 0.0 / 0.0. *)
Example labels_colors_constant_axis :
  labels_colors 2 (mkArray 2 [[Fin 1; Fin 5]; [Fin 1; Fin 7]])
  = (Ret [(NaN, Fin 0, Fin 1); (NaN, Fin 1, Fin 1)], []).
Proof. reflexivity. Qed.

Example labels_colors_2d :
  labels_colors 2 (mkArray 2 [[Fin 2; Fin 3]; [Fin 0; Fin 0]; [Fin 4; Fin 1]])
  = (Ret [(Fin (1 # 2), Fin 1, Fin 1); (Fin 0, Fin 0, Fin 1);
          (Fin 1, Fin (1 # 3), Fin 1)], []).
Proof. reflexivity. Qed.

(* ================================================================== *)
(** ** Order of float64 values *)

Lemma fle_Fin (x y : Q) : fle (Fin x) (Fin y) = true <-> (x <= y)%Q.
Proof.
  unfold fle, flt, feq. rewrite orb_true_iff, negb_true_iff, Qeq_bool_iff.
  split.
  - intros [H | H].
    + apply Qlt_le_weak, Qnot_le_lt. intros Hle.
      apply Qle_bool_iff in Hle. congruence.
    + rewrite H. apply Qle_refl.
  - intros Hle. destruct (Qlt_le_dec x y) as [Hlt | Hge].
    + left. apply not_true_is_false. intros H. apply Qle_bool_iff in H.
      exact (Qlt_not_le _ _ Hlt H).
    + right. apply Qle_antisym; assumption.
Qed.

Lemma of_nat_le (m n : nat) : fle (of_nat m) (of_nat n) = true <-> m <= n.
Proof.
  unfold of_nat, of_Z. rewrite fle_Fin, <- Zle_Qle. lia.
Qed.

Lemma Qround_half_away_inject_nat (n : nat) :
  Qround_half_away (inject_Z (Z.of_nat n)) = Z.of_nat n.
Proof.
  unfold Qround_half_away.
  assert (H : Qle_bool 0 (inject_Z (Z.of_nat n)) = true).
  { apply Qle_bool_iff. change 0%Q with (inject_Z 0). rewrite <- Zle_Qle. lia. }
  rewrite H. unfold Qfloor, Qplus, inject_Z. simpl Qnum. simpl Qden.
  symmetry. apply (Z.div_unique _ _ _ 1%Z); lia.
Qed.

Lemma fround_of_nat (n : nat) : fround (of_nat n) = of_nat n.
Proof.
  unfold of_nat at 1. unfold of_Z at 1. simpl.
  rewrite Qround_half_away_inject_nat. reflexivity.
Qed.

(* ================================================================== *)
(** ** Order statistics *)

Lemma filter_nan_of_nat (ns : list nat) :
  filter (fun v => negb (is_nan v)) (map of_nat ns) = map of_nat ns.
Proof.
  induction ns as [| n ns IH]; [reflexivity|]. simpl. rewrite IH. reflexivity.
Qed.

(** The first entry of the sorted naturals is one of them and is below
    all of them. *)
Lemma sort_of_nat_head (ns : list nat) :
  ns <> [] ->
  exists m rest, sort (map of_nat ns) = of_nat m :: rest
                 /\ In m ns /\ forall n, In n ns -> m <= n.
Proof.
  induction ns as [| x ns IH]; [contradiction|]. intros _.
  destruct ns as [| y ns'].
  - exists x, []. split; [reflexivity|]. split; [left; reflexivity|].
    intros n [<- | []]. apply Nat.le_refl.
  - destruct IH as [m [rest [Hs [Hin Hmin]]]]; [discriminate|].
    change (sort (map of_nat (x :: y :: ns')))
      with (insert_sorted (of_nat x) (sort (map of_nat (y :: ns')))).
    rewrite Hs. cbn [insert_sorted].
    destruct (fle (of_nat x) (of_nat m)) eqn:Hle.
    + apply of_nat_le in Hle. exists x, (of_nat m :: rest).
      split; [reflexivity|]. split; [left; reflexivity|].
      intros n [<- | Hn]; [apply Nat.le_refl|].
      specialize (Hmin n Hn). lia.
    + exists m, (insert_sorted (of_nat x) rest).
      split; [reflexivity|]. split; [right; exact Hin|].
      intros n [Hx | Hn]; [subst n | apply Hmin, Hn].
      destruct (Nat.le_gt_cases m x) as [H | H]; [exact H|].
      assert (Hxm : x <= m) by lia. apply of_nat_le in Hxm. congruence.
Qed.

Lemma Qfloor_zero_mul (x : Q) : Qfloor (0 * x) = 0%Z.
Proof. destruct x as [a b]. reflexivity. Qed.

(** The quantile at 0 is the first entry of the sorted values. *)
Lemma quantile_zero (l : list fval) :
  quantile l 0 = nth 0 (sort (filter (fun v => negb (is_nan v)) l)) NaN.
Proof.
  unfold quantile.
  destruct (sort (filter (fun v => negb (is_nan v)) l)) as [| v vs] eqn:Hs;
    [reflexivity|].
  rewrite Qfloor_zero_mul.
  assert (H : Qeq_bool
                (Qred (0 * inject_Z (Z.of_nat (List.length (v :: vs) - 1))
                       - inject_Z 0)) 0 = true).
  { apply Qeq_bool_iff. rewrite Qred_correct. ring. }
  rewrite H. reflexivity.
Qed.

Lemma percent_in_range (pct : Z) :
  (0 <= pct <= 100)%Z ->
  Qle_bool 0 (percent pct) && Qle_bool (percent pct) 1 = true.
Proof.
  intros [H0 H1]. unfold percent. apply andb_true_iff.
  split; apply Qle_bool_iff; rewrite Qred_correct;
    unfold Qle, Qdiv, Qmult, Qinv, inject_Z; simpl; lia.
Qed.

(* ================================================================== *)
(** ** Boolean masks *)

Lemma select_length {A : Type} (mask : list bool) (l : list A) :
  List.length (select mask l) <= List.length l.
Proof.
  revert l. induction mask as [| b mask IH]; intros [| x l]; simpl; try lia.
  destruct b; simpl; specialize (IH l); lia.
Qed.

Lemma select_all {A : Type} (mask : list bool) (l : list A) :
  Forall (fun b => b = true) mask -> List.length mask = List.length l ->
  select mask l = l.
Proof.
  revert l. induction mask as [| b mask IH]; intros [| x l] Hall Hlen;
    simpl in *; try reflexivity; try discriminate.
  inversion Hall as [| ? ? Hb Hrest]; subst.
  rewrite IH; [reflexivity | exact Hrest | lia].
Qed.

Lemma select_In {A : Type} (mask : list bool) (l : list A) (x : A) :
  In x (select mask l) -> In x l.
Proof.
  revert l. induction mask as [| b mask IH]; intros [| y l]; simpl; try tauto.
  destruct b; simpl; intros H.
  - destruct H as [H | H]; [left; exact H | right; apply IH, H].
  - right. apply IH, H.
Qed.

(* ================================================================== *)
(** ** The spot filter (lines 145-152) *)

(** C7: for a percentage between 0 and 100 the spot filter ends normally
    and keeps at most the spots it was given; at 0 per cent the threshold
    is the least number of expressed genes any spot has, and the frame is
    returned as it was. *)
Theorem spot_filter_monotone :
  forall (counts : DataFrame) (pct : Z),
    (0 <= pct <= 100)%Z ->
    exists kept,
      spot_filter (percent pct) counts = ret kept
      /\ List.length (df_index kept) <= List.length (df_index counts)
      /\ (pct = 0%Z -> well_formed counts -> kept = counts).
Proof.
  intros counts pct Hpct. unfold spot_filter, series_quantile.
  rewrite (percent_in_range pct Hpct).
  eexists. split; [reflexivity|]. split.
  - apply select_length.
  - intros -> [Hlen _]. change (percent 0) with 0%Q.
    rewrite quantile_zero, filter_nan_of_nat.
    set (expressed := count_nonzero_axis1 counts).
    assert (Hmask : Forall (fun b => b = true)
              (map (fun n => fge (of_nat n)
                        (fround (nth 0 (sort (map of_nat expressed)) NaN)))
                   expressed)).
    { destruct expressed as [| e es] eqn:He; [constructor|].
      destruct (sort_of_nat_head (e :: es)) as [m [rest [Hs [_ Hmin]]]];
        [discriminate|].
      rewrite Hs. cbn [nth]. rewrite fround_of_nat.
      apply Forall_map, Forall_forall. intros n Hn.
      unfold fge. apply of_nat_le, Hmin, Hn. }
    assert (Hl : List.length
              (map (fun n => fge (of_nat n)
                        (fround (nth 0 (sort (map of_nat expressed)) NaN)))
                   expressed) = List.length (df_values counts)).
    { rewrite length_map. unfold expressed, count_nonzero_axis1.
      apply length_map. }
    unfold filter_rows. rewrite !select_all; try assumption.
    + destruct counts; reflexivity.
    + rewrite Hl. exact Hlen.
Qed.

Lemma spot_filter_monotone_witness :
  exists kept,
    spot_filter (percent 0) Sample.table_a = ret kept
    /\ List.length (df_index kept) <= List.length (df_index Sample.table_a)
    /\ kept = Sample.table_a.
Proof.
  destruct (spot_filter_monotone Sample.table_a 0) as [kept [H1 [H2 H3]]].
  - lia.
  - exists kept. split; [exact H1|]. split; [exact H2|].
    apply H3; [reflexivity|].
    split; [reflexivity | repeat constructor].
Defined.

(** At 100 per cent only the spots with the most expressed genes stay. *)
Example spot_filter_100 :
  spot_filter (percent 100) Sample.table_a
  = ret (mkDF ["1x1"; "2x1"] ["g1"; "g2"] [[Fin 2; Fin 3]; [Fin 4; Fin 1]]).
Proof. reflexivity. Qed.

(* ================================================================== *)
(** ** The events of each stage *)

Lemma check_inputs_silent (W : World) (a : Args) : emits silent (check_inputs W a).
Proof. unfold check_inputs. emits_auto; exact I. Qed.

Lemma ingest_one_events (W : World) (out : string) (sn : bool)
    (st : DataFrame * list (nat * Series)) (ic : nat * string) :
  emits (ingest_event out) (ingest_one W out sn st ic).
Proof.
  unfold ingest_one. emits_auto; unfold ingest_event; inside_solve.
Qed.

Lemma fillna_zero_no_nan (d : DataFrame) : no_nan (fillna_zero d).
Proof.
  unfold no_nan, fillna_zero, map_values. simpl.
  apply Forall_map, Forall_forall. intros row _.
  apply Forall_map, Forall_forall. intros v _.
  destruct (is_nan v) eqn:H; [reflexivity | exact H].
Qed.

Lemma ingest_events (W : World) (out : string) (a : Args) :
  satisfies (ingest_event out) (fun st => no_nan (fst st)) (ingest W out a).
Proof.
  unfold ingest.
  apply satisfies_bind with (Q := fun _ => True).
  - apply emits_satisfies, emits_for_each. intros st x. apply ingest_one_events.
  - intros [counts sample_counts] _.
    apply satisfies_bind with (Q := fun _ => True).
    + apply emits_satisfies. emits_auto. reflexivity.
    + intros _ _. apply satisfies_ret. apply fillna_zero_no_nan.
Qed.

Lemma normalize_spot_silent (factors : list fval) (counts : DataFrame) (spot : string) :
  emits silent (normalize_spot factors counts spot).
Proof. unfold normalize_spot. emits_auto. Qed.

Lemma sample_normalization_events (W : World) (a : Args) (counts : DataFrame)
    (sample_counts : list (nat * Series)) :
  no_nan counts ->
  satisfies silent no_nan (sample_normalization W a counts sample_counts).
Proof.
  intros Hc. unfold sample_normalization.
  destruct (apply_sample_normalization a
            && Nat.ltb 1 (List.length (counts_table_files a))).
  - apply satisfies_bind with (Q := fun _ => True).
    + apply emits_satisfies. emits_auto.
    + intros factors _. apply satisfies_bind with (Q := fun _ => True).
      * apply emits_satisfies, emits_for_each. intros st x.
        apply normalize_spot_silent.
      * intros counts' _. apply satisfies_ret, fillna_zero_no_nan.
  - apply satisfies_ret, Hc.
Qed.

Lemma silent_ingest_event (out : string) (e : event) : silent e -> ingest_event out e.
Proof. destruct e; simpl; tauto. Qed.

Lemma merge_datasets_events (W : World) (out : string) (a : Args) :
  satisfies (ingest_event out) no_nan (merge_datasets W out a).
Proof.
  unfold merge_datasets.
  apply satisfies_bind with (Q := fun st => no_nan (fst st)).
  - apply ingest_events.
  - intros [counts sample_counts] Hc. simpl in Hc.
    apply satisfies_impl with (P := silent); [apply silent_ingest_event|].
    apply sample_normalization_events, Hc.
Qed.

Lemma quality_filter_silent (a : Args) (counts : DataFrame) :
  emits silent (quality_filter a counts).
Proof. unfold quality_filter, spot_filter. emits_auto. Qed.

Lemma prepare_events (W : World) (a : Args) :
  emits (ingest_event (resolve_outdir W (outdir a))) (prepare W a).
Proof.
  unfold prepare. apply emits_bind.
  - apply emits_impl with (P := silent); [apply silent_ingest_event|].
    apply check_inputs_silent.
  - intros _. apply emits_bind.
    + eapply satisfies_emits, merge_datasets_events.
    + intros counts. apply emits_impl with (P := silent);
        [apply silent_ingest_event|]. apply quality_filter_silent.
Qed.

Lemma divide_silent (counts : DataFrame) (sf : list fval) :
  emits silent (divide counts sf).
Proof. unfold divide. emits_auto. Qed.

Lemma per_spot_normalization_silent (W : World) (name : string) (counts : DataFrame) :
  emits silent (per_spot_normalization W name counts).
Proof.
  unfold per_spot_normalization.
  emits_auto; try apply divide_silent; exact I.
Qed.

Lemma normalize_silent (W : World) (a : Args) (counts : DataFrame) :
  emits silent (normalize W a counts).
Proof.
  unfold normalize, variance_filter. apply emits_bind.
  - apply per_spot_normalization_silent.
  - intros nc. emits_auto.
Qed.

(* ================================================================== *)
(** ** Choice of the per-spot normalization (lines 164-185) *)

Lemma per_spot_normalization_unknown (W : World) (name : string) (counts : DataFrame) :
  (forall s, In s recognized_normalizations -> py_in name s = false) ->
  per_spot_normalization W name counts = (Exit 1%Z, [Stderr normalization_error]).
Proof.
  intros H. unfold per_spot_normalization.
  rewrite !H; [reflexivity | | | | | |]; simpl; tauto.
Qed.

(** C4, as the code has it: each of the six recognized names selects the
    strategy of that name.  A name that occurs inside none of the six makes
    the normalization step write its message to stderr and exit with
    status 1; the run has by then written the files of the ingestion (the
    histograms, and the aggregated matrix) and writes nothing after. *)
Theorem per_spot_normalization_by_name :
  forall (W : World),
    (forall counts : DataFrame,
       per_spot_normalization W "RAW" counts = ret counts
       /\ per_spot_normalization W "DESeq" counts
          = (size_factors <- lift (computeSizeFactors W counts) ;;
             divide counts size_factors)
       /\ per_spot_normalization W "DESeq2" counts
          = (size_factors <- lift (computeSizeFactorsLinear W counts) ;;
             divide counts size_factors)
       /\ per_spot_normalization W "DESeq2Log" counts
          = lift (computeDESeq2LogTransform W counts)
       /\ per_spot_normalization W "EdgeR" counts
          = (size_factors <- lift (computeEdgeRNormalization W counts) ;;
             scaled <- divide counts size_factors ;;
             ret (map_values (fun v => fmul v (mean size_factors)) scaled))
       /\ per_spot_normalization W "REL" counts
          = ret (div_columns counts (sum_axis0 counts)))
    /\ (forall a : Args,
          (forall s, In s recognized_normalizations ->
                     py_in (normalization a) s = false) ->
          (forall counts tr,
             prepare W a = (Ret counts, tr) ->
             main W a = (Exit 1%Z, tr ++ [Stderr normalization_error]))
          /\ (forall u, fst (main W a) <> Ret u)
          /\ Forall (ingest_event (resolve_outdir W (outdir a))) (snd (main W a))).
Proof.
  intros W. split.
  - intros counts. repeat split; reflexivity.
  - intros a Hname.
    assert (Hmain' : forall counts,
               bind (normalize W a counts) (analyse W (resolve_outdir W (outdir a)) a)
               = (Exit 1%Z, [Stderr normalization_error])).
    { intros counts. unfold normalize.
      rewrite (per_spot_normalization_unknown W _ counts Hname). reflexivity. }
    assert (Hrun : main W a
                   = match prepare W a with
                     | (Ret _, tr) => (Exit 1%Z, tr ++ [Stderr normalization_error])
                     | (Exit c, tr) => (Exit c, tr)
                     | (Raise e, tr) => (Raise e, tr)
                     end).
    { unfold main. destruct (prepare W a) as [[counts | c | e] tr]; simpl;
        try reflexivity.
      rewrite Hmain'. reflexivity. }
    clear Hmain'. pose proof (prepare_events W a) as Hev.
    unfold emits in Hev. rewrite Hrun.
    destruct (prepare W a) as [[counts | c | e] tr]; simpl in *.
    + split; [| split].
      * intros counts' tr' H. injection H as <- <-. reflexivity.
      * discriminate.
      * apply Forall_app. split; [exact Hev | repeat constructor].
    + split; [| split]; [discriminate | discriminate | exact Hev].
    + split; [| split]; [discriminate | discriminate | exact Hev].
Qed.

Lemma per_spot_normalization_by_name_witness :
  main Sample.world Sample.args_unknown
  = (Exit 1%Z,
     [Histogram [Fin 5; Fin 0; Fin 5] "/home/user/hist_reads_0.png";
      Histogram [Fin 2; Fin 0; Fin 2] "/home/user/hist_genes_0.png"]
     ++ [Stderr normalization_error]).
Proof.
  refine (proj1 (proj2 (per_spot_normalization_by_name Sample.world)
                   Sample.args_unknown _) _ _ _).
  - intros s Hs. simpl in Hs.
    destruct Hs as [<- | [<- | [<- | [<- | [<- | [<- | []]]]]]]; reflexivity.
  - reflexivity.
Defined.

(** The claim of C4 fails at the name XYZ: the run exits with status 1, and
    the two histograms of the dataset are on disk. *)
Lemma unknown_normalization_histograms_written :
  existsb (String.eqb (normalization Sample.args_unknown)) recognized_normalizations
    = false
  /\ fst (main Sample.world Sample.args_unknown) = Exit 1%Z
  /\ output_files (snd (main Sample.world Sample.args_unknown))
     = ["/home/user/hist_reads_0.png"; "/home/user/hist_genes_0.png"].
Proof. repeat split; reflexivity. Qed.

(** A name that occurs inside a recognized one is taken for it. *)
Example per_spot_normalization_substring :
  forall (W : World) (counts : DataFrame),
    per_spot_normalization W "D" counts = per_spot_normalization W "DESeq" counts
    /\ per_spot_normalization W EmptyString counts
       = per_spot_normalization W "DESeq" counts
    /\ per_spot_normalization W "Log" counts
       = per_spot_normalization W "DESeq2Log" counts.
Proof. intros W counts. repeat split; reflexivity. Qed.

(* ================================================================== *)
(** ** Strings: characters, prefixes and splitting *)

Lemma all_chars_mem (p : ascii -> bool) (c : ascii) (s : string) :
  all_chars p s = true -> p c = false -> mem c s = false.
Proof.
  intros Hs Hc. induction s as [| d s IH]; [reflexivity|].
  simpl in *. apply andb_true_iff in Hs. destruct Hs as [Hd Hs].
  rewrite (IH Hs), orb_false_r.
  destruct (Ascii.eqb d c) eqn:E; [| reflexivity].
  apply Ascii.eqb_eq in E. subst d. congruence.
Qed.

Lemma string_of_uint_digits (d : Decimal.uint) :
  all_chars is_digit (NilEmpty.string_of_uint d) = true.
Proof. induction d; simpl; assumption || reflexivity. Qed.

Lemma str_of_nat_no_underscore (n : nat) : mem underscore (str_of_nat n) = false.
Proof.
  apply all_chars_mem with (p := is_digit); [| reflexivity].
  apply string_of_uint_digits.
Qed.

Lemma str_of_nat_inj (m n : nat) : str_of_nat m = str_of_nat n -> m = n.
Proof.
  unfold str_of_nat. intros H.
  apply DecimalNat.Unsigned.to_uint_inj.
  assert (Hs : Some (Nat.to_uint m) = Some (Nat.to_uint n)).
  { rewrite <- !NilEmpty.usu. rewrite H. reflexivity. }
  injection Hs as Hs. exact Hs.
Qed.

Lemma int_of_str_of_nat (n : nat) : int_of_str (str_of_nat n) = Some n.
Proof.
  unfold int_of_str, str_of_nat.
  rewrite NilEmpty.usu. simpl. rewrite DecimalNat.Unsigned.of_to.
  destruct (NilEmpty.string_of_uint (Nat.to_uint n)) eqn:E; [| reflexivity].
  exfalso. assert (H := NilEmpty.usu (Nat.to_uint n)). rewrite E in H.
  simpl in H. injection H as H.
  assert (H' := DecimalNat.Unsigned.of_to n). rewrite <- H in H'. simpl in H'.
  destruct n; [| discriminate].
  discriminate E.
Qed.

Lemma mem_cons_false (c d : ascii) (s : string) :
  mem c (String d s) = false -> d <> c /\ mem c s = false.
Proof.
  simpl. intros H. apply orb_false_iff in H. destruct H as [H1 H2].
  split; [| exact H2]. intros ->. rewrite Ascii.eqb_refl in H1. discriminate.
Qed.

(** Two strings free of [c], each followed by [c], determine each other. *)
Lemma append_sep_inj (c : ascii) (a b k k' : string) :
  mem c a = false -> mem c b = false ->
  (a ++ String c k)%string = (b ++ String c k')%string -> a = b /\ k = k'.
Proof.
  revert b. induction a as [| x a IH]; intros [| y b] Ha Hb H; simpl in *.
  - injection H as <-. split; reflexivity.
  - injection H as <- _. apply mem_cons_false in Hb. destruct Hb as [Hb _].
    contradiction Hb. reflexivity.
  - injection H as -> _. apply mem_cons_false in Ha. destruct Ha as [Ha _].
    contradiction Ha. reflexivity.
  - injection H as -> H. apply mem_cons_false in Ha. apply mem_cons_false in Hb.
    destruct (IH b (proj2 Ha) (proj2 Hb) H) as [-> ->]. split; reflexivity.
Qed.

Lemma prefix_nil (s : string) : String.prefix EmptyString s = true.
Proof. destruct s; reflexivity. Qed.

Lemma prefix_same (c : ascii) (p s : string) :
  String.prefix (String c p) (String c s) = String.prefix p s.
Proof.
  cbn [String.prefix]. destruct (ascii_dec c c) as [_ | H];
    [reflexivity | contradiction H; reflexivity].
Qed.

Lemma prefix_append (p s : string) : String.prefix p (p ++ s)%string = true.
Proof.
  induction p as [| c p IH]; cbn [String.append].
  - apply prefix_nil.
  - rewrite prefix_same. exact IH.
Qed.

(** [a + c] is a prefix of [b + c + k] only when [a] is [b]. *)
Lemma prefix_sep (c : ascii) (a b k : string) :
  mem c a = false -> mem c b = false ->
  String.prefix (a ++ String c EmptyString)%string (b ++ String c k)%string = true ->
  a = b.
Proof.
  revert b. induction a as [| x a IH]; intros [| y b] Ha Hb H;
    cbn [String.append] in *.
  - reflexivity.
  - apply prefix_cons in H. destruct H as [<- _].
    apply mem_cons_false in Hb. destruct Hb as [Hb _]. contradiction Hb. reflexivity.
  - apply prefix_cons in H. destruct H as [-> H].
    apply mem_cons_false in Ha. destruct Ha as [Ha _]. contradiction Ha. reflexivity.
  - apply prefix_cons in H. destruct H as [-> H].
    apply mem_cons_false in Ha. apply mem_cons_false in Hb.
    rewrite (IH b (proj2 Ha) (proj2 Hb) H). reflexivity.
Qed.

Lemma split_no_sep (c : ascii) (s : string) :
  mem c s = false -> split c s = [s].
Proof.
  induction s as [| d s IH]; [reflexivity|].
  intros H. apply mem_cons_false in H. destruct H as [Hd Hs].
  simpl. destruct (Ascii.eqb d c) eqn:E.
  - apply Ascii.eqb_eq in E. contradiction.
  - rewrite (IH Hs). reflexivity.
Qed.

Lemma split_nonempty (c : ascii) (s : string) : split c s <> [].
Proof.
  induction s as [| d s IH]; simpl; [discriminate|].
  destruct (Ascii.eqb d c); [discriminate|].
  destruct (split c s); [contradiction IH; reflexivity | discriminate].
Qed.

Lemma split_append_sep (c : ascii) (a k : string) :
  mem c a = false -> split c (a ++ String c k)%string = a :: split c k.
Proof.
  induction a as [| d a IH]; intros H.
  - simpl. rewrite Ascii.eqb_refl. reflexivity.
  - apply mem_cons_false in H. destruct H as [Hd Ha].
    simpl. destruct (Ascii.eqb d c) eqn:E.
    + apply Ascii.eqb_eq in E. contradiction.
    + rewrite (IH Ha). reflexivity.
Qed.

(** A character of [s] other than the separator is in one of the parts. *)
Lemma mem_split (c sep : ascii) (s : string) :
  mem c s = true -> c <> sep ->
  exists t, In t (split sep s) /\ mem c t = true.
Proof.
  intros Hm Hc. induction s as [| d s IH]; [discriminate|].
  simpl in Hm. simpl split. apply orb_true_iff in Hm.
  destruct (Ascii.eqb d sep) eqn:E.
  - apply Ascii.eqb_eq in E. subst d.
    destruct Hm as [Hm | Hm].
    + apply Ascii.eqb_eq in Hm. congruence.
    + destruct (IH Hm) as [t [Ht Hmt]]. exists t. split; [right; exact Ht | exact Hmt].
  - destruct (split sep s) as [| h rest] eqn:Es.
    + contradiction (split_nonempty sep s).
    + destruct Hm as [Hm | Hm].
      * exists (String d h). split; [left; reflexivity|].
        simpl. rewrite Hm. reflexivity.
      * destruct (IH Hm) as [t [[<- | Ht] Hmt]].
        -- exists (String d h). split; [left; reflexivity|].
           simpl. rewrite Hmt. apply orb_true_r.
        -- exists t. split; [right; exact Ht | exact Hmt].
Qed.

Lemma is_numeric_no_underscore (s : string) :
  is_numeric s = true -> mem underscore s = false.
Proof.
  unfold is_numeric. intros H. apply andb_true_iff in H. destruct H as [_ H].
  apply all_chars_mem with (p := is_numeric_char); [exact H | reflexivity].
Qed.

(** A key of the form XxY holds no underscore. *)
Lemma coordinate_key_no_underscore (k : string) :
  coordinate_key k = true -> mem underscore k = false.
Proof.
  unfold coordinate_key. intros H.
  destruct (mem underscore k) eqn:Hm; [| reflexivity]. exfalso.
  destruct (mem_split underscore letter_x k Hm) as [t [Ht Hmt]]; [discriminate|].
  destruct (split letter_x k) as [| X [| Y [| Z rest]]]; try discriminate.
  apply andb_true_iff in H. destruct H as [HX HY].
  apply is_numeric_no_underscore in HX. apply is_numeric_no_underscore in HY.
  destruct Ht as [<- | [<- | []]]; congruence.
Qed.

Example coordinate_key_ex : coordinate_key "12x7" = true. Proof. reflexivity. Qed.
Example coordinate_key_ex2 : coordinate_key "1_2x7" = false. Proof. reflexivity. Qed.

(* ================================================================== *)
(** ** Spot identifiers (lines 98-101 and 200-205) *)

Lemma spot_id_inj (p q : nat * string) : spot_id p = spot_id q -> p = q.
Proof.
  destruct p as [i k], q as [j k']. unfold spot_id. simpl fst. simpl snd.
  change ("_" ++ k)%string with (String underscore k).
  change ("_" ++ k')%string with (String underscore k').
  intros H. apply append_sep_inj in H; try apply str_of_nat_no_underscore.
  destruct H as [H ->]. apply str_of_nat_inj in H. subst j. reflexivity.
Qed.

Lemma prefix_spot_id (i : nat) (p : nat * string) :
  String.prefix (str_of_nat i ++ "_") (spot_id p) = Nat.eqb (fst p) i.
Proof.
  destruct p as [j k]. unfold spot_id. simpl fst. simpl snd.
  change ("_" ++ k)%string with (String underscore k).
  change "_" with (String underscore EmptyString).
  destruct (Nat.eqb j i) eqn:E.
  - apply Nat.eqb_eq in E. subst j.
    change (String underscore k) with (String underscore EmptyString ++ k)%string.
    induction (str_of_nat i) as [| c s IH]; cbn [String.append].
    + rewrite prefix_same. apply prefix_nil.
    + rewrite prefix_same. exact IH.
  - apply not_true_is_false. intros H.
    apply prefix_sep in H; try apply str_of_nat_no_underscore.
    apply str_of_nat_inj in H. subst j. rewrite Nat.eqb_refl in E. discriminate.
Qed.

Lemma split_spot_id (p : nat * string) :
  mem underscore (snd p) = false ->
  split underscore (spot_id p) = [str_of_nat (fst p); snd p].
Proof.
  intros H. unfold spot_id.
  change ("_" ++ snd p)%string with (String underscore (snd p)).
  rewrite split_append_sep by apply str_of_nat_no_underscore.
  rewrite (split_no_sep _ _ H). reflexivity.
Qed.

Lemma filter_spot_ids (i : nat) (l : list (nat * string)) :
  filter (String.prefix (str_of_nat i ++ "_")) (map spot_id l)
  = map spot_id (filter (fun p => Nat.eqb (fst p) i) l).
Proof.
  rewrite filter_map_swap. f_equal. apply filter_ext. intros p.
  apply prefix_spot_id.
Qed.

Lemma for_each_ret_app {A B : Type} (f : A -> B) (g : A -> M B) (l : list A) :
  (forall x, In x l -> g x = ret (f x)) ->
  forall acc, for_each l (fun acc x => y <- g x ;; ret (acc ++ [y])) acc
              = ret (acc ++ map f l).
Proof.
  induction l as [| x l IH]; intros Hg acc; simpl.
  - rewrite app_nil_r. reflexivity.
  - rewrite (Hg x (or_introl eq_refl)). simpl.
    rewrite IH by (intros y Hy; apply Hg; right; exact Hy).
    unfold ret. rewrite <- app_assoc. reflexivity.
Qed.

(** Stripping the tag gives the keys back. *)
Lemma strip_tags (l : list (nat * string)) :
  Forall (fun p => mem underscore (snd p) = false) l ->
  comprehension (fun spot => item (split underscore spot) 1) (map spot_id l)
  = ret (map snd l).
Proof.
  intros H. unfold comprehension.
  rewrite (for_each_ret_app (fun s => nth 1 (split underscore s) EmptyString)).
  - simpl. rewrite map_map. f_equal. apply map_ext_in. intros p Hp.
    rewrite Forall_forall in H. rewrite (split_spot_id p (H p Hp)). reflexivity.
  - intros s Hs. apply in_map_iff in Hs. destruct Hs as [p [<- Hp]].
    rewrite Forall_forall in H. rewrite (split_spot_id p (H p Hp)). reflexivity.
Qed.

Lemma filter_none {A : Type} (f : A -> bool) (l : list A) :
  (forall x, In x l -> f x = false) -> filter f l = [].
Proof.
  induction l as [| x l IH]; intros H; [reflexivity|].
  simpl. rewrite (H x (or_introl eq_refl)). apply IH.
  intros y Hy. apply H. right. exact Hy.
Qed.

(** In a frame with distinct labels, a label selects exactly one row. *)
Lemma filter_label_unique (idx : list string) (vals : list (list fval)) (lab : string) :
  NoDup idx -> List.length vals = List.length idx -> In lab idx ->
  List.length (filter (fun lr : string * list fval => String.eqb (fst lr) lab)
                      (combine idx vals)) = 1.
Proof.
  revert vals. induction idx as [| x idx IH]; intros [| v vals] Hnd Hlen Hin;
    simpl in *; try contradiction; try discriminate.
  inversion Hnd as [| ? ? Hx Hnd']; subst.
  destruct (String.eqb x lab) eqn:E.
  - apply String.eqb_eq in E. subst x. simpl. f_equal.
    assert (Hnone : forall vs, filter (fun lr : string * list fval =>
                                         String.eqb (fst lr) lab)
                                      (combine idx vs) = []).
    { intros vs. apply filter_none.
      intros [l r] Hlr. simpl. apply in_combine_l in Hlr.
      destruct (String.eqb l lab) eqn:El; [| reflexivity].
      apply String.eqb_eq in El. subst l. contradiction. }
    rewrite Hnone. reflexivity.
  - apply IH; [exact Hnd' | lia |].
    destruct Hin as [-> | Hin]; [| exact Hin].
    rewrite String.eqb_refl in E. discriminate.
Qed.

Lemma loc_rows_length (labels : list string) (d : DataFrame) :
  NoDup (df_index d) -> List.length (df_values d) = List.length (df_index d) ->
  incl labels (df_index d) ->
  List.length (df_index (loc_rows labels d)) = List.length labels.
Proof.
  intros Hnd Hlen Hincl. unfold loc_rows. simpl. rewrite length_map.
  induction labels as [| lab labels IH]; [reflexivity|].
  simpl. rewrite length_app, IH.
  - rewrite filter_label_unique; try assumption; [reflexivity|].
    apply Hincl. left. reflexivity.
  - intros l Hl. apply Hincl. right. exact Hl.
Qed.

Lemma ingest_one_reads (W : World) (out : string) (sn : bool)
    (counts : DataFrame) (sc : list (nat * Series)) (i : nat) (f : string)
    (t : DataFrame) :
  read_table W f = Ret t ->
  exists st tr,
    ingest_one W out sn (counts, sc) (i, f) = (Ret st, tr)
    /\ df_index (fst st) = df_index counts ++ map spot_id (map (pair i) (df_index t)).
Proof.
  intros H. unfold ingest_one. rewrite H. simpl.
  eexists. eexists. split; [reflexivity|].
  simpl. rewrite map_map. reflexivity.
Qed.

(** The loop of the ingestion appends, dataset after dataset, the tagged
    keys of the table read. *)
Lemma ingest_loop_index (W : World) (out : string) (sn : bool)
    (files : list string) (tables : list DataFrame) :
  Forall2 (fun f t => read_table W f = Ret t) files tables ->
  forall (k : nat) (st : DataFrame * list (nat * Series)),
  exists st' tr,
    for_each (combine (seq k (List.length files)) files)
             (ingest_one W out sn) st = (Ret st', tr)
    /\ df_index (fst st')
       = df_index (fst st)
         ++ map spot_id
              (flat_map (fun it => map (pair (fst it)) (df_index (snd it)))
                        (combine (seq k (List.length tables)) tables)).
Proof.
  induction 1 as [| f t files tables Hread Hrest IH]; intros k [counts sc].
  - exists (counts, sc), []. split; [reflexivity|].
    simpl. rewrite app_nil_r. reflexivity.
  - destruct (ingest_one_reads W out sn counts sc k f t Hread)
      as [st1 [tr1 [H1 Hi1]]].
    destruct (IH (S k) st1) as [st2 [tr2 [H2 Hi2]]].
    exists st2, (tr1 ++ tr2). split.
    + cbn [List.length seq combine for_each]. rewrite H1.
      cbn [bind]. rewrite H2. reflexivity.
    + rewrite Hi2, Hi1. cbn [List.length seq combine flat_map fst snd].
      rewrite map_app, app_assoc. reflexivity.
Qed.

Lemma ingest_index (W : World) (out : string) (a : Args) (tables : list DataFrame) :
  Forall2 (fun f t => read_table W f = Ret t) (counts_table_files a) tables ->
  exists counts sample_counts tr,
    ingest W out a = (Ret (counts, sample_counts), tr)
    /\ df_index counts = map spot_id (combined_ids tables).
Proof.
  intros H.
  destruct (ingest_loop_index W out (apply_sample_normalization a) _ _ H 0
              (empty_frame, [])) as [[counts sc] [tr [Hloop Hidx]]].
  unfold ingest, enumerate. rewrite Hloop. simpl.
  destruct (Nat.ltb 1 (List.length (counts_table_files a))); simpl;
    eexists; eexists; eexists; (split; [reflexivity | exact Hidx]).
Qed.

Lemma NoDup_map_injective {A B : Type} (f : A -> B) (l : list A) :
  (forall x y, f x = f y -> x = y) -> NoDup l -> NoDup (map f l).
Proof.
  intros Hf. apply NoDup_map_NoDup_ForallPairs.
  intros x y _ _. apply Hf.
Qed.

Lemma combined_ids_from (tables : list DataFrame) (k : nat) (p : nat * string) :
  In p (flat_map (fun it => map (pair (fst it)) (df_index (snd it)))
                 (combine (seq k (List.length tables)) tables)) ->
  k <= fst p.
Proof.
  revert k. induction tables as [| t tables IH]; intros k; simpl; [tauto|].
  intros H. apply in_app_or in H. destruct H as [H | H].
  - apply in_map_iff in H. destruct H as [key [<- _]]. simpl. lia.
  - specialize (IH (S k) H). lia.
Qed.

Lemma combined_ids_NoDup (tables : list DataFrame) :
  Forall (fun t => NoDup (df_index t)) tables -> NoDup (combined_ids tables).
Proof.
  unfold combined_ids, enumerate. generalize 0.
  induction tables as [| t tables IH]; intros k Hnd; simpl; [constructor|].
  inversion Hnd as [| ? ? Ht Hrest]; subst.
  apply NoDup_app.
  - apply NoDup_map_injective; [| exact Ht].
    intros x y Hxy. injection Hxy as ->. reflexivity.
  - apply IH, Hrest.
  - intros p Hp Hq. apply in_map_iff in Hp. destruct Hp as [key [<- _]].
    apply combined_ids_from in Hq. simpl in Hq. lia.
Qed.

Lemma combined_ids_keys (P : string -> Prop) (tables : list DataFrame) :
  Forall (fun t => Forall P (df_index t)) tables ->
  Forall (fun p => P (snd p)) (combined_ids tables).
Proof.
  unfold combined_ids, enumerate. generalize 0.
  induction tables as [| t tables IH]; intros k H; simpl; [constructor|].
  inversion H as [| ? ? Ht Hrest]; subst.
  apply Forall_app. split; [| apply IH, Hrest].
  apply Forall_map. exact Ht.
Qed.

(** The slice written for dataset [i] carries, in order, the keys of the
    spots of dataset [i]. *)
Lemma write_slice_keys (out : string) (nc : DataFrame) (kept : list (nat * string))
    (i : nat) :
  df_index nc = map spot_id kept ->
  NoDup kept ->
  Forall (fun p => mem underscore (snd p) = false) kept ->
  List.length (df_values nc) = List.length (df_index nc) ->
  exists d,
    write_slice out nc tt i
    = (Ret tt,
       [ToCsv d (path_join out ("normalized_counts_" ++ str_of_nat i ++ ".tsv"))])
    /\ df_index d = map snd (filter (fun p => Nat.eqb (fst p) i) kept).
Proof.
  intros Hidx Hnd Hkeys Hlen. unfold write_slice.
  rewrite Hidx, filter_spot_ids.
  set (mine := filter (fun p => Nat.eqb (fst p) i) kept).
  rewrite strip_tags.
  2:{ unfold mine. rewrite Forall_forall in *. intros p Hp.
      apply filter_In in Hp. apply Hkeys, Hp. }
  assert (Hl : List.length (df_index (loc_rows (map spot_id mine) nc))
               = List.length (map spot_id mine)).
  { apply loc_rows_length.
    - rewrite Hidx. apply NoDup_map_injective; [| exact Hnd].
      intros x y. apply spot_id_inj.
    - exact Hlen.
    - rewrite Hidx. intros s Hs. apply in_map_iff in Hs.
      destruct Hs as [p [<- Hp]]. apply in_map. unfold mine in Hp.
      apply filter_In in Hp. apply Hp. }
  unfold ret at 1. cbn [bind].
  rewrite Hl, !length_map, Nat.eqb_refl.
  eexists. split; reflexivity.
Qed.

(** C5: when every table is read, the spots of the merged frame are named
    ["{i}_{k}"], dataset after dataset in the order read; for keys of the
    form XxY that are distinct inside each table these names are pairwise
    distinct; and for a later frame that keeps some of these spots, the
    slice written for dataset [i] is indexed by exactly the original keys
    of the spots of dataset [i]. *)
Theorem spot_identifiers_round_trip :
  forall (W : World) (out : string) (a : Args) (tables : list DataFrame),
    Forall2 (fun f t => read_table W f = Ret t) (counts_table_files a) tables ->
    Forall (fun t => NoDup (df_index t)) tables ->
    Forall (fun t => Forall (fun k => coordinate_key k = true) (df_index t)) tables ->
    exists counts sample_counts tr,
      ingest W out a = (Ret (counts, sample_counts), tr)
      /\ df_index counts
         = map (fun p => (str_of_nat (fst p) ++ "_" ++ snd p)%string)
               (combined_ids tables)
      /\ NoDup (df_index counts)
      /\ (forall i j k k',
            (str_of_nat i ++ "_" ++ k)%string = (str_of_nat j ++ "_" ++ k')%string ->
            i = j /\ k = k')
      /\ (forall (norm_counts : DataFrame) (kept : list (nat * string)) (i : nat),
            df_index norm_counts = map spot_id kept ->
            incl kept (combined_ids tables) ->
            NoDup kept ->
            List.length (df_values norm_counts) = List.length (df_index norm_counts) ->
            exists d,
              write_slice out norm_counts tt i
              = (Ret tt,
                 [ToCsv d (path_join out
                             ("normalized_counts_" ++ str_of_nat i ++ ".tsv"))])
              /\ df_index d = map snd (filter (fun p => Nat.eqb (fst p) i) kept)).
Proof.
  intros W out a tables Hread Hnd Hkeys.
  destruct (ingest_index W out a tables Hread) as [counts [sc [tr [Hi Hidx]]]].
  exists counts, sc, tr. split; [exact Hi|]. split; [exact Hidx|].
  split; [| split].
  - rewrite Hidx. apply NoDup_map_injective.
    + intros x y. apply spot_id_inj.
    + apply combined_ids_NoDup, Hnd.
  - intros i j k k' H.
    assert (H' : (i, k) = (j, k')) by (apply spot_id_inj; exact H).
    injection H' as -> ->. split; reflexivity.
  - intros nc kept i Hnc Hincl Hkept Hlen.
    apply write_slice_keys; try assumption.
    assert (Hall := combined_ids_keys (fun k => coordinate_key k = true) tables Hkeys).
    rewrite Forall_forall in *. intros p Hp.
    apply coordinate_key_no_underscore, Hall, Hincl, Hp.
Qed.

(* ================================================================== *)
(** ** The events of the analysis (lines 199-350) *)

Ltac analyse_event_solve :=
  unfold analyse_event, located; cbn [event_path];
  split; [first [exact I | inside_solve] | try exact I].

Lemma write_normalized_events (out : string) (X : DataFrame) (a : Args)
    (norm_counts : DataFrame) :
  emits (analyse_event out X) (write_normalized out a norm_counts).
Proof.
  unfold write_normalized, write_slice. emits_auto. analyse_event_solve.
Qed.

Lemma select_decomp_model_events (out : string) (X : DataFrame) (name : string) (n : Z) :
  emits (analyse_event out X) (select_decomp_model name n).
Proof. unfold select_decomp_model. emits_auto; analyse_event_solve. Qed.

Lemma select_clustering_events (out : string) (X : DataFrame) (name : string) (k : Z) :
  emits (analyse_event out X) (select_clustering name k).
Proof. unfold select_clustering. emits_auto; analyse_event_solve. Qed.

Lemma cluster_events (W : World) (out : string) (X : DataFrame)
    (c : clustering_model) (rd : ndarray) :
  emits (analyse_event out X) (cluster W c rd).
Proof. unfold cluster. emits_auto. analyse_event_solve. Qed.

Lemma labels_colors_events (out : string) (X : DataFrame) (dims : Z) (rd : ndarray) :
  emits (analyse_event out X) (labels_colors dims rd).
Proof. unfold labels_colors. emits_auto. Qed.

Lemma plot_classes_events (out : string) (X : DataFrame) (dims : Z) (rd : ndarray)
    (labels : list Z) :
  emits (analyse_event out X) (plot_classes out dims rd labels).
Proof. unfold plot_classes. emits_auto; analyse_event_solve. Qed.

Lemma write_class_events (W : World) (out : string) (X : DataFrame)
    (file_writers : list string) (labels : list Z) (colors : list rgb)
    (g : Groups) (ibc : nat * string) :
  Forall (inside out) file_writers ->
  emits (analyse_event out X) (write_class W file_writers labels colors g ibc).
Proof.
  intros Hfw. unfold write_class. emits_auto.
  unfold analyse_event, located; cbn [event_path]. split; [| exact I].
  rewrite Forall_forall in Hfw. apply Hfw.
  eapply nth_error_In. eassumption.
Qed.

Lemma write_classes_events (W : World) (out : string) (X : DataFrame) (a : Args)
    (norm_counts : DataFrame) (labels : list Z) (colors : list rgb) :
  emits (analyse_event out X) (write_classes W out a norm_counts labels colors).
Proof.
  assert (Hfw : Forall (inside out)
                  (map (classes_file out)
                       (seq 0 (List.length (counts_table_files a))))).
  { apply Forall_map, Forall_forall. intros i _. unfold classes_file.
    inside_solve. }
  unfold write_classes. apply emits_bind; [apply emits_assert | intros _].
  apply emits_bind.
  { apply emits_for_each_in. intros st p Hp. apply emits_emit.
    unfold analyse_event, located; cbn [event_path]. split; [| exact I].
    rewrite Forall_forall in Hfw. apply Hfw, Hp. }
  intros _. apply emits_bind.
  { apply emits_for_each. intros g ibc. apply write_class_events, Hfw. }
  intros g. apply emits_bind; [| intros _; apply emits_ret].
  apply emits_for_each_in. intros st p Hp. apply emits_emit.
  unfold analyse_event, located; cbn [event_path]. split; [| exact I].
  rewrite Forall_forall in Hfw. apply Hfw, Hp.
Qed.

Lemma plot_images_events (W : World) (out : string) (X : DataFrame) (a : Args)
    (g : Groups) :
  emits (analyse_event out X) (plot_images W out a g).
Proof.
  unfold plot_images, plot_image. emits_auto; analyse_event_solve.
Qed.

(** The matrix [reduce] hands to the estimator. *)
Lemma reduce_events (W : World) (out : string) (a : Args) (m : decomp_model)
    (norm_counts : DataFrame) :
  emits (analyse_event out
           (if use_log_scale a
            then map_values (fun v => log2 W (fadd v fone)) norm_counts
            else norm_counts))
        (reduce W a m norm_counts).
Proof.
  unfold reduce. emits_auto.
  unfold analyse_event, located; cbn [event_path]. split; [exact I | reflexivity].
Qed.

Lemma analyse_events (W : World) (out : string) (a : Args) (norm_counts : DataFrame) :
  emits (analyse_event out
           (if use_log_scale a
            then map_values (fun v => log2 W (fadd v fone)) norm_counts
            else norm_counts))
        (analyse W out a norm_counts).
Proof.
  unfold analyse.
  apply emits_bind; [apply write_normalized_events | intros _].
  apply emits_bind; [apply select_decomp_model_events | intros m].
  apply emits_bind; [apply reduce_events | intros [nc rd]].
  apply emits_bind; [apply select_clustering_events | intros c].
  apply emits_bind; [apply cluster_events | intros labels].
  apply emits_bind; [apply labels_colors_events | intros colors].
  apply emits_bind; [apply plot_classes_events | intros _].
  apply emits_bind; [apply write_classes_events | intros g].
  apply plot_images_events.
Qed.

Lemma spot_identifiers_round_trip_witness :
  exists counts sample_counts tr,
    ingest Sample.world "/home/user" Sample.args_two
      = (Ret (counts, sample_counts), tr)
    /\ df_index counts = ["0_1x1"; "0_1x2"; "0_2x1"; "1_1x1"; "1_3x4"]
    /\ NoDup (df_index counts).
Proof.
  destruct (spot_identifiers_round_trip Sample.world "/home/user" Sample.args_two
              [Sample.table_a; Sample.table_b])
    as [counts [sc [tr [H1 [H2 [H3 _]]]]]].
  - repeat constructor.
  - repeat constructor; simpl; intuition discriminate.
  - repeat constructor.
  - exists counts, sc, tr. split; [exact H1|]. split; [exact H2 | exact H3].
Defined.

(* ================================================================== *)
(** ** The output directory (lines 76-78) *)

Lemma ingest_event_located (out : string) (e : event) :
  ingest_event out e -> located out e.
Proof.
  destruct e; unfold ingest_event, located; cbn [event_path]; try tauto.
  intros ->. inside_solve.
Qed.

Lemma silent_located (out : string) (e : event) : silent e -> located out e.
Proof. intros H. apply ingest_event_located, silent_ingest_event, H. Qed.

Lemma analyse_event_located (out : string) (X : DataFrame) (e : event) :
  analyse_event out X e -> located out e.
Proof. intros [H _]. exact H. Qed.

(** Every file a run touches is in the resolved output directory. *)
Lemma main_located (W : World) (a : Args) :
  emits (located (resolve_outdir W (outdir a))) (main W a).
Proof.
  unfold main. apply emits_bind.
  - eapply emits_impl; [apply ingest_event_located | apply prepare_events].
  - intros counts. apply emits_bind.
    + eapply emits_impl; [apply silent_located | apply normalize_silent].
    + intros nc. eapply emits_impl; [apply analyse_event_located|].
      apply analyse_events.
Qed.

Lemma output_files_located (out : string) (tr : list event) :
  Forall (located out) tr ->
  Forall (inside out) (output_files tr).
Proof.
  induction 1 as [| e tr He _ IH]; [constructor|].
  unfold output_files. cbn [flat_map]. apply Forall_app. split; [| exact IH].
  destruct e; try constructor; try exact He; constructor.
Qed.

(** C10: when the output directory is not given, or is not an existing
    directory, it is replaced by the absolute path of the working
    directory without any message or failure: the run is, event for event,
    the run with the working directory passed as [outdir], and every file
    it touches is directly inside that directory. *)
Theorem outdir_falls_back_to_cwd :
  forall (W : World) (a : Args),
    (outdir a = None \/ exists d, outdir a = Some d /\ isdir W d = false) ->
    resolve_outdir W (outdir a) = abspath W (getcwd W)
    /\ main W a = main W (with_outdir (Some (getcwd W)) a)
    /\ Forall (located (abspath W (getcwd W))) (snd (main W a))
    /\ Forall (inside (abspath W (getcwd W))) (output_files (snd (main W a))).
Proof.
  intros W a Hout.
  assert (Hres : resolve_outdir W (outdir a) = abspath W (getcwd W)).
  { unfold resolve_outdir. destruct Hout as [-> | [d [-> Hd]]];
      [reflexivity | rewrite Hd; reflexivity]. }
  assert (Hloc := main_located W a). unfold emits in Hloc. rewrite Hres in Hloc.
  split; [exact Hres|]. split; [| split].
  - unfold main, prepare. rewrite Hres.
    assert (Hres' : resolve_outdir W (outdir (with_outdir (Some (getcwd W)) a))
                    = abspath W (getcwd W)).
    { unfold resolve_outdir. simpl. destruct (isdir W (getcwd W)); reflexivity. }
    rewrite Hres'. reflexivity.
  - exact Hloc.
  - apply output_files_located, Hloc.
Qed.

Lemma outdir_falls_back_to_cwd_witness :
  resolve_outdir Sample.world (outdir Sample.args_missing_outdir) = "/home/user"
  /\ output_files (snd (main Sample.world Sample.args_missing_outdir))
     = ["/home/user/hist_reads_0.png"; "/home/user/hist_genes_0.png";
        "/home/user/normalized_counts_0.tsv"; "/home/user/computed_classes.png";
        "/home/user/computed_classes_0.txt"].
Proof.
  split.
  - refine (proj1 (outdir_falls_back_to_cwd Sample.world
                     Sample.args_missing_outdir _)).
    right. exists "/no/such/dir". split; reflexivity.
  - reflexivity.
Defined.

(* ================================================================== *)
(** ** Shape and NaN through the stages *)

Lemma satisfies_conj {A : Type} (P : event -> Prop) (Q1 Q2 : A -> Prop) (m : M A) :
  satisfies P Q1 m -> satisfies P Q2 m -> satisfies P (fun a => Q1 a /\ Q2 a) m.
Proof.
  intros [H1 H2] [_ H3]. split; [exact H1|].
  intros a Ha. split; [apply H2 | apply H3]; exact Ha.
Qed.

Lemma append_well_formed (a b : DataFrame) :
  well_formed a -> well_formed b -> well_formed (append a b).
Proof.
  intros [Ha _] [Hb _]. unfold well_formed, append. simpl. split.
  - rewrite !length_app, !length_map. lia.
  - apply Forall_app. split; apply Forall_map, Forall_forall; intros row _;
      unfold reindex; apply length_map.
Qed.

Lemma map_values_well_formed (f : fval -> fval) (d : DataFrame) :
  well_formed d -> well_formed (map_values f d).
Proof.
  intros [H1 H2]. unfold well_formed, map_values. simpl. split.
  - rewrite length_map. exact H1.
  - apply Forall_map. eapply Forall_impl; [| exact H2].
    intros row Hrow. simpl. rewrite length_map. exact Hrow.
Qed.

Lemma fillna_zero_clean (d : DataFrame) : well_formed d -> clean (fillna_zero d).
Proof.
  intros H. split; [apply map_values_well_formed, H | apply fillna_zero_no_nan].
Qed.

Lemma div_row_well_formed (spot : string) (factor : fval) (d : DataFrame) :
  well_formed d -> well_formed (div_row spot factor d).
Proof.
  intros [H1 H2]. unfold well_formed, div_row. simpl. split.
  - rewrite length_map, length_combine. lia.
  - apply Forall_map, Forall_forall. intros [l row] Hin. simpl.
    apply in_combine_r in Hin. rewrite Forall_forall in H2.
    destruct (String.eqb l spot); [rewrite length_map|]; apply H2, Hin.
Qed.

Lemma select_length_eq {A B : Type} (mask : list bool) (l : list A) (l' : list B) :
  List.length l = List.length l' ->
  List.length (select mask l) = List.length (select mask l').
Proof.
  revert l l'. induction mask as [| b mask IH]; intros [| x l] [| y l'] H;
    simpl in *; try reflexivity; try discriminate.
  injection H as H. destruct b; simpl; rewrite (IH l l' H); reflexivity.
Qed.

Lemma select_Forall {A : Type} (P : A -> Prop) (mask : list bool) (l : list A) :
  Forall P l -> Forall P (select mask l).
Proof.
  intros H. apply Forall_forall. intros x Hx.
  rewrite Forall_forall in H. apply H. eapply select_In, Hx.
Qed.

Lemma filter_rows_clean (mask : list bool) (d : DataFrame) :
  clean d -> clean (filter_rows mask d).
Proof.
  intros [[H1 H2] H3]. unfold clean, well_formed, no_nan, filter_rows. simpl.
  split; [split|].
  - apply select_length_eq. exact H1.
  - apply select_Forall, H2.
  - apply select_Forall, H3.
Qed.

Lemma transpose_clean (d : DataFrame) : clean d -> clean (transpose d).
Proof.
  intros [[H1 H2] H3]. unfold clean, well_formed, no_nan, transpose, columns_of.
  simpl. split; [split|].
  - rewrite length_map, length_seq. reflexivity.
  - apply Forall_map, Forall_forall. intros j _. unfold column.
    rewrite length_map. exact H1.
  - apply Forall_map, Forall_forall. intros j Hj. apply in_seq in Hj.
    unfold column. apply Forall_map, Forall_forall. intros row Hrow.
    unfold no_nan in H3. rewrite Forall_forall in H2, H3.
    specialize (H2 row Hrow). specialize (H3 row Hrow).
    rewrite Forall_forall in H3. apply H3. apply nth_In. lia.
Qed.

Lemma ingest_one_well_formed (W : World) (out : string) (sn : bool)
    (st : DataFrame * list (nat * Series)) (ic : nat * string) :
  reads_well_formed W -> well_formed (fst st) ->
  satisfies (ingest_event out) (fun st' => well_formed (fst st'))
            (ingest_one W out sn st ic).
Proof.
  intros HW Hst. split; [apply ingest_one_events|].
  destruct st as [counts sc], ic as [i f]. unfold ingest_one.
  destruct (read_table W f) as [t | c | e] eqn:Hread; simpl; try discriminate.
  intros st' H. injection H as <-. simpl.
  apply append_well_formed; [exact Hst|].
  destruct (HW f t Hread) as [Ht1 Ht2]. split; simpl.
  - rewrite length_map. exact Ht1.
  - exact Ht2.
Qed.

Lemma ingest_clean (W : World) (out : string) (a : Args) :
  reads_well_formed W ->
  satisfies (ingest_event out) (fun st => clean (fst st)) (ingest W out a).
Proof.
  intros HW. unfold ingest.
  apply satisfies_bind with (Q := fun st => well_formed (fst st)).
  - apply satisfies_for_each.
    + intros st x Hst _. apply ingest_one_well_formed; assumption.
    + split; [reflexivity | constructor].
  - intros [counts sample_counts] Hwf. simpl in Hwf.
    apply satisfies_bind with (Q := fun _ => True).
    + apply emits_satisfies. emits_auto. reflexivity.
    + intros _ _. apply satisfies_ret. apply fillna_zero_clean, Hwf.
Qed.

Lemma normalize_spot_well_formed (factors : list fval) (counts : DataFrame)
    (spot : string) :
  well_formed counts ->
  satisfies silent well_formed (normalize_spot factors counts spot).
Proof.
  intros Hwf. split; [apply normalize_spot_silent|].
  unfold normalize_spot.
  destruct (py_assert _) as [[[] | |] ?]; simpl; try discriminate.
  destruct (item (split letter_x spot) 0) as [[t0 | |] ?]; simpl; try discriminate.
  destruct (item (split underscore t0) 0) as [[tag | |] ?]; simpl; try discriminate.
  destruct (py_int tag) as [[index | |] ?]; simpl; try discriminate.
  destruct (item factors index) as [[factor | |] ?]; simpl; try discriminate.
  intros d H. injection H as <-. apply div_row_well_formed, Hwf.
Qed.

Lemma sample_normalization_clean (W : World) (a : Args) (counts : DataFrame)
    (sample_counts : list (nat * Series)) :
  clean counts ->
  satisfies silent clean (sample_normalization W a counts sample_counts).
Proof.
  intros Hc. unfold sample_normalization.
  destruct (apply_sample_normalization a
            && Nat.ltb 1 (List.length (counts_table_files a))).
  - apply satisfies_bind with (Q := fun _ => True).
    + apply emits_satisfies. emits_auto.
    + intros factors _. apply satisfies_bind with (Q := well_formed).
      * apply satisfies_for_each; [| apply Hc].
        intros st x Hst _. apply normalize_spot_well_formed, Hst.
      * intros counts' Hwf. apply satisfies_ret, fillna_zero_clean, Hwf.
  - apply satisfies_ret, Hc.
Qed.

Lemma merge_datasets_clean (W : World) (out : string) (a : Args) :
  reads_well_formed W ->
  satisfies (ingest_event out) clean (merge_datasets W out a).
Proof.
  intros HW. unfold merge_datasets.
  apply satisfies_bind with (Q := fun st => clean (fst st)).
  - apply ingest_clean, HW.
  - intros [counts sample_counts] Hc. simpl in Hc.
    apply satisfies_impl with (P := silent); [apply silent_ingest_event|].
    apply sample_normalization_clean, Hc.
Qed.

Lemma quality_filter_clean (a : Args) (counts : DataFrame) :
  clean counts -> satisfies silent clean (quality_filter a counts).
Proof.
  intros Hc. split; [apply quality_filter_silent|].
  unfold quality_filter, spot_filter.
  destruct (series_quantile _ _) as [[level | |] ?]; simpl; try discriminate.
  intros d H. injection H as <-.
  unfold gene_filter. apply filter_rows_clean, transpose_clean, filter_rows_clean, Hc.
Qed.

Lemma prepare_clean (W : World) (a : Args) :
  reads_well_formed W ->
  satisfies (ingest_event (resolve_outdir W (outdir a))) clean (prepare W a).
Proof.
  intros HW. unfold prepare.
  apply satisfies_bind with (Q := fun _ => True).
  - apply emits_satisfies.
    apply emits_impl with (P := silent); [apply silent_ingest_event|].
    apply check_inputs_silent.
  - intros _ _. apply satisfies_bind with (Q := clean).
    + apply merge_datasets_clean, HW.
    + intros counts Hc.
      apply satisfies_impl with (P := silent); [apply silent_ingest_event|].
      apply quality_filter_clean, Hc.
Qed.

Lemma normalize_RAW_clean (W : World) (a : Args) (counts : DataFrame) :
  normalization a = "RAW" -> clean counts ->
  satisfies silent clean (normalize W a counts).
Proof.
  intros Hn Hc. split; [apply normalize_silent|].
  unfold normalize, variance_filter. rewrite Hn.
  change (per_spot_normalization W "RAW" counts) with (@ret DataFrame counts).
  cbn [bind ret].
  destruct (series_quantile _ _) as [[level | |] ?]; simpl; try discriminate.
  intros d H. injection H as <-.
  apply transpose_clean, filter_rows_clean, Hc.
Qed.

(* ================================================================== *)
(** ** NaN and the reducer (lines 105-107, 141-143, 164-185) *)

Lemma reducer_inputs_no_nan (tr : list event) :
  Forall reducer_gets_no_nan tr -> Forall no_nan (reducer_inputs tr).
Proof.
  induction 1 as [| e tr He _ IH]; [constructor|].
  unfold reducer_inputs. cbn [flat_map]. apply Forall_app. split; [| exact IH].
  destruct e; try constructor; [exact He | constructor].
Qed.

Lemma ingest_event_no_reducer (out : string) (e : event) :
  ingest_event out e -> reducer_gets_no_nan e.
Proof. destruct e; simpl; tauto. Qed.

(** With RAW and without log scaling, no call of the reducer sees a NaN. *)
Lemma main_RAW_reducer (W : World) (a : Args) :
  reads_well_formed W -> normalization a = "RAW" -> use_log_scale a = false ->
  emits reducer_gets_no_nan (main W a).
Proof.
  intros HW Hn Hlog. apply (satisfies_emits _ (fun _ => True)).
  unfold main. apply satisfies_bind with (Q := clean).
  - eapply satisfies_impl; [apply ingest_event_no_reducer|].
    apply prepare_clean, HW.
  - intros counts Hc. apply satisfies_bind with (Q := clean).
    + eapply satisfies_impl;
        [intros e He; apply (ingest_event_no_reducer EmptyString),
                        silent_ingest_event, He|].
      apply normalize_RAW_clean; assumption.
    + intros nc [_ Hnc]. apply emits_satisfies.
      assert (H := analyse_events W (resolve_outdir W (outdir a)) a nc).
      rewrite Hlog in H. eapply emits_impl; [| exact H].
      intros e [_ He]. destruct e; simpl; try exact I. subst X. exact Hnc.
Qed.

(** What the clean-up does achieve: the NaN present after the merge and
    after the normalization across datasets are replaced by 0.0, so the
    merged frame holds no NaN; with the strategy RAW and without log scaling
    the matrix handed to the reducer holds no NaN either.  The per-spot
    normalization is followed by no clean-up: REL returns the quotient by
    the spot totals as it is. *)
Theorem merged_counts_hold_no_nan :
  forall (W : World) (a : Args),
    (forall out counts, fst (merge_datasets W out a) = Ret counts -> no_nan counts)
    /\ (forall counts,
          per_spot_normalization W "REL" counts
          = ret (div_columns counts (sum_axis0 counts)))
    /\ (reads_well_formed W -> normalization a = "RAW" -> use_log_scale a = false ->
        Forall no_nan (reducer_inputs (snd (main W a)))).
Proof.
  intros W a. split; [| split].
  - intros out counts H.
    exact (proj2 (merge_datasets_events W out a) counts H).
  - intros counts. reflexivity.
  - intros HW Hn Hlog. apply reducer_inputs_no_nan.
    apply main_RAW_reducer; assumption.
Qed.

Lemma sample_reads_well_formed : reads_well_formed Sample.world.
Proof.
  intros f t H. simpl in H.
  destruct (String.eqb f "a.tsv").
  { injection H as <-. split; [reflexivity | repeat constructor]. }
  destruct (String.eqb f "b.tsv").
  { injection H as <-. split; [reflexivity | repeat constructor]. }
  destruct (String.eqb f "c.tsv"); [| discriminate].
  injection H as <-. split; [reflexivity | repeat constructor].
Defined.

Example merged_counts_hold_no_nan_sample :
  Forall no_nan (reducer_inputs (snd (main Sample.world Sample.args_raw))).
Proof.
  refine (proj2 (proj2 (merged_counts_hold_no_nan Sample.world Sample.args_raw))
            _ _ _).
  - exact sample_reads_well_formed.
  - reflexivity.
  - reflexivity.
Defined.

(** C1 at a failing input: REL on a dataset that has a spot without counts.
    The quotient 0/0 of that spot is not replaced by 0.0; the matrix handed
    to the reducer carries a row of NaN. *)
Theorem rel_zero_spot_nan_reaches_reducer :
  reducer_inputs (snd (main Sample.world Sample.args_rel))
  = [mkDF ["0_1x1"; "0_1x2"; "0_2x1"] ["g1"; "g2"]
          [[Fin (2 # 5); Fin (3 # 5)]; [NaN; NaN]; [Fin (4 # 5); Fin (1 # 5)]]]
  /\ existsb has_nan_or_inf (reducer_inputs (snd (main Sample.world Sample.args_rel)))
     = true.
Proof. split; reflexivity. Qed.

(** The frame returned by [replace] is dropped (lines 106, 122, 142): an
    infinity read from a table stays in the merged frame.  Its gene has no
    variance (NaN) and is dropped by the variance filter. *)
Example ingest_keeps_infinity :
  fst (merge_datasets Sample.world "/home/user" Sample.args_inf)
  = Ret (mkDF ["0_1x1"; "0_1x2"] ["g1"; "g2"] [[PInf; Fin 1]; [Fin 2; Fin 3]])
  /\ reducer_inputs (snd (main Sample.world Sample.args_inf))
     = [mkDF ["0_1x1"; "0_1x2"] ["g2"] [[Fin 1]; [Fin 3]]].
Proof. split; reflexivity. Qed.

(** The whole run on the sample dataset, three dimensions asked for: it
    stops in the colour step, after the calls of the two estimators. *)
Example main_3d_index_error :
  fst (main Sample.world Sample.args_3d) = Raise IndexError
  /\ output_files (snd (main Sample.world Sample.args_3d))
     = ["/home/user/hist_reads_0.png"; "/home/user/hist_genes_0.png";
        "/home/user/normalized_counts_0.tsv"].
Proof. split; reflexivity. Qed.

(** The whole run with [--dimensionality SPCA]: the estimator called is PCA. *)
Example main_spca_runs_pca :
  map (fun e => match e with FitTransform m _ => Some m | _ => None end)
      (filter (fun e => match e with FitTransform _ _ => true | _ => false end)
              (snd (main Sample.world Sample.args_spca)))
  = [Some (PCA 2 true true)].
Proof. reflexivity. Qed.

(* ================================================================== *)
(** ** Infinities and the variance filter (lines 187-194) *)

Lemma fadd_not_finite_l (a b : fval) : is_finite a = false -> is_finite (fadd a b) = false.
Proof. destruct a, b; simpl; congruence. Qed.

Lemma fadd_not_finite_r (a b : fval) : is_finite b = false -> is_finite (fadd a b) = false.
Proof. destruct a, b; simpl; congruence. Qed.

Lemma sum_not_finite_acc (l : list fval) (acc : fval) :
  is_finite acc = false -> is_finite (fold_left fadd l acc) = false.
Proof.
  revert acc. induction l as [| x l IH]; intros acc H; simpl; [exact H|].
  apply IH, fadd_not_finite_l, H.
Qed.

Lemma sum_not_finite (l : list fval) (acc v : fval) :
  In v l -> is_finite v = false -> is_finite (fold_left fadd l acc) = false.
Proof.
  revert acc. induction l as [| x l IH]; intros acc Hin Hv; [contradiction|].
  simpl. destruct Hin as [-> | Hin].
  - apply sum_not_finite_acc, fadd_not_finite_r, Hv.
  - apply IH; assumption.
Qed.

Lemma sum_nan_acc (l : list fval) : fold_left fadd l NaN = NaN.
Proof. induction l as [| x l IH]; simpl; [reflexivity | exact IH]. Qed.

Lemma sum_nan (l : list fval) (acc : fval) :
  In NaN l -> fold_left fadd l acc = NaN.
Proof.
  revert acc. induction l as [| x l IH]; intros acc Hin; [contradiction|].
  simpl. destruct Hin as [-> | Hin].
  - replace (fadd acc NaN) with NaN by (destruct acc; reflexivity).
    apply sum_nan_acc.
  - apply IH, Hin.
Qed.

(** A sum that is an infinity has that infinity among its terms. *)
Lemma sum_inf_from (l : list fval) (acc s : fval) :
  is_inf s = true -> fold_left fadd l acc = s -> acc = s \/ In s l.
Proof.
  revert acc. induction l as [| x l IH]; intros acc Hs H; simpl in H.
  - left. exact H.
  - destruct (IH _ Hs H) as [Hacc | Hin]; [| right; right; exact Hin].
    destruct acc, x, s; simpl in *; try discriminate;
      try (left; reflexivity); try (right; left; reflexivity).
Qed.

Lemma fdiv_inf_positive (s : fval) (n : nat) :
  is_inf s = true -> 0 < n -> fdiv s (of_nat n) = s.
Proof.
  intros Hs Hn. unfold of_nat, of_Z.
  assert (Hq : Qeq_bool (inject_Z (Z.of_nat n)) 0 = false).
  { apply not_true_is_false. intros H. apply Qeq_bool_iff in H.
    unfold Qeq in H. simpl in H. lia. }
  assert (Hsg : Qsign (inject_Z (Z.of_nat n)) = 1%Z).
  { unfold Qsign. simpl. destruct n; [lia | reflexivity]. }
  destruct s; try discriminate; simpl; rewrite Hq, Hsg; reflexivity.
Qed.

(** A row that holds an infinity has no variance. *)
Lemma nanvar_inf (l : list fval) (v : fval) :
  In v l -> is_inf v = true -> nanvar l = NaN.
Proof.
  intros Hin Hv. unfold nanvar.
  set (xs := filter (fun v => negb (is_nan v)) l).
  assert (Hvx : In v xs).
  { apply filter_In. split; [exact Hin | destruct v; try discriminate; reflexivity]. }
  destruct (Nat.leb (List.length xs) 1) eqn:Hn; [reflexivity|].
  apply Nat.leb_gt in Hn.
  set (total := fold_left fadd xs fzero).
  assert (Ht : is_finite total = false).
  { apply sum_not_finite with (v := v); [exact Hvx|].
    destruct v; try discriminate; reflexivity. }
  assert (Hnan : In NaN (map (fun x => let d := fsub x (fdiv total (of_nat (List.length xs)))
                                       in fmul d d) xs)).
  { destruct total eqn:Et; try discriminate.
    - assert (Hp : In PInf xs).
      { destruct (sum_inf_from xs fzero PInf eq_refl Et) as [H | H];
          [discriminate | exact H]. }
      rewrite fdiv_inf_positive by (reflexivity || lia).
      apply in_map_iff. exists PInf. split; [reflexivity | exact Hp].
    - assert (Hp : In NInf xs).
      { destruct (sum_inf_from xs fzero NInf eq_refl Et) as [H | H];
          [discriminate | exact H]. }
      rewrite fdiv_inf_positive by (reflexivity || lia).
      apply in_map_iff. exists NInf. split; [reflexivity | exact Hp].
    - apply in_map_iff. exists v. split; [| exact Hvx].
      destruct v; try discriminate; reflexivity. }
  rewrite (sum_nan _ _ Hnan). reflexivity.
Qed.

Lemma fge_nan (t : fval) : fge NaN t = false.
Proof. destruct t; reflexivity. Qed.

Lemma select_map_rows (f : fval -> bool) (rows : list (list fval)) (row : list fval) :
  In row (select (map (fun v => f v) (map nanvar rows)) rows) ->
  f (nanvar row) = true.
Proof.
  induction rows as [| r rows IH]; simpl; [tauto|].
  destruct (f (nanvar r)) eqn:E; simpl; intros H.
  - destruct H as [<- | H]; [exact E | apply IH, H].
  - apply IH, H.
Qed.

(** The genes that pass the variance filter hold no infinity. *)
Lemma variance_filter_no_inf (q : Q) (norm_counts kept : DataFrame) :
  fst (variance_filter q norm_counts) = Ret kept -> no_inf kept.
Proof.
  unfold variance_filter.
  destruct (series_quantile _ _) as [[level | |] ?]; simpl; try discriminate.
  intros H. injection H as <-. unfold no_inf, filter_rows, var_axis1. simpl.
  apply Forall_forall. intros row Hrow.
  apply (select_map_rows (fun v => fge v level)) in Hrow.
  apply Forall_forall. intros v Hv.
  destruct (is_inf v) eqn:Hi; [| reflexivity].
  rewrite (nanvar_inf row v Hv Hi), fge_nan in Hrow. discriminate.
Qed.

Lemma transpose_no_inf (d : DataFrame) : no_inf d -> no_inf (transpose d).
Proof.
  intros H. unfold no_inf, transpose, columns_of. simpl.
  apply Forall_map, Forall_forall. intros j _. unfold column.
  apply Forall_map, Forall_forall. intros row Hrow.
  unfold no_inf in H. rewrite Forall_forall in H. specialize (H row Hrow).
  destruct (Nat.lt_ge_cases j (List.length row)) as [Hj | Hj].
  - rewrite Forall_forall in H. apply H. apply nth_In. exact Hj.
  - rewrite nth_overflow by exact Hj. reflexivity.
Qed.

Lemma normalize_no_inf (W : World) (a : Args) (counts : DataFrame) :
  satisfies silent no_inf (normalize W a counts).
Proof.
  split; [apply normalize_silent|].
  unfold normalize.
  destruct (per_spot_normalization W (normalization a) counts)
    as [[nc | |] ?]; simpl; try discriminate.
  destruct (variance_filter (percent (num_genes_keep a)) nc)
    as [[kept | |] ?] eqn:Ev; simpl; try discriminate.
  intros d H. injection H as <-.
  apply transpose_no_inf.
  apply (variance_filter_no_inf (percent (num_genes_keep a)) nc).
  rewrite Ev. reflexivity.
Qed.

(** Without log scaling, no infinity reaches the reducer, whatever the
    strategy: a gene that holds one is dropped for its NaN variance. *)
Theorem reducer_input_no_inf :
  forall (W : World) (a : Args),
    use_log_scale a = false ->
    Forall no_inf (reducer_inputs (snd (main W a))).
Proof.
  intros W a Hlog.
  assert (H : emits (fun e => match e with FitTransform _ X => no_inf X | _ => True end)
                    (main W a)).
  { apply (satisfies_emits _ (fun _ => True)).
    unfold main. apply satisfies_bind with (Q := fun _ => True).
    - apply emits_satisfies. eapply emits_impl; [| apply prepare_events].
      intros e He. destruct e; simpl in *; tauto.
    - intros counts _. apply satisfies_bind with (Q := no_inf).
      + eapply satisfies_impl; [| apply normalize_no_inf].
        intros e He. destruct e; simpl in *; tauto.
      + intros nc Hnc. apply emits_satisfies.
        assert (Ha := analyse_events W (resolve_outdir W (outdir a)) a nc).
        rewrite Hlog in Ha. eapply emits_impl; [| exact Ha].
        intros e [_ He]. destruct e; simpl; try exact I. subst X. exact Hnc. }
  unfold emits in H. induction H as [| e tr He _ IH]; [constructor|].
  unfold reducer_inputs. cbn [flat_map]. apply Forall_app. split; [| exact IH].
  destruct e; try constructor; [exact He | constructor].
Qed.

(* ================================================================== *)
(** ** Colours in two dimensions *)







Lemma zip3_length {A B C : Type} (a : list A) (b : list B) (c : list C) :
  List.length b = List.length a -> List.length c = List.length a ->
  List.length (zip3 a b c) = List.length a.
Proof.
  revert b c. induction a as [| x a IH]; intros [| y b] [| z c] Hb Hc;
    simpl in *; try discriminate; try reflexivity.
  rewrite IH; [reflexivity | lia | lia].
Qed.





(* ================================================================== *)
(** ** Further properties: the checks stop the run (lines 64-74) *)

Lemma main_after_failed_checks (W : World) (a : Args) (o : outcome unit)
    (tr : list event) :
  check_inputs W a = (o, tr) -> o <> Ret tt ->
  main W a = (match o with
              | Ret _ => Raise TypeError
              | Exit c => Exit c
              | Raise e => Raise e
              end, tr).
Proof.
  intros H Ho. unfold main, prepare. rewrite H.
  destruct o as [[] | c | e]; [contradiction Ho; reflexivity | reflexivity | reflexivity].
Qed.

(** A run whose argument lists do not fit stops before anything is read:
    with no input file, or one that does not exist, with images that are
    not one per dataset, or with alignments that are not one per image, the
    whole run is the one message on stderr and exit status 1; no file is
    written and no estimator is called. *)
Theorem main_rejects_unfit_lists :
  forall (W : World) (a : Args),
    let files := counts_table_files a in
    (files = [] \/ (exists f, In f files /\ isfile W f = false) ->
     main W a = (Exit 1%Z, [Stderr input_error]))
    /\ (files <> [] -> forallb (isfile W) files = true ->
        forall images, image_files a = Some images -> images <> [] ->
        List.length images <> List.length files ->
        main W a = (Exit 1%Z, [Stderr images_error]))
    /\ (files <> [] -> forallb (isfile W) files = true ->
        forall images alignments,
          image_files a = Some images ->
          (images = [] \/ List.length images = List.length files) ->
          alignment_files a = Some alignments -> alignments <> [] ->
          List.length alignments <> List.length images ->
          main W a = (Exit 1%Z, [Stderr alignments_error])).
Proof.
  intros W a files. split; [| split].
  - intros H.
    apply (main_after_failed_checks W a (Exit 1%Z)); [| discriminate].
    unfold check_inputs. fold files.
    assert (Hc : Nat.eqb (List.length files) 0
                 || existsb (fun f => negb (isfile W f)) files = true).
    { destruct H as [-> | [f [Hin Hf]]]; [reflexivity|].
      apply orb_true_iff. right. apply existsb_exists. exists f.
      split; [exact Hin | rewrite Hf; reflexivity]. }
    rewrite Hc. reflexivity.
  - intros Hne Hall images Hi Hin Hlen.
    apply (main_after_failed_checks W a (Exit 1%Z)); [| discriminate].
    unfold check_inputs. fold files.
    rewrite (files_present_check W files Hne Hall), Hi.
    assert (Hc : Nat.ltb 0 (List.length images)
                 && negb (Nat.eqb (List.length images) (List.length files)) = true).
    { apply andb_true_iff. split.
      - apply Nat.ltb_lt. destruct images; [contradiction | simpl; lia].
      - apply negb_true_iff, Nat.eqb_neq, Hlen. }
    rewrite Hc. reflexivity.
  - intros Hne Hall images alignments Hi Himg Ha Hal Hlen.
    apply (main_after_failed_checks W a (Exit 1%Z)); [| discriminate].
    unfold check_inputs. fold files.
    rewrite (files_present_check W files Hne Hall), Hi, Ha.
    assert (Hc : Nat.ltb 0 (List.length images)
                 && negb (Nat.eqb (List.length images) (List.length files)) = false).
    { destruct Himg as [-> | ->]; [reflexivity|].
      rewrite Nat.eqb_refl. apply andb_false_r. }
    rewrite Hc.
    assert (Hl : Nat.ltb 0 (List.length alignments) = true).
    { apply Nat.ltb_lt. destruct alignments; [contradiction | simpl; lia]. }
    rewrite Hl.
    assert (Hn : negb (Nat.eqb (List.length alignments) (List.length images)) = true).
    { apply negb_true_iff, Nat.eqb_neq, Hlen. }
    rewrite Hn. reflexivity.
Qed.

Lemma main_rejects_unfit_lists_witness :
  main Sample.world Sample.args_one_image = (Exit 1%Z, [Stderr images_error]).
Proof.
  refine (proj1 (proj2 (main_rejects_unfit_lists Sample.world Sample.args_one_image))
            _ _ ["a.png"] _ _ _).
  - discriminate.
  - reflexivity.
  - reflexivity.
  - discriminate.
  - simpl. lia.
Defined.

(* ================================================================== *)
(** ** Further properties: where the files go *)

(** Whatever the arguments, every file a run creates lies directly inside
    the resolved output directory: no output name holds a slash, and none
    is written anywhere else. *)
Theorem main_writes_inside_outdir :
  forall (W : World) (a : Args),
    Forall (inside (resolve_outdir W (outdir a))) (output_files (snd (main W a))).
Proof.
  intros W a. apply output_files_located. apply (main_located W a).
Qed.




(* ================================================================== *)
(** ** Further properties: one dataset and [--normalize-samples] *)

Lemma ingest_one_flag (W : World) (out : string) (b : bool) (counts : DataFrame)
    (sc sc' : list (nat * Series)) (i : nat) (f : string) :
  exists tr,
    (exists c1 s1 s1',
        ingest_one W out b (counts, sc) (i, f) = (Ret (c1, s1), tr)
        /\ ingest_one W out false (counts, sc') (i, f) = (Ret (c1, s1'), tr))
    \/ (exists c, ingest_one W out b (counts, sc) (i, f) = (Exit c, tr)
                  /\ ingest_one W out false (counts, sc') (i, f) = (Exit c, tr))
    \/ (exists e, ingest_one W out b (counts, sc) (i, f) = (Raise e, tr)
                  /\ ingest_one W out false (counts, sc') (i, f) = (Raise e, tr)).
Proof.
  unfold ingest_one. destruct (read_table W f) as [t | c | e].
  - eexists. left. eexists. eexists. eexists. split; reflexivity.
  - eexists. right. left. exists c. split; reflexivity.
  - eexists. right. right. exists e. split; reflexivity.
Qed.

(** The flag only changes the per-dataset gene totals that the ingestion
    sets aside; the merged frame and the events are the same. *)
Lemma ingest_loop_flag (W : World) (out : string) (b : bool)
    (l : list (nat * string)) :
  forall (counts : DataFrame) (sc sc' : list (nat * Series)),
    snd (for_each l (ingest_one W out b) (counts, sc))
    = snd (for_each l (ingest_one W out false) (counts, sc'))
    /\ same_ending (fst (for_each l (ingest_one W out b) (counts, sc)))
                   (fst (for_each l (ingest_one W out false) (counts, sc')))
    /\ forall st st',
         fst (for_each l (ingest_one W out b) (counts, sc)) = Ret st ->
         fst (for_each l (ingest_one W out false) (counts, sc')) = Ret st' ->
         fst st = fst st'.
Proof.
  induction l as [| [i f] l IH]; intros counts sc sc'.
  - simpl. split; [reflexivity|]. split; [exact I|].
    intros st st' H H'. injection H as <-. injection H' as <-. reflexivity.
  - cbn [for_each].
    destruct (ingest_one_flag W out b counts sc sc' i f)
      as [tr [[c1 [s1 [s1' [H1 H2]]]] | [[c [H1 H2]] | [e [H1 H2]]]]];
      rewrite H1, H2; cbn [bind].
    + destruct (IH c1 s1 s1') as [Htr [Hend Hst]].
      destruct (for_each l (ingest_one W out b) (c1, s1)) as [o tr1].
      destruct (for_each l (ingest_one W out false) (c1, s1')) as [o' tr1'].
      simpl in *. subst tr1'. split; [reflexivity|]. split; [exact Hend | exact Hst].
    + simpl. split; [reflexivity|]. split; [reflexivity | discriminate].
    + simpl. split; [reflexivity|]. split; [reflexivity | discriminate].
Qed.

Lemma merge_datasets_one_flag (W : World) (out : string) (a : Args) :
  List.length (counts_table_files a) <= 1 ->
  merge_datasets W out a
  = merge_datasets W out (with_sample_normalization false a).
Proof.
  intros Hlen. unfold merge_datasets, ingest, sample_normalization.
  cbn [counts_table_files apply_sample_normalization with_sample_normalization].
  assert (Hlt : Nat.ltb 1 (List.length (counts_table_files a)) = false)
    by (apply Nat.ltb_ge; exact Hlen).
  rewrite Hlt, andb_false_r.
  destruct (ingest_loop_flag W out (apply_sample_normalization a)
              (enumerate (counts_table_files a)) empty_frame [] [])
    as [Htr [Hend Hst]].
  destruct (for_each (enumerate (counts_table_files a))
              (ingest_one W out (apply_sample_normalization a)) (empty_frame, []))
    as [o tr].
  destruct (for_each (enumerate (counts_table_files a))
              (ingest_one W out false) (empty_frame, []))
    as [o' tr'].
  simpl in Htr, Hend, Hst. subst tr'.
  destruct o as [[c1 s1] | x | e], o' as [[c2 s2] | x' | e'];
    simpl in Hend; try contradiction.
  - assert (c1 = c2) by (apply (Hst (c1, s1) (c2, s2)); reflexivity).
    subst c2. reflexivity.
  - subst x'. reflexivity.
  - subst e'. reflexivity.
Qed.

(** With a single dataset the flag [--normalize-samples] changes nothing:
    the run is, outcome and events, the run without the flag. *)
Theorem single_dataset_ignores_sample_normalization :
  forall (W : World) (a : Args),
    List.length (counts_table_files a) <= 1 ->
    main W a = main W (with_sample_normalization false a).
Proof.
  intros W a Hlen. unfold main, prepare.
  change (check_inputs W (with_sample_normalization false a))
    with (check_inputs W a).
  change (outdir (with_sample_normalization false a)) with (outdir a).
  rewrite (merge_datasets_one_flag W _ a Hlen). reflexivity.
Qed.

Lemma single_dataset_ignores_sample_normalization_witness :
  main Sample.world Sample.args_one_flagged = main Sample.world Sample.args_raw.
Proof.
  refine (single_dataset_ignores_sample_normalization Sample.world
            Sample.args_one_flagged _).
  simpl. lia.
Defined.

(* ================================================================== *)
(** ** Further properties: the gene filter on few spots (lines 157-162) *)

Lemma fround_small_share (n : nat) :
  n < 50 -> fround (fmul (of_nat n) (Fin (1 # 100))) = Fin 0.
Proof.
  intros Hn. unfold of_nat, of_Z, fmul, fround, of_Z. f_equal.
  set (q := Qred (inject_Z (Z.of_nat n) * (1 # 100))).
  assert (Hq : (q == inject_Z (Z.of_nat n) * (1 # 100))%Q) by apply Qred_correct.
  assert (H0 : (0 <= q)%Q).
  { rewrite Hq. unfold Qle, Qmult, inject_Z. simpl. lia. }
  assert (H1 : (q < 1 # 2)%Q).
  { rewrite Hq. unfold Qlt, Qmult, inject_Z. simpl. lia. }
  unfold Qround_half_away.
  assert (Hb : Qle_bool 0 q = true) by (apply Qle_bool_iff; exact H0).
  rewrite Hb.
  assert (Hlo : (0 <= Qfloor (q + (1 # 2)))%Z).
  { change 0%Z with (Qfloor 0). apply Qfloor_resp_le.
    rewrite <- (Qplus_0_r 0). apply Qplus_le_compat; [exact H0 | discriminate]. }
  assert (Hhi : (Qfloor (q + (1 # 2)) < 1)%Z).
  { rewrite Zlt_Qlt. eapply Qle_lt_trans; [apply Qfloor_le|].
    apply Qlt_le_trans with ((1 # 2) + (1 # 2))%Q;
      [apply Qplus_lt_le_compat; [exact H1 | apply Qle_refl] | discriminate]. }
  assert (Hz : Qfloor (q + (1 # 2)) = 0%Z) by lia.
  rewrite Hz. reflexivity.
Qed.

Lemma fge_of_nat_zero (n : nat) : fge (of_nat n) (Fin 0) = true.
Proof.
  unfold fge, of_nat, of_Z. apply fle_Fin.
  change 0%Q with (inject_Z 0). rewrite <- Zle_Qle. lia.
Qed.

(** With fewer than 50 spots the threshold of the gene filter, 1 per cent
    of the spots rounded, is 0: no gene is dropped, whatever its counts. *)
Theorem gene_filter_keeps_all_below_50_spots :
  forall counts : DataFrame,
    well_formed counts ->
    List.length (df_columns counts) < 50 ->
    gene_filter counts = counts.
Proof.
  intros counts [Hlen _] Hn. unfold gene_filter.
  rewrite (fround_small_share _ Hn).
  unfold filter_rows.
  assert (Hmask : Forall (fun b => b = true)
            (map (fun n => fge (of_nat n) (Fin 0))
                 (count_ge_axis1 MIN_EXPRESION counts))).
  { apply Forall_map, Forall_forall. intros n _. apply fge_of_nat_zero. }
  assert (Hl : List.length (map (fun n => fge (of_nat n) (Fin 0))
                                (count_ge_axis1 MIN_EXPRESION counts))
               = List.length (df_values counts)).
  { unfold count_ge_axis1. rewrite !length_map. reflexivity. }
  rewrite !select_all; try assumption.
  - destruct counts; reflexivity.
  - rewrite Hl. exact Hlen.
Qed.

Lemma gene_filter_keeps_all_below_50_spots_witness :
  gene_filter (transpose Sample.table_a) = transpose Sample.table_a.
Proof.
  apply gene_filter_keeps_all_below_50_spots.
  - split; [reflexivity | repeat constructor].
  - simpl. lia.
Defined.

(* ================================================================== *)
(** ** Further properties: the variance filter on a single spot *)

Lemma nanvar_short (row : list fval) : List.length row <= 1 -> nanvar row = NaN.
Proof.
  intros H. unfold nanvar.
  assert (Hf : List.length (filter (fun v => negb (is_nan v)) row) <= 1).
  { eapply Nat.le_trans; [apply filter_length_le | exact H]. }
  apply Nat.leb_le in Hf. rewrite Hf. reflexivity.
Qed.

Lemma select_none {A : Type} (mask : list bool) (l : list A) :
  Forall (fun b => b = false) mask -> select mask l = [].
Proof.
  revert l. induction mask as [| b mask IH]; intros [| x l] H; try reflexivity.
  inversion H as [| ? ? Hb Hrest]; subst. simpl. apply IH, Hrest.
Qed.

(** With at most one spot left there is no variance to compare: every gene
    has variance NaN and is dropped, so the frame that goes on to the
    reducer has the spots as labels and no gene. *)
Theorem variance_filter_drops_all_on_single_spot :
  forall (pct : Z) (norm_counts : DataFrame),
    (0 <= pct <= 100)%Z ->
    Forall (fun row => List.length row <= 1) (df_values norm_counts) ->
    variance_filter (percent pct) norm_counts
    = ret (mkDF [] (df_columns norm_counts) []).
Proof.
  intros pct d Hpct Hrows. unfold variance_filter, series_quantile.
  rewrite (percent_in_range pct Hpct). cbn [bind ret app].
  assert (Hv : var_axis1 d = map (fun _ => NaN) (df_values d)).
  { unfold var_axis1. apply map_ext_in. intros row Hrow.
    rewrite Forall_forall in Hrows. apply nanvar_short, Hrows, Hrow. }
  rewrite Hv. unfold filter_rows.
  assert (Hmask : Forall (fun b => b = false)
            (map (fun v => fge v (quantile (map (fun _ => NaN) (df_values d))
                                           (percent pct)))
                 (map (fun _ : list fval => NaN) (df_values d)))).
  { apply Forall_map, Forall_map, Forall_forall. intros row _. apply fge_nan. }
  rewrite !select_none by exact Hmask. reflexivity.
Qed.

Lemma variance_filter_drops_all_on_single_spot_witness :
  variance_filter (percent 20) (mkDF ["g1"; "g2"] ["0_1x1"] [[Fin 2]; [Fin 3]])
  = ret (mkDF [] ["0_1x1"] []).
Proof.
  refine (variance_filter_drops_all_on_single_spot 20
            (mkDF ["g1"; "g2"] ["0_1x1"] [[Fin 2]; [Fin 3]]) _ _).
  - lia.
  - repeat constructor.
Defined.

(* ================================================================== *)
(** ** Further properties: the command line and the dispatches *)

Lemma emits_nothing {A : Type} (m : M A) : emits (fun _ => False) m -> snd m = [].
Proof.
  unfold emits. destruct (snd m) as [| e tr]; [reflexivity|].
  intros H. inversion H as [| ? ? He _]. contradiction.
Qed.

Lemma divide_quiet (counts : DataFrame) (sf : list fval) :
  emits (fun _ => False) (divide counts sf).
Proof. unfold divide. emits_auto. Qed.

Lemma mem_str_In (s : string) (l : list string) : mem_str s l = true -> In s l.
Proof.
  unfold mem_str. intros H. apply existsb_exists in H.
  destruct H as [x [Hx He]]. apply String.eqb_eq in He. subst x. exact Hx.
Qed.

(** No configuration the command line lets through reaches one of the three
    exits "incorrect ... method" of [main], and both percentages are valid
    quantile levels: the normalization step writes nothing on stderr, an
    estimator and a clusterer are always selected, and neither quantile
    raises. *)
Theorem cli_accepted_reaches_no_incorrect_method :
  forall (W : World) (a : Args),
    cli_accepts a = true ->
    (forall counts, snd (per_spot_normalization W (normalization a) counts) = [])
    /\ (exists m, select_decomp_model (dimensionality_algorithm a) (num_dimensions a)
                  = ret m)
    /\ (exists c, select_clustering (clustering_algorithm a) (num_clusters a) = ret c)
    /\ (forall l, series_quantile l (percent (num_exp_genes a))
                  = ret (quantile l (percent (num_exp_genes a))))
    /\ (forall l, series_quantile l (percent (num_genes_keep a))
                  = ret (quantile l (percent (num_genes_keep a)))).
Proof.
  intros W a H. unfold cli_accepts in H.
  repeat (apply andb_true_iff in H; destruct H as [H ?]).
  match goal with Hn : mem_str (normalization a) _ = true |- _ =>
    apply mem_str_In in Hn; rename Hn into Hnorm end.
  match goal with Hn : mem_str (clustering_algorithm a) _ = true |- _ =>
    apply mem_str_In in Hn; rename Hn into Hclu end.
  match goal with Hn : mem_str (dimensionality_algorithm a) _ = true |- _ =>
    apply mem_str_In in Hn; rename Hn into Hdim end.
  match goal with Hn : Z.leb 0 (num_exp_genes a) && _ = true |- _ =>
    apply andb_true_iff in Hn; destruct Hn as [He1 He2] end.
  match goal with Hn : Z.leb 0 (num_genes_keep a) && _ = true |- _ =>
    apply andb_true_iff in Hn; destruct Hn as [Hk1 Hk2] end.
  apply Z.leb_le in He1, Hk1. apply Z.ltb_lt in He2, Hk2.
  split; [| split; [| split; [| split]]].
  - intros counts. apply emits_nothing.
    simpl in Hnorm.
    destruct Hnorm as [<- | [<- | [<- | [<- | [<- | [<- | []]]]]]].
    + change (per_spot_normalization W "RAW" counts) with (@ret DataFrame counts).
      emits_auto.
    + change (per_spot_normalization W "DESeq" counts)
        with (size_factors <- lift (computeSizeFactors W counts) ;;
              divide counts size_factors).
      emits_auto. apply divide_quiet.
    + change (per_spot_normalization W "DESeq2" counts)
        with (size_factors <- lift (computeSizeFactorsLinear W counts) ;;
              divide counts size_factors).
      emits_auto. apply divide_quiet.
    + change (per_spot_normalization W "DESeq2Log" counts)
        with (lift (computeDESeq2LogTransform W counts)).
      emits_auto.
    + change (per_spot_normalization W "EdgeR" counts)
        with (size_factors <- lift (computeEdgeRNormalization W counts) ;;
              scaled <- divide counts size_factors ;;
              ret (map_values (fun v => fmul v (mean size_factors)) scaled)).
      emits_auto. apply divide_quiet.
    + change (per_spot_normalization W "REL" counts)
        with (@ret DataFrame (div_columns counts (sum_axis0 counts))).
      emits_auto.
  - simpl in Hdim. destruct Hdim as [<- | [<- | [<- | [<- | []]]]];
      eexists; reflexivity.
  - simpl in Hclu. destruct Hclu as [<- | [<- | []]]; eexists; reflexivity.
  - intros l. unfold series_quantile.
    rewrite percent_in_range by lia. reflexivity.
  - intros l. unfold series_quantile.
    rewrite percent_in_range by lia. reflexivity.
Qed.

Lemma cli_accepted_reaches_no_incorrect_method_witness :
  exists m, select_decomp_model (dimensionality_algorithm Sample.args_spca)
                                (num_dimensions Sample.args_spca) = ret m.
Proof.
  exact (proj1 (proj2 (cli_accepted_reaches_no_incorrect_method
                         Sample.world Sample.args_spca eq_refl))).
Defined.

(* ================================================================== *)
(** ** Further properties: [linear_conv] (lines 47-48) *)





(* ================================================================== *)
(** ** Further properties: the colour step on any two-dimensional input *)

Lemma max_of_nonempty (l : list fval) : l <> [] -> exists v, max_of l = ret v.
Proof. destruct l; [contradiction|]. intros _. eexists. reflexivity. Qed.

Lemma min_of_nonempty (l : list fval) : l <> [] -> exists v, min_of l = ret v.
Proof. destruct l; [contradiction|]. intros _. eexists. reflexivity. Qed.

Lemma column_nonempty (j : nat) (rows : list (list fval)) :
  rows <> [] -> column j rows <> [].
Proof. destruct rows; [contradiction | discriminate]. Qed.

(** Outside the three-dimensional case the colour step needs two columns
    and one spot, and nothing else: on an array without rows it raises
    [ValueError] (the maximum of an empty sequence); on any other array of
    at least two columns it gives one colour per spot, blue being 1. *)
Theorem labels_colors_2d_total :
  forall (dims : Z) (ncols : nat) (rows : list (list fval)),
    dims <> 3%Z -> 2 <= ncols ->
    (rows = [] -> labels_colors dims (mkArray ncols rows) = raise ValueError)
    /\ (rows <> [] ->
        exists colors,
          labels_colors dims (mkArray ncols rows) = ret colors
          /\ List.length colors = List.length rows
          /\ Forall (fun c : rgb => snd c = fone) colors).
Proof.
  intros dims ncols rows Hd Hn.
  apply Z.eqb_neq in Hd.
  assert (H0 : Nat.ltb 0 ncols = true) by (apply Nat.ltb_lt; lia).
  assert (H1 : Nat.ltb 1 ncols = true) by (apply Nat.ltb_lt; lia).
  split.
  - intros ->. unfold labels_colors, array_column. simpl nd_ncols.
    rewrite H0. reflexivity.
  - intros Hrows. unfold labels_colors, array_column.
    simpl nd_ncols. simpl nd_rows. rewrite H0, H1, Hd.
    destruct (max_of_nonempty _ (column_nonempty 0 rows Hrows)) as [x_max Ex].
    destruct (min_of_nonempty _ (column_nonempty 0 rows Hrows)) as [x_min En].
    destruct (max_of_nonempty _ (column_nonempty 1 rows Hrows)) as [y_max Ey].
    destruct (min_of_nonempty _ (column_nonempty 1 rows Hrows)) as [y_min Em].
    cbn [bind ret app]. rewrite Ex. cbn [bind ret app]. rewrite En.
    cbn [bind ret app]. rewrite Ey. cbn [bind ret app]. rewrite Em.
    cbn [bind ret app].
    eexists. split; [reflexivity|]. split.
    + rewrite length_map, zip3_length; unfold column; rewrite !length_map; reflexivity.
    + apply Forall_map, Forall_forall. intros [[x y] z] _. reflexivity.
Qed.

Lemma labels_colors_2d_total_witness :
  exists colors,
    labels_colors 2 (mkArray 2 [[Fin 1; Fin 5]; [Fin 1; Fin 7]]) = ret colors
    /\ List.length colors = 2
    /\ Forall (fun c : rgb => snd c = fone) colors.
Proof.
  refine (proj2 (labels_colors_2d_total 2 2 [[Fin 1; Fin 5]; [Fin 1; Fin 7]] _ _) _).
  - discriminate.
  - lia.
  - discriminate.
Defined.

(* ================================================================== *)
(** ** Further properties: no label 0 leaves the run *)

Lemma bind_ret_inv {A B : Type} (m : M A) (k : A -> M B) (b : B) :
  fst (bind m k) = Ret b -> exists a, fst m = Ret a /\ fst (k a) = Ret b.
Proof.
  destruct m as [[a | c | e] tr]; simpl; try discriminate.
  intros H. exists a. split; [reflexivity|].
  destruct (k a) as [o tr']. exact H.
Qed.

Lemma item_ret_inv {A : Type} (l : list A) (i : nat) (a : A) :
  fst (item l i) = Ret a -> nth_error l i = Some a.
Proof.
  unfold item. destruct (nth_error l i); simpl; [| discriminate].
  intros H. injection H as <-. reflexivity.
Qed.

Lemma Forall_update {A : Type} (P : A -> Prop) (l : list A) (i : nat) (c : A) :
  Forall P l -> P c -> Forall P (firstn i l ++ c :: skipn (S i) l).
Proof.
  revert l. induction i as [| i IH]; intros [| a l] Hl Hc; simpl.
  - constructor; [exact Hc | constructor].
  - inversion Hl; subst. constructor; assumption.
  - constructor; [exact Hc | constructor].
  - inversion Hl; subst. constructor; [assumption | apply IH; assumption].
Qed.

Lemma append_at_ret_inv {A : Type} (P : A -> Prop) (l l' : list (list A))
    (i : nat) (x : A) :
  Forall (Forall P) l -> P x ->
  fst (append_at l i x) = Ret l' -> Forall (Forall P) l'.
Proof.
  intros Hl Hx. unfold append_at.
  destruct (nth_error l i) as [cell |] eqn:E; simpl; [| discriminate].
  intros H. injection H as <-. apply Forall_update; [exact Hl|].
  apply Forall_app. split; [| repeat constructor; exact Hx].
  rewrite Forall_forall in Hl. apply Hl. eapply nth_error_In, E.
Qed.

Ltac as_emits :=
  match goal with |- Forall ?P (snd ?m) => change (emits P m) end.

(** Take the next step of a computation that ended normally. *)
Tactic Notation "bind_step" hyp(H) ident(x) ident(Hx) :=
  apply bind_ret_inv in H; destruct H as [x [Hx H]].

Lemma cluster_from_one (W : World) (c : clustering_model) (rd : ndarray) :
  clusterer_contract W ->
  satisfies labels_from_one (Forall (fun l => (1 <= l)%Z)) (cluster W c rd).
Proof.
  intros HW. split.
  - as_emits. unfold cluster. emits_auto. exact I.
  - intros labels H. unfold cluster in H.
    bind_step H u Hu. bind_step H raw Hraw. simpl in H. injection H as <-.
    apply shift_labels_positive. apply (HW c rd). exact Hraw.
Qed.

Lemma write_class_from_one (W : World) (fw : list string) (labels : list Z)
    (colors : list rgb) (g : Groups) (ibc : nat * string) :
  Forall (fun l => (1 <= l)%Z) labels ->
  Forall (Forall (fun l => (1 <= l)%Z)) (labels_index g) ->
  satisfies labels_from_one
            (fun g' => Forall (Forall (fun l => (1 <= l)%Z)) (labels_index g'))
            (write_class W fw labels colors g ibc).
Proof.
  intros Hl Hg. split.
  - as_emits. unfold write_class. emits_auto. simpl.
    rewrite Forall_forall in Hl. apply Hl. eapply nth_error_In. eassumption.
  - intros g' H. unfold write_class in H. destruct ibc as [i bc].
    bind_step H u0 H0. bind_step H t1 H1. bind_step H y H2.
    bind_step H t0 H3. bind_step H xs H4. bind_step H x H5.
    bind_step H t0' H6. bind_step H tag H7. bind_step H index H8.
    bind_step H xi H9. bind_step H yi H10. bind_step H label H11.
    bind_step H li H12. bind_step H color H13. bind_step H ci H14.
    bind_step H writer H15. bind_step H label' H16. bind_step H u1 H17.
    simpl in H. injection H as <-. simpl.
    apply (append_at_ret_inv _ _ _ _ _ Hg) in H12; [exact H12|].
    rewrite Forall_forall in Hl. apply Hl.
    eapply nth_error_In, item_ret_inv, H11.
Qed.

Lemma write_classes_from_one (W : World) (out : string) (a : Args)
    (nc : DataFrame) (labels : list Z) (colors : list rgb) :
  Forall (fun l => (1 <= l)%Z) labels ->
  satisfies labels_from_one
            (fun g => Forall (Forall (fun l => (1 <= l)%Z)) (labels_index g))
            (write_classes W out a nc labels colors).
Proof.
  intros Hl. unfold write_classes.
  apply satisfies_bind with (Q := fun _ => True).
  { apply emits_satisfies, emits_assert. }
  intros _ _. apply satisfies_bind with (Q := fun _ => True).
  { apply emits_satisfies, emits_for_each. intros st p. apply emits_emit. exact I. }
  intros _ _.
  apply satisfies_bind
    with (Q := fun g => Forall (Forall (fun l => (1 <= l)%Z)) (labels_index g)).
  { apply satisfies_for_each.
    - intros g ibc Hg _. apply write_class_from_one; assumption.
    - simpl. apply Forall_map, Forall_forall. intros i _. constructor. }
  intros g Hg. apply satisfies_bind with (Q := fun _ => True).
  { apply emits_satisfies, emits_for_each. intros st p. apply emits_emit. exact I. }
  intros _ _. apply satisfies_ret. exact Hg.
Qed.

Lemma plot_images_from_one (W : World) (out : string) (a : Args) (g : Groups) :
  Forall (Forall (fun l => (1 <= l)%Z)) (labels_index g) ->
  emits labels_from_one (plot_images W out a g).
Proof.
  intros Hg. unfold plot_images, plot_image. emits_auto; simpl; try exact I.
  all: rewrite Forall_forall in Hg; apply Hg; eapply nth_error_In; eassumption.
Qed.

Lemma plot_classes_from_one (out : string) (dims : Z) (rd : ndarray) (labels : list Z) :
  Forall (fun l => (1 <= l)%Z) labels ->
  emits labels_from_one (plot_classes out dims rd labels).
Proof. intros Hl. unfold plot_classes. emits_auto; exact Hl. Qed.

Lemma analyse_from_one (W : World) (out : string) (a : Args) (nc : DataFrame) :
  clusterer_contract W -> emits labels_from_one (analyse W out a nc).
Proof.
  intros HW. apply (satisfies_emits _ (fun _ => True)). unfold analyse.
  apply satisfies_bind with (Q := fun _ => True).
  { apply emits_satisfies. unfold write_normalized, write_slice.
    emits_auto. exact I. }
  intros _ _. apply satisfies_bind with (Q := fun _ => True).
  { apply emits_satisfies. unfold select_decomp_model. emits_auto; exact I. }
  intros m _. apply satisfies_bind with (Q := fun _ => True).
  { apply emits_satisfies. unfold reduce. emits_auto. exact I. }
  intros [nc' rd] _. apply satisfies_bind with (Q := fun _ => True).
  { apply emits_satisfies. unfold select_clustering. emits_auto; exact I. }
  intros c _.
  apply satisfies_bind with (Q := Forall (fun l => (1 <= l)%Z)).
  { apply cluster_from_one, HW. }
  intros labels Hl. apply satisfies_bind with (Q := fun _ => True).
  { apply emits_satisfies. unfold labels_colors. emits_auto. }
  intros colors _. apply satisfies_bind with (Q := fun _ => True).
  { apply emits_satisfies, plot_classes_from_one, Hl. }
  intros _ _.
  apply satisfies_bind
    with (Q := fun g => Forall (Forall (fun l => (1 <= l)%Z)) (labels_index g)).
  { apply write_classes_from_one, Hl. }
  intros g Hg. apply emits_satisfies, plot_images_from_one, Hg.
Qed.

(** With a clusterer that numbers its clusters from 0, as scikit-learn
    does, no label below 1 ever leaves a run: not in a line of a classes
    file, not in a plot coloured by class. *)
Theorem main_labels_from_one :
  forall (W : World) (a : Args),
    clusterer_contract W -> Forall labels_from_one (snd (main W a)).
Proof.
  intros W a HW. change (emits labels_from_one (main W a)).
  unfold main. apply emits_bind.
  - eapply emits_impl; [| apply prepare_events].
    intros e He. destruct e; simpl in *; tauto.
  - intros counts. apply emits_bind.
    + eapply emits_impl; [| apply normalize_silent].
      intros e He. destruct e; simpl in *; tauto.
    + intros nc. apply analyse_from_one, HW.
Qed.

Lemma sample_clusterer_contract : clusterer_contract Sample.world_from_zero.
Proof.
  intros c rd raw H. simpl in H. unfold Sample.round_robin in H.
  injection H as <-. apply Forall_map, Forall_forall. intros i _.
  apply Z.mod_pos_bound. lia.
Defined.

Lemma main_labels_from_one_witness :
  Forall labels_from_one (snd (main Sample.world_from_zero Sample.args_raw)).
Proof.
  exact (main_labels_from_one Sample.world_from_zero Sample.args_raw
           sample_clusterer_contract).
Defined.

(* ================================================================== *)
(** ** Further properties: the classes files (lines 294-318) *)

Lemma string_append_assoc (a b c : string) :
  ((a ++ b) ++ c)%string = (a ++ (b ++ c))%string.
Proof. induction a as [| x a IH]; simpl; [reflexivity | rewrite IH; reflexivity]. Qed.

Lemma is_numeric_no_x (s : string) : is_numeric s = true -> mem letter_x s = false.
Proof.
  unfold is_numeric. intros H. apply andb_true_iff in H. destruct H as [_ H].
  apply all_chars_mem with (p := is_numeric_char); [exact H | reflexivity].
Qed.

Lemma str_of_nat_no_x (n : nat) : mem letter_x (str_of_nat n) = false.
Proof.
  apply all_chars_mem with (p := is_digit); [| reflexivity].
  apply string_of_uint_digits.
Qed.

(** The name of a spot splits at its [x] into the tagged first numeral and
    the second numeral, and the tagged part at its underscore. *)
Lemma split_spot_name (s : Spot) :
  is_numeric (spot_x s) = true -> is_numeric (spot_y s) = true ->
  split letter_x (spot_name s)
  = [(str_of_nat (spot_dataset s) ++ "_" ++ spot_x s)%string; spot_y s]
  /\ split underscore (str_of_nat (spot_dataset s) ++ "_" ++ spot_x s)%string
     = [str_of_nat (spot_dataset s); spot_x s].
Proof.
  intros Hx Hy. split.
  - unfold spot_name, spot_id. cbn [fst snd].
    replace (str_of_nat (spot_dataset s) ++ "_" ++ spot_x s ++ "x" ++ spot_y s)%string
      with ((str_of_nat (spot_dataset s) ++ "_" ++ spot_x s)
              ++ String letter_x (spot_y s))%string.
    + rewrite split_append_sep.
      * rewrite (split_no_sep _ _ (is_numeric_no_x _ Hy)). reflexivity.
      * rewrite !mem_append, str_of_nat_no_x, (is_numeric_no_x _ Hx). reflexivity.
    + rewrite !string_append_assoc. reflexivity.
  - change ("_" ++ spot_x s)%string with (String underscore (spot_x s)).
    rewrite split_append_sep by apply str_of_nat_no_underscore.
    rewrite (split_no_sep _ _ (is_numeric_no_underscore _ Hx)). reflexivity.
Qed.

Lemma py_int_str_of_nat (n : nat) : py_int (str_of_nat n) = ret n.
Proof. unfold py_int. rewrite int_of_str_of_nat. reflexivity. Qed.

Lemma nth_error_grouped {A : Type} (n : nat) (val : Spot -> A) (spots : list Spot)
    (j : nat) :
  nth_error (grouped n val spots) j
  = if Nat.ltb j n
    then Some (map val (filter (fun s => Nat.eqb (spot_dataset s) j) spots))
    else None.
Proof.
  unfold grouped. rewrite nth_error_map, nth_error_seq.
  destruct (Nat.ltb j n); reflexivity.
Qed.

Lemma update_ext {A : Type} (i : nat) :
  forall (l l' : list A) (c : A),
    nth_error l' i = Some c ->
    (forall j, j <> i -> nth_error l j = nth_error l' j) ->
    firstn i l ++ c :: skipn (S i) l = l'.
Proof.
  induction i as [| i IH]; intros l l' c Hc Hj.
  - destruct l' as [| a' t']; [discriminate|]. simpl in Hc. injection Hc as ->.
    simpl. f_equal. apply nth_error_ext. intros j.
    specialize (Hj (S j)). simpl in Hj.
    destruct l as [| a t]; simpl.
    + rewrite <- Hj by discriminate. destruct j; reflexivity.
    + apply Hj. discriminate.
  - destruct l' as [| a' t']; [discriminate|]. simpl in Hc.
    assert (H0 := Hj 0). simpl in H0.
    destruct l as [| a t].
    + specialize (H0 ltac:(discriminate)). discriminate.
    + specialize (H0 ltac:(discriminate)). simpl in H0. injection H0 as ->.
      simpl. f_equal. apply IH; [exact Hc|].
      intros j Hne. apply (Hj (S j)). lia.
Qed.

(** Appending the value of a new spot to the list of its dataset. *)
Lemma append_at_grouped {A : Type} (n : nat) (val : Spot -> A)
    (spots : list Spot) (s : Spot) :
  spot_dataset s < n ->
  append_at (grouped n val spots) (spot_dataset s) (val s)
  = ret (grouped n val (spots ++ [s])).
Proof.
  intros Hn. unfold append_at. rewrite nth_error_grouped.
  assert (Hlt : Nat.ltb (spot_dataset s) n = true) by (apply Nat.ltb_lt; exact Hn).
  rewrite Hlt. f_equal. f_equal. cbn [app]. apply update_ext.
  - rewrite nth_error_grouped, Hlt, filter_app, map_app. simpl.
    rewrite Nat.eqb_refl. reflexivity.
  - intros j Hj. rewrite !nth_error_grouped.
    destruct (Nat.ltb j n); [| reflexivity].
    rewrite filter_app, map_app. simpl.
    assert (E : Nat.eqb (spot_dataset s) j = false)
      by (apply Nat.eqb_neq; intros <-; contradiction Hj; reflexivity).
    rewrite E, app_nil_r. reflexivity.
Qed.

Lemma coordinate_ret (W : World) (s : string) :
  (exists v, py_float W s = Ret v) -> lift (py_float W s) = ret (coordinate W s).
Proof. intros [v Hv]. unfold coordinate, lift, ret. rewrite Hv. reflexivity. Qed.

(** One turn of the output loop on a placeable spot. *)
Lemma write_class_step (W : World) (out : string) (n i : nat)
    (labels : list Z) (colors : list rgb) (done : list Spot) (s : Spot) :
  placeable W n s ->
  nth_error labels i = Some (spot_label s) ->
  nth_error colors i = Some (spot_color s) ->
  write_class W (map (classes_file out) (seq 0 n)) labels colors
              (groups_of W n done) (i, spot_name s)
  = (Ret (groups_of W n (done ++ [s])), [class_line W out s]).
Proof.
  intros [Hn [Hx [Hy [Fx Fy]]]] Hl Hc. unfold write_class.
  destruct (split_spot_name s Hx Hy) as [S1 S2]. rewrite S1.
  cbn [List.length Nat.eqb py_assert bind ret item nth_error app].
  rewrite (coordinate_ret W _ Fy). cbn [bind ret app].
  rewrite S2. cbn [bind ret item nth_error app].
  rewrite (coordinate_ret W _ Fx). cbn [bind ret app].
  rewrite py_int_str_of_nat. cbn [bind ret app].
  unfold groups_of.
  cbn [x_points_index y_points_index labels_index labels_color_index].
  rewrite (append_at_grouped n (fun s => coordinate W (spot_x s)) done s Hn).
  cbn [bind ret app].
  rewrite (append_at_grouped n (fun s => coordinate W (spot_y s)) done s Hn).
  cbn [bind ret app].
  unfold item at 1. rewrite Hl. cbn [bind ret app].
  rewrite (append_at_grouped n spot_label done s Hn). cbn [bind ret app].
  unfold item at 1. rewrite Hc. cbn [bind ret app].
  rewrite (append_at_grouped n spot_color done s Hn). cbn [bind ret app].
  unfold item at 1. rewrite nth_error_map, nth_error_seq.
  assert (Hlt : Nat.ltb (spot_dataset s) n = true) by (apply Nat.ltb_lt; exact Hn).
  rewrite Hlt. cbn [option_map Nat.add bind ret app].
  unfold item at 1. rewrite Hl. cbn [bind ret emit app].
  reflexivity.
Qed.

Lemma write_class_loop (W : World) (out : string) (n : nat)
    (labels : list Z) (colors : list rgb) (rest : list Spot) :
  forall done : list Spot,
    Forall (placeable W n) rest ->
    labels = map spot_label (done ++ rest) ->
    colors = map spot_color (done ++ rest) ->
    for_each (combine (seq (List.length done) (List.length rest)) (map spot_name rest))
             (write_class W (map (classes_file out) (seq 0 n)) labels colors)
             (groups_of W n done)
    = (Ret (groups_of W n (done ++ rest)), map (class_line W out) rest).
Proof.
  induction rest as [| s rest IH]; intros done Hp Hl Hc.
  - simpl. rewrite app_nil_r. reflexivity.
  - inversion Hp as [| ? ? Hs Hrest]; subst.
    cbn [List.length seq map combine for_each].
    rewrite (write_class_step W out n (List.length done) _ _ done s Hs).
    + cbn [bind].
      specialize (IH (done ++ [s]) Hrest).
      rewrite length_app, Nat.add_1_r in IH. rewrite <- !app_assoc in IH.
      cbn [app] in IH. rewrite IH by reflexivity. reflexivity.
    + rewrite map_app, nth_error_app2 by (rewrite length_map; lia).
      rewrite length_map, Nat.sub_diag. reflexivity.
    + rewrite map_app, nth_error_app2 by (rewrite length_map; lia).
      rewrite length_map, Nat.sub_diag. reflexivity.
Qed.

Lemma for_each_emit {A : Type} (f : A -> event) (l : list A) :
  for_each l (fun _ x => emit (f x)) tt = (Ret tt, map f l).
Proof.
  induction l as [| x l IH]; [reflexivity|].
  cbn [for_each map]. unfold emit at 1. cbn [bind]. rewrite IH. reflexivity.
Qed.

(** When every spot left can be placed, the output step opens one classes
    file per dataset, writes exactly one line per spot, in the order of the
    frame, each to the file of the spot's own dataset with the spot's label
    and coordinates, and closes the files; the lists it hands to the image
    plots hold, per dataset, the coordinates, labels and colours of that
    dataset's spots. *)
Theorem write_classes_one_line_per_spot :
  forall (W : World) (out : string) (a : Args) (norm_counts : DataFrame)
         (spots : list Spot),
    let n := List.length (counts_table_files a) in
    let files := map (classes_file out) (seq 0 n) in
    df_index norm_counts = map spot_name spots ->
    Forall (placeable W n) spots ->
    write_classes W out a norm_counts (map spot_label spots) (map spot_color spots)
    = (Ret (groups_of W n spots),
       map FileOpen files ++ map (class_line W out) spots ++ map FileClose files).
Proof.
  intros W out a nc spots n files Hidx Hp. unfold write_classes.
  rewrite Hidx, !length_map, Nat.eqb_refl.
  cbn [py_assert bind ret app]. fold n. fold files.
  rewrite (for_each_emit FileOpen files). cbn [bind].
  unfold enumerate. rewrite length_map.
  change (mkGroups (map (fun _ => []) (seq 0 n)) (map (fun _ => []) (seq 0 n))
                   (map (fun _ => []) (seq 0 n)) (map (fun _ => []) (seq 0 n)))
    with (groups_of W n []).
  pose proof (write_class_loop W out n (map spot_label spots)
                (map spot_color spots) spots [] Hp eq_refl eq_refl) as Hloop.
  cbn [List.length app] in Hloop. fold files in Hloop. rewrite Hloop.
  cbn [bind app]. rewrite (for_each_emit FileClose files).
  cbn [bind ret app]. rewrite app_nil_r. reflexivity.
Qed.

Lemma write_classes_one_line_per_spot_witness :
  snd (write_classes Sample.world "/o" Sample.args_two
         (mkDF ["0_1x1"; "1_3x4"; "0_2x1"] [] [[]; []; []])
         [1; 2; 1]%Z [(fzero, fzero, fone); (fone, fzero, fone); (fzero, fone, fone)])
  = [FileOpen "/o/computed_classes_0.txt"; FileOpen "/o/computed_classes_1.txt";
     FileWrite "/o/computed_classes_0.txt" 1 (Fin 1) (Fin 1);
     FileWrite "/o/computed_classes_1.txt" 2 (Fin 3) (Fin 4);
     FileWrite "/o/computed_classes_0.txt" 1 (Fin 2) (Fin 1);
     FileClose "/o/computed_classes_0.txt"; FileClose "/o/computed_classes_1.txt"].
Proof.
  refine (f_equal snd
            (write_classes_one_line_per_spot Sample.world "/o" Sample.args_two
               (mkDF ["0_1x1"; "1_3x4"; "0_2x1"] [] [[]; []; []])
               [mkSpot 0 "1" "1" 1 (fzero, fzero, fone);
                mkSpot 1 "3" "4" 2 (fone, fzero, fone);
                mkSpot 0 "2" "1" 1 (fzero, fone, fone)] eq_refl _)).
  repeat constructor; simpl; try lia; eexists; reflexivity.
Defined.

(* ================================================================== *)
(** ** Further properties: normalization across datasets (lines 113-143) *)









(* ================================================================== *)
(** ** Further properties: the spots keep their names and their order *)

Lemma selection_refl (ids : list string) : selection_of ids ids.
Proof.
  exists (map (fun _ => true) ids). symmetry. apply select_all.
  - apply Forall_map, Forall_forall. reflexivity.
  - apply length_map.
Qed.

Lemma normalize_spot_index (factors : list fval) (counts : DataFrame) (spot : string)
    (ids : list string) :
  df_index counts = ids ->
  satisfies silent (fun c => df_index c = ids) (normalize_spot factors counts spot).
Proof.
  intros Hc. split; [apply normalize_spot_silent|].
  intros c H. unfold normalize_spot in H.
  bind_step H u Hu. bind_step H t0 H0. bind_step H tag H1.
  bind_step H idx H2. bind_step H f H3. simpl in H. injection H as <-.
  exact Hc.
Qed.

Lemma sample_normalization_index (W : World) (a : Args) (counts : DataFrame)
    (sc : list (nat * Series)) :
  satisfies silent (fun c => df_index c = df_index counts)
            (sample_normalization W a counts sc).
Proof.
  unfold sample_normalization.
  destruct (apply_sample_normalization a
            && Nat.ltb 1 (List.length (counts_table_files a))).
  - apply satisfies_bind with (Q := fun _ => True).
    + apply emits_satisfies. emits_auto.
    + intros factors _.
      apply satisfies_bind with (Q := fun c => df_index c = df_index counts).
      * apply satisfies_for_each; [| reflexivity].
        intros st x Hst _. apply normalize_spot_index, Hst.
      * intros c Hc. apply satisfies_ret. exact Hc.
  - apply satisfies_ret. reflexivity.
Qed.

Lemma merge_datasets_index (W : World) (out : string) (a : Args)
    (tables : list DataFrame) :
  Forall2 (fun f t => read_table W f = Ret t) (counts_table_files a) tables ->
  satisfies (ingest_event out)
            (fun c => df_index c = map spot_id (combined_ids tables))
            (merge_datasets W out a).
Proof.
  intros Hread. split; [apply (satisfies_emits _ _ _ (merge_datasets_events W out a))|].
  intros c H. unfold merge_datasets in H.
  destruct (ingest_index W out a tables Hread) as [counts [sc [tr [Hi Hidx]]]].
  rewrite Hi in H. cbn [bind] in H.
  destruct (sample_normalization_index W a counts sc) as [_ Hs].
  destruct (sample_normalization W a counts sc) as [o tr'].
  simpl in H, Hs. rewrite (Hs c H). exact Hidx.
Qed.

Lemma quality_filter_columns (a : Args) (counts : DataFrame) (ids : list string) :
  df_index counts = ids ->
  satisfies silent (fun c => selection_of ids (df_columns c)) (quality_filter a counts).
Proof.
  intros Hc. split; [apply quality_filter_silent|].
  intros c H. unfold quality_filter in H.
  bind_step H kept Hk. unfold spot_filter in Hk. bind_step Hk level Hl.
  simpl in Hk, H. injection Hk as <-. injection H as <-.
  simpl. rewrite Hc. eexists. reflexivity.
Qed.

Lemma divide_columns (counts : DataFrame) (sf : list fval) (c : DataFrame) :
  fst (divide counts sf) = Ret c -> df_columns c = df_columns counts.
Proof.
  unfold divide. destruct (Nat.eqb _ _); simpl; [| discriminate].
  intros H. injection H as <-. reflexivity.
Qed.

Lemma per_spot_normalization_columns (W : World) (name : string)
    (counts c : DataFrame) :
  transform_keeps_spots W ->
  fst (per_spot_normalization W name counts) = Ret c ->
  df_columns c = df_columns counts.
Proof.
  intros HW H. unfold per_spot_normalization in H.
  destruct (py_in name "DESeq").
  { bind_step H sf Hsf. apply divide_columns in H. exact H. }
  destruct (py_in name "DESeq2").
  { bind_step H sf Hsf. apply divide_columns in H. exact H. }
  destruct (py_in name "DESeq2Log").
  { simpl in H. apply (HW counts c H). }
  destruct (py_in name "EdgeR").
  { bind_step H sf Hsf. bind_step H scaled Hs. apply divide_columns in Hs.
    simpl in H. injection H as <-. exact Hs. }
  destruct (py_in name "REL").
  { simpl in H. injection H as <-. reflexivity. }
  destruct (py_in name "RAW").
  { simpl in H. injection H as <-. reflexivity. }
  discriminate.
Qed.

Lemma normalize_index (W : World) (a : Args) (counts : DataFrame) (ids : list string) :
  transform_keeps_spots W ->
  selection_of ids (df_columns counts) ->
  satisfies silent (fun c => selection_of ids (df_index c)) (normalize W a counts).
Proof.
  intros HW Hc. split; [apply normalize_silent|].
  intros c H. unfold normalize in H.
  bind_step H nc Hn. bind_step H kept Hk.
  apply (per_spot_normalization_columns W _ _ _ HW) in Hn.
  unfold variance_filter in Hk. bind_step Hk level Hl.
  simpl in Hk, H. injection Hk as <-. injection H as <-.
  simpl. rewrite Hn. exact Hc.
Qed.

(** The spots are never renamed nor reordered on their way to the reducer:
    when every table is read, the rows of the matrix handed to the reducer
    carry names ["{i}_{k}"] of input spots, in the order of the input. *)
Theorem reducer_rows_are_input_spots :
  forall (W : World) (a : Args) (tables : list DataFrame),
    Forall2 (fun f t => read_table W f = Ret t) (counts_table_files a) tables ->
    transform_keeps_spots W ->
    Forall (fun X => selection_of (map spot_id (combined_ids tables)) (df_index X))
           (reducer_inputs (snd (main W a))).
Proof.
  intros W a tables Hread HW.
  set (ids := map spot_id (combined_ids tables)).
  assert (H : emits (reducer_gets_spots ids) (main W a)).
  { apply (satisfies_emits _ (fun _ => True)). unfold main.
    apply satisfies_bind with (Q := fun c => selection_of ids (df_columns c)).
    - unfold prepare. apply satisfies_bind with (Q := fun _ => True).
      + apply emits_satisfies. eapply emits_impl; [| apply check_inputs_silent].
        intros e He. destruct e; simpl in *; tauto.
      + intros _ _. apply satisfies_bind with (Q := fun c => df_index c = ids).
        * eapply satisfies_impl; [| apply merge_datasets_index, Hread].
          intros e He. destruct e; simpl in *; tauto.
        * intros counts Hc. eapply satisfies_impl; [| apply quality_filter_columns, Hc].
          intros e He. destruct e; simpl in *; tauto.
    - intros counts Hc.
      apply satisfies_bind with (Q := fun c => selection_of ids (df_index c)).
      + eapply satisfies_impl; [| apply normalize_index; assumption].
        intros e He. destruct e; simpl in *; tauto.
      + intros nc Hnc. apply emits_satisfies.
        eapply emits_impl; [| apply analyse_events].
        intros e [_ He]. destruct e; simpl; try exact I. subst X.
        destruct (use_log_scale a); exact Hnc. }
  unfold emits in H. induction H as [| e tr He _ IH]; [constructor|].
  unfold reducer_inputs. cbn [flat_map]. apply Forall_app. split; [| exact IH].
  destruct e; try constructor; [exact He | constructor].
Qed.

Lemma sample_transform_keeps_spots : transform_keeps_spots Sample.world.
Proof. intros d d' H. simpl in H. injection H as <-. reflexivity. Defined.

Lemma reducer_rows_are_input_spots_witness :
  Forall (fun X => selection_of ["0_1x1"; "0_1x2"; "0_2x1"; "1_1x1"; "1_3x4"]
                                (df_index X))
         (reducer_inputs (snd (main Sample.world Sample.args_two))).
Proof.
  refine (reducer_rows_are_input_spots Sample.world Sample.args_two
            [Sample.table_a; Sample.table_b] _ sample_transform_keeps_spots).
  repeat constructor.
Defined.

(* ================================================================== *)
(** ** Further properties: an unknown reducer (lines 207-228) *)

Lemma select_decomp_model_unknown (name : string) (n : Z) :
  py_in "tSNE" name = false -> py_in "PCA" name = false ->
  py_in "ICA" name = false ->
  select_decomp_model name n
  = fail ("Error, incorrect dimensionality reduction method" ++ nl).
Proof.
  intros H1 H2 H3. unfold select_decomp_model. rewrite H1, H2, H3.
  destruct (py_in "SPCA" name) eqn:H4; [| reflexivity].
  apply py_in_SPCA_PCA in H4. congruence.
Qed.

(** With a reducer name that holds none of tSNE, PCA and ICA the run never
    ends normally and never gets to an estimator: no reducer and no
    clusterer is called, no plot is made and no classes file is opened.
    The name is looked at late: what the run leaves behind are the
    histograms and tables written before. *)
Theorem main_unknown_reducer_calls_no_estimator :
  forall (W : World) (a : Args),
    py_in "tSNE" (dimensionality_algorithm a) = false ->
    py_in "PCA" (dimensionality_algorithm a) = false ->
    py_in "ICA" (dimensionality_algorithm a) = false ->
    (forall u, fst (main W a) <> Ret u)
    /\ Forall before_estimators (snd (main W a))
    /\ reducer_inputs (snd (main W a)) = [].
Proof.
  intros W a H1 H2 H3.
  assert (Hsel := select_decomp_model_unknown _ (num_dimensions a) H1 H2 H3).
  assert (Hev : emits before_estimators (main W a)).
  { unfold main. apply emits_bind.
    - eapply emits_impl; [| apply prepare_events].
      intros e He. destruct e; simpl in *; tauto.
    - intros counts. apply emits_bind.
      + eapply emits_impl; [| apply normalize_silent].
        intros e He. destruct e; simpl in *; tauto.
      + intros nc. unfold analyse. apply emits_bind.
        * unfold write_normalized, write_slice. emits_auto. exact I.
        * intros _. rewrite Hsel. unfold emits. simpl.
          repeat constructor. }
  split; [| split].
  - intros u H. unfold main in H.
    bind_step H counts Hc. bind_step H nc Hn. unfold analyse in H.
    bind_step H w Hw. bind_step H m Hm. rewrite Hsel in Hm. discriminate.
  - exact Hev.
  - unfold emits in Hev. induction Hev as [| e tr He _ IH]; [reflexivity|].
    unfold reducer_inputs in *. cbn [flat_map]. rewrite IH.
    destruct e; simpl in *; try reflexivity; contradiction.
Qed.

Lemma main_unknown_reducer_calls_no_estimator_witness :
  reducer_inputs (snd (main Sample.world Sample.args_no_reducer)) = [].
Proof.
  exact (proj2 (proj2 (main_unknown_reducer_calls_no_estimator Sample.world
                         Sample.args_no_reducer eq_refl eq_refl eq_refl))).
Defined.

(* ================================================================== *)
(** ** Instances of the general properties on the sample tables *)

Lemma select_decomp_model_never_sparse_witness :
  fst (select_decomp_model "SPCA" 2) = Ret (PCA 2 true true)
  /\ PCA 2 true true <> SparsePCA 2 1%Q.
Proof.
  split; [reflexivity|].
  exact (select_decomp_model_never_sparse "SPCA" 2 (PCA 2 true true) eq_refl 2%Z 1%Q).
Defined.

Lemma reducer_input_no_inf_witness :
  Forall no_inf (reducer_inputs (snd (main Sample.world Sample.args_inf))).
Proof.
  exact (reducer_input_no_inf Sample.world Sample.args_inf eq_refl).
Defined.

(* ================================================================== *)
(** ** Further properties: the overlays on the images (lines 320-350) *)

Lemma item_nth {A : Type} (l : list A) (i : nat) (d : A) :
  i < List.length l -> item l i = ret (nth i l d).
Proof.
  intros H. unfold item. rewrite (nth_error_nth' l d H). reflexivity.
Qed.

Lemma plot_image_step (W : World) (out : string) (a : Args) (g : Groups)
    (i : nat) (image : string) (n : nat) :
  (forall al, alignment_files a = Some al -> List.length al = n) ->
  List.length (x_points_index g) = n ->
  List.length (y_points_index g) = n ->
  List.length (labels_index g) = n ->
  List.length (labels_color_index g) = n ->
  i < n ->
  plot_image W out a g tt (i, image)
  = (Ret tt, overlays W out (alignment_files a) g (i, image)).
Proof.
  intros Hal Hx Hy Hl Hc Hi. unfold plot_image, overlays.
  destruct (isfile W image); [| reflexivity].
  rewrite (item_nth (x_points_index g) i []) by lia.
  rewrite (item_nth (y_points_index g) i []) by lia.
  rewrite (item_nth (labels_index g) i []) by lia.
  rewrite (item_nth (labels_color_index g) i []) by lia.
  destruct (alignment_files a) as [al |]; [| reflexivity].
  specialize (Hal al eq_refl).
  replace (Nat.leb i (List.length al)) with true
    by (symmetry; apply Nat.leb_le; lia).
  assert (Hlt : i < List.length al) by lia.
  unfold item at 1. destruct (nth_error al i) as [f |] eqn:E.
  - reflexivity.
  - apply nth_error_None in E. lia.
Qed.

Lemma plot_image_loop (W : World) (out : string) (a : Args) (g : Groups) (n : nat) :
  (forall al, alignment_files a = Some al -> List.length al = n) ->
  List.length (x_points_index g) = n ->
  List.length (y_points_index g) = n ->
  List.length (labels_index g) = n ->
  List.length (labels_color_index g) = n ->
  forall (images : list string) (k : nat),
    k + List.length images <= n ->
    for_each (combine (seq k (List.length images)) images) (plot_image W out a g) tt
    = (Ret tt, flat_map (overlays W out (alignment_files a) g)
                        (combine (seq k (List.length images)) images)).
Proof.
  intros Hal Hx Hy Hl Hc images.
  induction images as [| image rest IH]; intros k Hk; [reflexivity|].
  cbn [List.length seq combine for_each flat_map].
  cbn [List.length] in Hk.
  rewrite (plot_image_step W out a g k image n Hal Hx Hy Hl Hc) by lia.
  cbn [bind]. rewrite (IH (S k)) by lia. reflexivity.
Qed.

(** When the lists are as long as the checks of lines 68-74 leave them
    (as many alignments as images, if any alignment is given, and one group
    of spots per image), the last loop ends normally and draws, for each
    image whose file exists and in the order of the images, the overlay by
    class and then the overlay by colour, each with the alignment of the
    same position; an image whose file is missing is passed over. *)
Theorem plot_images_two_overlays_per_image :
  forall (W : World) (out : string) (a : Args) (g : Groups) (images : list string),
    image_files a = Some images ->
    (forall al, alignment_files a = Some al -> List.length al = List.length images) ->
    List.length (x_points_index g) = List.length images ->
    List.length (y_points_index g) = List.length images ->
    List.length (labels_index g) = List.length images ->
    List.length (labels_color_index g) = List.length images ->
    plot_images W out a g
    = (Ret tt, flat_map (overlays W out (alignment_files a) g) (enumerate images)).
Proof.
  intros W out a g images Him Hal Hx Hy Hl Hc.
  unfold plot_images, enumerate. rewrite Him.
  apply (plot_image_loop W out a g (List.length images) Hal Hx Hy Hl Hc images 0).
  lia.
Qed.

Lemma plot_images_two_overlays_per_image_witness :
  plot_images Sample.world_with_image "/o" Sample.args_aligned Sample.groups_one
  = (Ret tt,
     [ScatterPlot [Fin 1; Fin 2] [Fin 1; Fin 1] (ByLabel [1%Z; 2%Z])
        "/o/computed_classes_tissue_0.png" (Some "a.txt") (Some "a.png");
      ScatterPlot [Fin 1; Fin 2] [Fin 1; Fin 1]
        (ByColor [(Fin 0, Fin 0, Fin 1); (Fin 1, Fin 1, Fin 1)])
        "/o/dimensionality_color_tissue_0.png" (Some "a.txt") (Some "a.png")]).
Proof.
  refine (plot_images_two_overlays_per_image Sample.world_with_image "/o"
            Sample.args_aligned Sample.groups_one ["a.png"] eq_refl _
            eq_refl eq_refl eq_refl eq_refl).
  intros al H. injection H as <-. reflexivity.
Defined.

(** The test [len(alignment_files) >= i] of line 323 does not guard the
    index at [i = len(alignment_files)]: with an empty list of alignments,
    which the check of line 72 lets through, a first image whose file
    exists stops the run with an IndexError before anything is drawn. *)
Theorem plot_images_empty_alignments_index_error :
  forall (W : World) (out : string) (a : Args) (g : Groups)
         (image : string) (rest : list string),
    alignment_files a = Some [] ->
    image_files a = Some (image :: rest) ->
    isfile W image = true ->
    plot_images W out a g = (Raise IndexError, []).
Proof.
  intros W out a g image rest Hal Him Hfile.
  unfold plot_images, enumerate. rewrite Him.
  cbn [List.length seq combine for_each].
  unfold plot_image at 1. rewrite Hfile, Hal. reflexivity.
Qed.

Lemma plot_images_empty_alignments_index_error_witness :
  plot_images Sample.world_with_image "/o" Sample.args_empty_alignments
              Sample.groups_one
  = (Raise IndexError, []).
Proof.
  exact (plot_images_empty_alignments_index_error Sample.world_with_image "/o"
           Sample.args_empty_alignments Sample.groups_one "a.png" []
           eq_refl eq_refl eq_refl).
Defined.
